(** * Aura: the reply pipeline of the backend and the components of the chat UI

    This development embeds two parts of the repository.

    - [backend/app/llm_service.py]: [configure_genai],
      [create_dynamic_prompt], [validate_response], [refine_and_respond]
      and [generate_emotional_response].  The repository holds this module
      in compiled form (CPython 3.12); the embedding follows the
      instructions of each code object, and quotes the statements they
      come from.  Four literals cannot be read off the compiled module:
      the initial temperature, the value shared by [top_p] and by the cap
      on the temperature, the temperature step, and the length of the
      context window.  They are fields of [Env].  The modules it imports
      ([utils], [emotion_pipeline], [config], the [google.genai] client and
      [json]) are fields of [Env] as well.
    - [ChatInterface.tsx]: [handleSubmit], [handleKeyDown],
      [EmotionDisplay], and the attributes of the render that depend on
      the state (the send button, the error line, the emotion list of a
      message); [page.tsx]: the helper [cn].

    Strings are Rocq strings, read as the UTF-8 bytes of the Python or
    JavaScript string.  Whitespace stripping is modelled on the ASCII range
    (the code points below 128 that [str.isspace], resp. ECMAScript
    [WhiteSpace] and [LineTerminator], accept).

    The file has two parts: the definitions (the embedding, the notions
    used in the statements, sample worlds), then the properties. *)

From Stdlib Require Import String Ascii List ZArith Bool Lia DecimalString Floats.
From Stdlib Require Import Permutation Sorted.
Import ListNotations.

Set Implicit Arguments.
#[local] Set Warnings "-inexact-float,-register-all".
#[local] Open Scope string_scope.

(* ================================================================= *)
(** ** Stripping the two ends of a string

    [str.strip] of Python and [String.prototype.trim] of ECMAScript differ
    in the characters they remove only. *)

Module Strip.

Section By.

Variable space : ascii -> bool.

Fixpoint all_by (s : string) : bool :=
  match s with
  | EmptyString => true
  | String c s' => space c && all_by s'
  end.

Fixpoint lstrip_by (s : string) : string :=
  match s with
  | EmptyString => EmptyString
  | String c s' => if space c then lstrip_by s' else s
  end.

Fixpoint rstrip_by (s : string) : string :=
  match s with
  | EmptyString => EmptyString
  | String c s' =>
      match rstrip_by s' with
      | EmptyString => if space c then EmptyString else String c EmptyString
      | r => String c r
      end
  end.

Definition strip_by (s : string) : string := rstrip_by (lstrip_by s).

End By.

End Strip.

(* ================================================================= *)
(** ** Python [str] operations used by the service *)

Module PyStr.

Definition code (c : ascii) : nat := nat_of_ascii c.

(** [str.isspace] on code points below 128: TAB, LF, VT, FF, CR,
    FS, GS, RS, US and SPACE. *)
Definition isspace (c : ascii) : bool :=
  let n := code c in
  ((9 <=? n)%nat && (n <=? 13)%nat) || ((28 <=? n)%nat && (n <=? 32)%nat).

(** [s.lstrip()] *)
Definition lstrip (s : string) : string := Strip.lstrip_by isspace s.

(** [s.rstrip()] *)
Definition rstrip (s : string) : string := Strip.rstrip_by isspace s.

(** [s.strip()] *)
Definition strip (s : string) : string := Strip.strip_by isspace s.

(** [s.startswith(p)] *)
Definition startswith (s p : string) : bool := prefix p s.

(** [s.endswith(q)] *)
Fixpoint endswith (s q : string) : bool :=
  (s =? q) ||
  match s with
  | EmptyString => false
  | String _ s' => endswith s' q
  end.

Definition len (s : string) : Z := Z.of_nat (String.length s).

(** Index normalisation of a slice bound: negative bounds count from the
    end, and the result is clamped to [0, len]. *)
Definition clamp (n i : Z) : Z :=
  let j := if (i <? 0)%Z then (i + n)%Z else i in
  Z.max 0 (Z.min n j).

(** [s[lo:hi]] *)
Definition slice (s : string) (lo hi : Z) : string :=
  let n := len s in
  let a := clamp n lo in
  let b := clamp n hi in
  if (a <? b)%Z then substring (Z.to_nat a) (Z.to_nat (b - a)) s
  else EmptyString.

(** [s[lo:]] *)
Definition slice_from (s : string) (lo : Z) : string := slice s lo (len s).

Fixpoint find_from (sub s : string) (i : Z) : Z :=
  if prefix sub s then i
  else match s with
       | EmptyString => (-1)%Z
       | String _ s' => find_from sub s' (i + 1)
       end.

(** [s.find(sub)]: lowest index of [sub] in [s], or -1. *)
Definition find (s sub : string) : Z := find_from sub s 0.

Fixpoint rfind_from (sub s : string) (i last : Z) : Z :=
  let last' := if prefix sub s then i else last in
  match s with
  | EmptyString => last'
  | String _ s' => rfind_from sub s' (i + 1) last'
  end.

(** [s.rfind(sub)]: highest index of [sub] in [s], or -1. *)
Definition rfind (s sub : string) : Z := rfind_from sub s 0 (-1).

(** [sub in s] for strings *)
Definition contains (s sub : string) : bool := (0 <=? find s sub)%Z.

(** [sep.join(xs)] *)
Definition join (sep : string) (xs : list string) : string :=
  String.concat sep xs.

(** [xs[-n:]] on a list: its last [n] elements, all of it when it is
    shorter; [xs[-0:]] is [xs[0:]], the whole list. *)
Definition last_n {A} (n : nat) (xs : list A) : list A :=
  match n with
  | O => xs
  | _ => skipn (List.length xs - n) xs
  end.

(** [str(n)] for a non-negative int *)
Definition str_nat (n : nat) : string :=
  NilEmpty.string_of_uint (Nat.to_uint n).

End PyStr.

(* ================================================================= *)
(** ** Exceptions and results *)

(** The exception classes the service can meet.  All of them derive from
    [Exception], so every [except Exception] catches them; only
    [JSONDecodeError] is singled out by a handler.  What is raised outside
    that hierarchy (the cancellation of the task) is not modelled. *)
Inductive ExnClass : Type :=
| JSONDecodeError
| TypeError
| KeyError
| AttributeError
| OtherException (name : string).

Record Exn : Type := mkExn { exn_class : ExnClass; exn_str : string }.

Definition is_JSONDecodeError (e : Exn) : bool :=
  match exn_class e with
  | JSONDecodeError => true
  | _ => false
  end.

(** What evaluating a Python expression gives: a value or a raised
    exception. *)
Inductive Outcome (A : Type) : Type :=
| Ret (a : A)
| Raise (e : Exn).

Arguments Ret {A} a.
Arguments Raise {A} e.

(* ================================================================= *)
(** ** JSON values as [json.loads] builds them *)

Module Json.

(** A [dict] is kept as an association list in insertion order, keys
    unique. *)
Inductive json : Type :=
| JNull
| JBool (b : bool)
| JInt (z : Z)
| JFloat (f : float)
| JStr (s : string)
| JList (xs : list json)
| JDict (kvs : list (string * json)).

Fixpoint lookup (k : string) (kvs : list (string * json)) : option json :=
  match kvs with
  | [] => None
  | (k', v) :: rest => if k' =? k then Some v else lookup k rest
  end.

(** [d[k] = v] on a dict: overwrite in place, or append. *)
Fixpoint dict_set (k : string) (v : json) (kvs : list (string * json))
  : list (string * json) :=
  match kvs with
  | [] => [(k, v)]
  | (k', v') :: rest =>
      if k' =? k then (k, v) :: rest else (k', v') :: dict_set k v rest
  end.

(** Truth value of a Python object, as tested by [not data]. *)
Definition truthy (v : json) : bool :=
  match v with
  | JNull => false
  | JBool b => b
  | JInt z => negb (z =? 0)%Z
  | JFloat f => negb (PrimFloat.eqb f 0%float)
  | JStr s => negb (s =? "")
  | JList xs => match xs with [] => false | _ => true end
  | JDict kvs => match kvs with [] => false | _ => true end
  end.

Definition is_str (s : string) (v : json) : bool :=
  match v with
  | JStr t => t =? s
  | _ => false
  end.

Definition type_name (v : json) : string :=
  match v with
  | JNull => "NoneType"
  | JBool _ => "bool"
  | JInt _ => "int"
  | JFloat _ => "float"
  | JStr _ => "str"
  | JList _ => "list"
  | JDict _ => "dict"
  end.

(** [k in v] for a string [k]: key membership on a dict, element
    membership on a list, substring test on a str, [TypeError] on the
    other values. *)
Definition py_in (k : string) (v : json) : Outcome bool :=
  match v with
  | JDict kvs => Ret (match lookup k kvs with Some _ => true | None => false end)
  | JList xs => Ret (existsb (is_str k) xs)
  | JStr s => Ret (PyStr.contains s k)
  | _ => Raise (mkExn TypeError
                  ("argument of type '" ++ type_name v ++ "' is not iterable"))
  end.

(** [v[k]] for a string [k]. *)
Definition getitem (v : json) (k : string) : Outcome json :=
  match v with
  | JDict kvs =>
      match lookup k kvs with
      | Some x => Ret x
      | None => Raise (mkExn KeyError ("'" ++ k ++ "'"))
      end
  | JList _ =>
      Raise (mkExn TypeError "list indices must be integers or slices, not str")
  | JStr _ =>
      Raise (mkExn TypeError "string indices must be integers, not 'str'")
  | _ =>
      Raise (mkExn TypeError
               ("'" ++ type_name v ++ "' object is not subscriptable"))
  end.

(** [v.get(k, default)]: a dict method; other values have no [get]. *)
Definition dict_get (v : json) (k : string) (default : json) : Outcome json :=
  match v with
  | JDict kvs =>
      Ret (match lookup k kvs with Some x => x | None => default end)
  | _ =>
      Raise (mkExn AttributeError
               ("'" ++ type_name v ++ "' object has no attribute 'get'"))
  end.

End Json.
Export Json.

(* ================================================================= *)
(** ** A reference decoder for [json.loads]

    [json.loads] is library code.  The service is embedded against an
    arbitrary decoder (field [json_loads] of [Env]); the decoder below is
    the instance used to run the service on concrete replies.  It follows
    CPython's [json.decoder] and [json.scanner]: whitespace, [null],
    [true], [false], [NaN], [Infinity], [-Infinity], numbers (an [int]
    without fraction and exponent, else a binary64 [float], rounded to
    nearest-even), strings with their escapes (a surrogate pair is joined,
    a lone surrogate is kept in its three-byte form), arrays, objects (a
    repeated key keeps its first position and its last value), rejection
    of trailing data and of control characters inside strings.  Not
    modelled: the text of the error, and the limits of the interpreter on
    nesting depth and on the number of digits of an [int]. *)

Module JsonText.

Definition dquote : ascii := ascii_of_nat 34.
Definition backslash : ascii := ascii_of_nat 92.

Definition is_ws (c : ascii) : bool :=
  let n := nat_of_ascii c in
  (n =? 32)%nat || (n =? 9)%nat || (n =? 10)%nat || (n =? 13)%nat.

Fixpoint skip_ws (s : string) : string :=
  match s with
  | String c s' => if is_ws c then skip_ws s' else s
  | EmptyString => EmptyString
  end.

Definition digit_val (c : ascii) : option Z :=
  let n := nat_of_ascii c in
  if ((48 <=? n) && (n <=? 57))%nat then Some (Z.of_nat (n - 48)) else None.

Definition hex_val (c : ascii) : option Z :=
  let n := nat_of_ascii c in
  if ((48 <=? n) && (n <=? 57))%nat then Some (Z.of_nat (n - 48))
  else if ((97 <=? n) && (n <=? 102))%nat then Some (Z.of_nat (n - 87))
  else if ((65 <=? n) && (n <=? 70))%nat then Some (Z.of_nat (n - 55))
  else None.

Definition hex4 (a b c d : ascii) : option Z :=
  match hex_val a, hex_val b, hex_val c, hex_val d with
  | Some x, Some y, Some z, Some w => Some (((x * 16 + y) * 16 + z) * 16 + w)%Z
  | _, _, _, _ => None
  end.

Definition byte (z : Z) : ascii := ascii_of_nat (Z.to_nat z).

(** UTF-8 encoding of a code point. *)
Definition utf8 (n : Z) : string :=
  if (n <? 128)%Z then String (byte n) ""
  else if (n <? 2048)%Z then
    String (byte (192 + n / 64)) (String (byte (128 + n mod 64)) "")
  else if (n <? 65536)%Z then
    String (byte (224 + n / 4096))
      (String (byte (128 + (n / 64) mod 64))
         (String (byte (128 + n mod 64)) ""))
  else
    String (byte (240 + n / 262144))
      (String (byte (128 + (n / 4096) mod 64))
         (String (byte (128 + (n / 64) mod 64))
            (String (byte (128 + n mod 64)) ""))).

Definition is_high_surrogate (n : Z) : bool := ((55296 <=? n) && (n <=? 56319))%Z.
Definition is_low_surrogate (n : Z) : bool := ((56320 <=? n) && (n <=? 57343))%Z.

(** The one-letter escapes. *)
Definition unescape (c : ascii) : option ascii :=
  let n := nat_of_ascii c in
  if (n =? 34)%nat then Some dquote
  else if (n =? 92)%nat then Some backslash
  else if (n =? 47)%nat then Some "/"%char
  else if (n =? 98)%nat then Some (ascii_of_nat 8)
  else if (n =? 102)%nat then Some (ascii_of_nat 12)
  else if (n =? 110)%nat then Some (ascii_of_nat 10)
  else if (n =? 114)%nat then Some (ascii_of_nat 13)
  else if (n =? 116)%nat then Some (ascii_of_nat 9)
  else None.

Definition prepend (p : string) (r : option (string * string))
  : option (string * string) :=
  match r with
  | Some (t, rest) => Some (p ++ t, rest)
  | None => None
  end.

(** Scans a string literal after its opening quote; returns the decoded
    contents and the text after the closing quote. *)
Fixpoint scan_string (s : string) : option (string * string) :=
  match s with
  | EmptyString => None
  | String c rest =>
      if (c =? dquote)%char then Some ("", rest)
      else if (c =? backslash)%char then
        match rest with
        | EmptyString => None
        | String e rest1 =>
            if (e =? "u")%char then
              match rest1 with
              | String h1 (String h2 (String h3 (String h4 rest2))) =>
                  match hex4 h1 h2 h3 h4 with
                  | None => None
                  | Some hi =>
                      if is_high_surrogate hi then
                        match rest2 with
                        | String b (String u rest3) =>
                            if (b =? backslash)%char && (u =? "u")%char then
                              match rest3 with
                              | String l1 (String l2 (String l3 (String l4 rest4))) =>
                                  match hex4 l1 l2 l3 l4 with
                                  | Some lo =>
                                      if is_low_surrogate lo
                                      then prepend
                                             (utf8 (65536 + (hi - 55296) * 1024
                                                    + (lo - 56320)))
                                             (scan_string rest4)
                                      else prepend (utf8 hi) (scan_string rest2)
                                  | None => None
                                  end
                              | _ => None
                              end
                            else prepend (utf8 hi) (scan_string rest2)
                        | _ => prepend (utf8 hi) (scan_string rest2)
                        end
                      else prepend (utf8 hi) (scan_string rest2)
                  end
              | _ => None
              end
            else
              match unescape e with
              | Some ch => prepend (String ch "") (scan_string rest1)
              | None => None
              end
        end
      else if (nat_of_ascii c <? 32)%nat then None
      else prepend (String c "") (scan_string rest)
  end.

(** Reads a run of digits: the number read so far, the count of digits
    read, the text that follows. *)
Fixpoint scan_digits (s : string) (acc : Z) (count : Z) : Z * Z * string :=
  match s with
  | EmptyString => (acc, count, s)
  | String c rest =>
      match digit_val c with
      | Some d => scan_digits rest (acc * 10 + d) (count + 1)
      | None => (acc, count, s)
      end
  end.

Definition is_digit (c : ascii) : bool :=
  match digit_val c with
  | Some _ => true
  | None => false
  end.

(** The integer part at the head of [s]: an optional minus sign, then
    either a single 0 or a non-zero digit followed by digits. *)
Definition scan_integer (s : string) : option (bool * Z * string) :=
  let '(neg, body) :=
    match s with
    | String "-" rest => (true, rest)
    | _ => (false, s)
    end in
  match body with
  | String c rest =>
      match digit_val c with
      | Some d =>
          if (d =? 0)%Z then Some (neg, 0%Z, rest)
          else let '(v, _, rest') := scan_digits rest d 0 in
               Some (neg, v, rest')
      | None => None
      end
  | EmptyString => None
  end.

(** An optional fraction: a point followed by at least one digit.  Gives
    the digits appended to [m], how many there were, and the rest. *)
Definition scan_fraction (s : string) (m : Z) : option (Z * Z) * string :=
  match s with
  | String "." (String d rest as digits) =>
      if is_digit d
      then let '(m', n, rest') := scan_digits digits m 0 in
           (Some (m', n), rest')
      else (None, s)
  | _ => (None, s)
  end.

(** An optional exponent: [e] or [E], an optional sign, at least one
    digit. *)
Definition scan_exponent (s : string) : option Z * string :=
  match s with
  | String c after =>
      if ((c =? "e") || (c =? "E"))%char then
        match after with
        | String sign digits =>
            if ((sign =? "+") || (sign =? "-"))%char then
              match digits with
              | String d _ =>
                  if is_digit d
                  then let '(v, _, rest') := scan_digits digits 0 0 in
                       (Some (if (sign =? "-")%char then (- v)%Z else v), rest')
                  else (None, s)
              | EmptyString => (None, s)
              end
            else if is_digit sign
            then let '(v, _, rest') := scan_digits after 0 0 in (Some v, rest')
            else (None, s)
        | EmptyString => (None, s)
        end
      else (None, s)
  | EmptyString => (None, s)
  end.

(** [float] of a decimal: the binary64 value nearest to [m * 10 ^ e10]
    (ties to even), with the sign [neg]. *)
Definition decimal_to_float (neg : bool) (m e10 : Z) : float :=
  if (m =? 0)%Z then SF2Prim (S754_zero neg)
  else if (309 <=? e10)%Z then SF2Prim (S754_infinity neg)
  else if (Z.log2 m / 3 + 1 + e10 <=? -324)%Z then SF2Prim (S754_zero neg)
  else if (0 <=? e10)%Z then
    SF2Prim (binary_normalize prec emax
               (if neg then (- (m * 10 ^ e10))%Z else (m * 10 ^ e10)%Z) 0 neg)
  else
    let '(q, e, l) := SFdiv_core_binary prec emax m 0 (10 ^ (- e10)) 0 in
    SF2Prim (binary_round_aux prec emax neg q e l).

(** A number at the head of [s]. *)
Definition scan_number (s : string) : option (json * string) :=
  match scan_integer s with
  | None => None
  | Some (neg, m, rest) =>
      let '(frac, rest1) := scan_fraction rest m in
      let '(exp, rest2) := scan_exponent rest1 in
      match frac, exp with
      | None, None => Some (JInt (if neg then (- m)%Z else m), rest)
      | _, _ =>
          let '(m', nfrac) :=
            match frac with
            | Some (m', n) => (m', n)
            | None => (m, 0%Z)
            end in
          let e := match exp with Some e => e | None => 0%Z end in
          Some (JFloat (decimal_to_float neg m' (e - nfrac)), rest2)
      end
  end.

Definition literal (lit : string) (v : json) (s : string)
  : option (json * string) :=
  if prefix lit s
  then Some (v, substring (String.length lit)
                  (String.length s - String.length lit) s)
  else None.

Fixpoint dict_of_pairs (acc : list (string * json))
         (pairs : list (string * json)) : list (string * json) :=
  match pairs with
  | [] => acc
  | (k, v) :: rest => dict_of_pairs (dict_set k v acc) rest
  end.

(** One JSON value at the head of [s] (no leading whitespace), with the
    text that follows it.  [fuel] bounds the nesting depth. *)
Fixpoint scan_once (fuel : nat) (s : string) {struct fuel}
  : option (json * string) :=
  match fuel with
  | O => None
  | S fuel' =>
      match s with
      | EmptyString => None
      | String c rest =>
          let n := nat_of_ascii c in
          if (n =? 34)%nat then
            match scan_string rest with
            | Some (t, r) => Some (JStr t, r)
            | None => None
            end
          else if (n =? 123)%nat then
            match skip_ws rest with
            | String "}" r => Some (JDict [], r)
            | String q r =>
                if (q =? dquote)%char then scan_members fuel' r [] else None
            | EmptyString => None
            end
          else if (n =? 91)%nat then
            match skip_ws rest with
            | String "]" r => Some (JList [], r)
            | r => scan_elements fuel' r []
            end
          else if (n =? 110)%nat then literal "null" JNull s
          else if (n =? 116)%nat then literal "true" (JBool true) s
          else if (n =? 102)%nat then literal "false" (JBool false) s
          else
            match scan_number s with
            | Some r => Some r
            | None =>
                if (n =? 78)%nat then literal "NaN" (JFloat nan) s
                else if (n =? 73)%nat then literal "Infinity" (JFloat infinity) s
                else if (n =? 45)%nat
                     then literal "-Infinity" (JFloat neg_infinity) s
                else None
            end
      end
  end

(** Array elements; [s] starts at a value. *)
with scan_elements (fuel : nat) (s : string) (acc : list json) {struct fuel}
  : option (json * string) :=
  match fuel with
  | O => None
  | S fuel' =>
      match scan_once fuel' s with
      | Some (v, r) =>
          match skip_ws r with
          | String "]" r' => Some (JList (rev (v :: acc)), r')
          | String "," r' => scan_elements fuel' (skip_ws r') (v :: acc)
          | _ => None
          end
      | None => None
      end
  end

(** Object members; [s] starts just after the opening quote of a key. *)
with scan_members (fuel : nat) (s : string) (acc : list (string * json))
     {struct fuel} : option (json * string) :=
  match fuel with
  | O => None
  | S fuel' =>
      match scan_string s with
      | Some (k, r) =>
          match skip_ws r with
          | String ":" r1 =>
              match scan_once fuel' (skip_ws r1) with
              | Some (v, r2) =>
                  match skip_ws r2 with
                  | String "}" r3 =>
                      Some (JDict (dict_of_pairs [] (rev ((k, v) :: acc))), r3)
                  | String "," r3 =>
                      match skip_ws r3 with
                      | String q r4 =>
                          if (q =? dquote)%char
                          then scan_members fuel' r4 ((k, v) :: acc)
                          else None
                      | EmptyString => None
                      end
                  | _ => None
                  end
              | None => None
              end
          | _ => None
          end
      | None => None
      end
  end.

Definition decode (s : string) : option json :=
  match scan_once (S (String.length s)) (skip_ws s) with
  | Some (v, r) =>
      match skip_ws r with
      | EmptyString => Some v
      | _ => None
      end
  | None => None
  end.

(** The decoder as the service calls it.  The text of the error is not
    modelled (CPython reports the position of the fault). *)
Definition json_loads (s : string) : Outcome json :=
  match decode s with
  | Some v => Ret v
  | None => Raise (mkExn JSONDecodeError "invalid JSON text")
  end.

End JsonText.

(* ================================================================= *)
(** ** State, logging and the effect monad of the service *)

Inductive Level : Type := DEBUG | INFO | WARNING | ERROR.

(** One call on [logger]: the method, the message, the [exc_info] flag. *)
Record LogRecord : Type :=
  mkLog { level : Level; message : string; exc_info : bool }.

(** [schemas.EmotionAnalysisResult], restricted to the attributes that
    [llm_service] reads. *)
Record SecondaryEmotion : Type :=
  mkSecondary { label : string; score : float }.

Record EmotionAnalysisResult : Type :=
  mkAnalysis {
    primary_emotion : string;
    intensity : float;
    secondary_emotions : list SecondaryEmotion
  }.

(** [genai_types.GenerateContentConfig(max_output_tokens=, temperature=,
    top_p=)]; [temperature] is reassigned by the retry loop. *)
Record GenerateContentConfig : Type :=
  mkConfig { max_output_tokens : Z; temperature : float; top_p : float }.

(** The keyword arguments of one [client.aio.models.generate_content]
    call. *)
Record GenerateRequest : Type :=
  mkRequest {
    model : string;
    contents : list string;
    config : GenerateContentConfig
  }.

Section Effects.

(** [W] is the state of everything outside the module: the generative
    API, the classifier, the context store. *)
Variable W : Type.

Record St : Type :=
  mkSt {
    world : W;
    client : option string;          (* the module global [client] *)
    log : list LogRecord;            (* calls on [logger], oldest first *)
    api_calls : list GenerateRequest; (* calls on the API, oldest first *)
    produced : list json             (* history: the reply each attempt arrived at *)
  }.

Definition M (A : Type) : Type := St -> Outcome A * St.

Definition ret {A} (a : A) : M A := fun st => (Ret a, st).

Definition raise {A} (e : Exn) : M A := fun st => (Raise e, st).

Definition bind {A B} (m : M A) (k : A -> M B) : M B :=
  fun st =>
    match m st with
    | (Ret a, st') => k a st'
    | (Raise e, st') => (Raise e, st')
    end.

(** [try: m  except Exception as e: h e] *)
Definition try_except {A} (m : M A) (h : Exn -> M A) : M A :=
  fun st =>
    match m st with
    | (Ret a, st') => (Ret a, st')
    | (Raise e, st') => h e st'
    end.

(** Lifts an expression that touches no state. *)
Definition eval {A} (o : Outcome A) : M A := fun st => (o, st).

Definition emit (r : LogRecord) : M unit :=
  fun st =>
  (Ret tt,
   mkSt (world st) (client st) (log st ++ [r]) (api_calls st) (produced st)).

Definition logger_debug (s : string) : M unit := emit (mkLog DEBUG s false).
Definition logger_info (s : string) : M unit := emit (mkLog INFO s false).
Definition logger_warning (s : string) : M unit := emit (mkLog WARNING s false).
Definition logger_error (s : string) : M unit := emit (mkLog ERROR s false).

(** Runs a collaborator on the outside world. *)
Definition call {A} (f : W -> Outcome A * W) : M A :=
  fun st =>
    let '(o, w) := f (world st) in
    (o, mkSt w (client st) (log st) (api_calls st) (produced st)).

End Effects.

Arguments ret {W A} a _.
Arguments raise {W A} e _.
Arguments bind {W A B} m k _.
Arguments try_except {W A} m h _.
Arguments eval {W A} o _.
Arguments emit {W} r _.
Arguments logger_debug {W} s _.
Arguments logger_info {W} s _.
Arguments logger_warning {W} s _.
Arguments logger_error {W} s _.
Arguments call {W A} f _.

Declare Scope py_scope.
Delimit Scope py_scope with py.
Notation "x <- m ;; k" := (bind m (fun x => k))
  (at level 61, m at next level, right associativity) : py_scope.
Notation "m ;; k" := (bind m (fun _ => k))
  (at level 61, right associativity) : py_scope.

(* ================================================================= *)
(** ** What the module imports *)

(** Settings, collaborators and library routines, together with the four
    literals that the compiled module does not show.

    - [API_KEY], [MODEL_NAME]: the two attributes of [settings] in use.
    - [initial_temperature]: the literal of [temperature=] in the config.
    - [top_p_literal]: the literal of [top_p=]; the same constant is the
      first argument of [min] where the loop raises the temperature.
    - [temperature_step]: the literal added to the temperature there.
    - [context_window]: the [n] of [context[-n:]] in the prompt builder.
    - [generate_content] returns the [text] attribute of the response
      ([None] when the response carries no text) or raises.
    - [analyze_emotions] is called on whatever the reply holds under
      "response"; it returns an analysis, or [None], or raises.
    - [json_loads] is [json.loads].
    - [str_float] is [str(x)] and [format_2f] is [format(x, ".2f")].
    - [retry_async times delay_seconds] and [Timer name] are the two
      decorators of [utils]; in the module [retry_async] is also given
      [exceptions=(Exception,)], the class of every exception here. *)
Record Env (W : Type) : Type :=
  mkEnv {
    API_KEY : string;
    MODEL_NAME : string;
    initial_temperature : float;
    top_p_literal : float;
    temperature_step : float;
    context_window : nat;
    generate_content : GenerateRequest -> W -> Outcome (option string) * W;
    analyze_emotions : json -> W -> Outcome (option EmotionAnalysisResult) * W;
    get_conversation_context : string -> W -> Outcome (list string) * W;
    json_loads : string -> Outcome json;
    str_float : float -> string;
    format_2f : float -> string;
    retry_async : nat -> float -> M W json -> M W json;
    Timer : string -> M W json -> M W json
  }.


(* ================================================================= *)
(** ** [llm_service]: the module *)

Definition nl : string := String (ascii_of_nat 10) "".

(** The two constant parts of the prompt template that surround the
    substituted fields. *)
Module Template.

Definition role_and_state : string :=
  "**Role:** You are Charlotte, a professional, empathetic human " ++
  "therapist with years of experience. Respond as a warm, " ++
  "understanding person would in a therapy session, avoiding any " ++
  "AI-like or robotic language." ++
  nl ++
  "**User State:** Primary emotion: ".

Definition instructions : string :=
  nl ++
  "**Instructions:**" ++
  nl ++
  "- Respond in 2-4 sentences with a natural, conversational tone, " ++
  "mirroring the user's emotional tone and intensity as a therapist " ++
  "would." ++
  nl ++
  "- If the user's message is a question, directly address it in a " ++
  "warm, personal way before offering any therapeutic insights." ++
  nl ++
  "- For low-intensity (<5/10) or neutral emotions, keep responses " ++
  "light, casual, and engaging, avoiding therapeutic suggestions " ++
  "unless prompted." ++
  nl ++
  "- For ambiguous, short, or question-based inputs, assume a neutral " ++
  "or curious tone unless context strongly suggests otherwise." ++
  nl ++
  "- Use Lazarus' Appraisal Theory to classify the situation as " ++
  "'Threat' or 'Challenge' and weave this subtly into your tone (e.g., " ++
  "'Challenge' feels hopeful, 'Threat' feels protective), but only for " ++
  "moderate-to-high intensity (>5/10)." ++
  nl ++
  "- Suggest 1-2 practical emotion regulation strategies (e.g., deep " ++
  "breathing, reframing, grounding exercises) only for " ++
  "moderate-to-high intensity emotions (>5/10); otherwise, focus on " ++
  "connection and curiosity." ++
  nl ++
  "- Ensure the response feels personal, logical, and aligned with the " ++
  "detected emotion and context, avoiding generic phrases." ++
  nl ++
  "- End with a warm, open-ended follow-up question to invite further " ++
  "sharing, like a therapist would." ++
  nl ++
  "- Output a JSON object with fields: appraisal ('Threat' or " ++
  "'Challenge'), regulation (array of 1-2 strings, empty for " ++
  "low-intensity), response (string)." ++
  nl ++
  "Example for casual question: 'Hey, you asked how I’m doing—thanks " ++
  "for that! I’m feeling good, just enjoying the moment. What about " ++
  "you, how’s your day going?'" ++
  nl ++
  "Example for intense emotion: 'I hear how tough this is for you " ++
  "right now, and I’m here to help. Let’s try a slow breath together " ++
  "to ease that tension. What’s been the hardest part of this for you?'".

End Template.

Definition no_prior_conversation : string := "No prior conversation.".

(** The labels a reply may carry when the user's emotion is neutral. *)
Definition permissive_emotions : list string :=
  ["neutral"; "happy"; "surprised"; "curious"].

Definition max_attempts : nat := 3.

Definition charlotte_greeting : string :=
  "Hey, I’m Charlotte, your therapist. Thanks for sharing—what’s on your mind today?".

Definition charlotte_default : string :=
  "Hey, I’m Charlotte, your therapist. Thanks for sharing—what’s going on for you right now?".

(** The dict literal built at both fallback sites of [refine_and_respond]. *)
Definition fallback_reply : json :=
  JDict [("appraisal", JStr "Challenge");
         ("regulation", JList []);
         ("response", JStr charlotte_greeting)].

(** [min(a, b)] on floats: [b] when [b < a], else [a]. *)
Definition py_min (a b : float) : float :=
  if PrimFloat.ltb b a then b else a.

(** [analysis.primary_emotion], where [analysis] may be [None]. *)
Definition attr_primary_emotion (analysis : option EmotionAnalysisResult)
  : Outcome string :=
  match analysis with
  | Some a => Ret (primary_emotion a)
  | None =>
      Raise (mkExn AttributeError
               "'NoneType' object has no attribute 'primary_emotion'")
  end.

(** [resp.text.strip()] *)
Definition text_strip (text : option string) : Outcome string :=
  match text with
  | Some s => Ret (PyStr.strip s)
  | None =>
      Raise (mkExn AttributeError "'NoneType' object has no attribute 'strip'")
  end.

(** The fence test of the loop body:
<<
    if raw.startswith("```json") and raw.endswith("```"):
        raw = raw[7:-3].strip()
    elif raw.startswith("```") and raw.endswith("```"):
        raw = raw[3:-3].strip()
>>
    The upper bound of both slices is one constant of the code object; its
    low byte is not legible, and it is read as -3, the length of the closing
    fence. *)
Definition strip_fences (raw : string) : string :=
  if PyStr.startswith raw "```json" && PyStr.endswith raw "```"
  then PyStr.strip (PyStr.slice raw 7 (-3))
  else if PyStr.startswith raw "```" && PyStr.endswith raw "```"
  then PyStr.strip (PyStr.slice raw 3 (-3))
  else raw.

(** How one pass of the [for] loop ends: by [return data], or by going on
    to the next attempt with the config as it then stands. *)
Inductive Step : Type :=
| Return (data : json)
| Continue (cfg : GenerateContentConfig).

Section LlmService.

Variable W : Type.
Variable env : Env W.

#[local] Open Scope py_scope.

(** [configure_genai]: binds the global [client] and logs. *)
Definition configure_genai : M W unit :=
  fun st =>
    logger_info "Google GenAI client configured."
      (mkSt (world st) (Some (API_KEY env)) (log st) (api_calls st)
         (produced st)).

(** One item of the secondary-emotion list:
    [f"{e['label']} ({e['score']:.2f})"]. *)
Definition format_secondary (e : SecondaryEmotion) : string :=
  label e ++ " (" ++ format_2f env (score e) ++ ")".

(** [create_dynamic_prompt(emotions, user_text, context)] *)
Definition create_dynamic_prompt (emotions : EmotionAnalysisResult)
           (user_text : string) (context : list string) : string :=
  let emotion := primary_emotion emotions in
  let intensity := intensity emotions in
  let context_str :=
    match context with
    | [] => no_prior_conversation
    | _ => PyStr.join " " (PyStr.last_n (context_window env) context)
    end in
  let base_prompt :=
    Template.role_and_state ++ emotion ++
    " (intensity: " ++ str_float env intensity ++
    "/10). Secondary emotions: " ++
    PyStr.join ", " (map format_secondary (secondary_emotions emotions)) ++
    "." ++ nl ++ "**Context:** " ++ context_str ++
    nl ++ "**Current Message:** " ++ user_text ++
    Template.instructions in
  base_prompt.

(** [validate_response(response, expected_emotion)] *)
Definition validate_response (response : json) (expected_emotion : string)
  : M W bool :=
  try_except
    (analysis <- call (analyze_emotions env response) ;;
     neutral_ok <-
       (if expected_emotion =? "neutral"
        then p <- eval (attr_primary_emotion analysis) ;;
             ret (existsb (String.eqb p) permissive_emotions)
        else ret false) ;;
     if (neutral_ok : bool) then
       p <- eval (attr_primary_emotion analysis) ;;
       logger_info ("Response validated: neutral input allows " ++ p) ;;
       ret true
     else
       matches <-
         (match analysis with
          | None => ret false
          | Some _ =>
              p <- eval (attr_primary_emotion analysis) ;;
              ret (p =? expected_emotion)
          end) ;;
       if (matches : bool) then
         logger_info ("Response validated: matches expected emotion "
                      ++ expected_emotion) ;;
         ret true
       else
         p <- eval (attr_primary_emotion analysis) ;;
         logger_warning ("Response emotion mismatch: expected "
                         ++ expected_emotion ++ ", got " ++ p) ;;
         ret false)
    (fun e =>
       logger_error ("Response validation failed: " ++ exn_str e) ;;
       ret true).

(** The awaited API call; the request is also recorded in [api_calls]. *)
Definition call_generate_content (req : GenerateRequest) : M W (option string) :=
  fun st =>
    let '(o, w) := generate_content env req (world st) in
    (o, mkSt w (client st) (log st) (api_calls st ++ [req]) (produced st)).

(** The inner [try] of the loop body:
<<
    try:
        data = json.loads(raw)
    except json.JSONDecodeError as e:
        logger.warning(f"JSON parsing failed: {e}. Attempting to extract valid JSON.")
        start, end = raw.find("{"), raw.rfind("}")
        if start >= 0 and end >= 0:
            data = json.loads(raw[start:end + 1])
        else:
            data = {}
>>
    The handler has no [try] of its own. *)
Definition load_reply (raw : string) : M W json :=
  match json_loads env raw with
  | Ret data => ret data
  | Raise e =>
      if is_JSONDecodeError e then
        logger_warning ("JSON parsing failed: " ++ exn_str e
                        ++ ". Attempting to extract valid JSON.") ;;
        let start := PyStr.find raw "{" in
        let end_ := PyStr.rfind raw "}" in
        if ((0 <=? start) && (0 <=? end_))%Z
        then eval (json_loads env (PyStr.slice raw start (end_ + 1)))
        else ret (JDict [])
      else raise e
  end.

(** The substitution made when the parsed value has no usable reply. *)
Definition use_fallback (attempt : nat) : M W json :=
  logger_warning ("Invalid LLM response on attempt " ++ PyStr.str_nat attempt
                  ++ ". Using fallback.") ;;
  ret fallback_reply.

(** [if not data or "response" not in data: data = {...}] *)
Definition check_reply (attempt : nat) (data : json) : M W json :=
  if negb (truthy data) then use_fallback attempt
  else
    present <- eval (py_in "response" data) ;;
    if (present : bool) then ret data else use_fallback attempt.

(** History only: notes the reply an attempt has arrived at. *)
Definition note (data : json) : M W unit :=
  fun st =>
    (Ret tt,
     mkSt (world st) (client st) (log st) (api_calls st) (produced st ++ [data])).

(** The outer [try], first part: from the API call to the parsed text. *)
Definition fetch_reply (prompt : string) (attempt : nat)
           (cfg : GenerateContentConfig) : M W json :=
  text <- call_generate_content (mkRequest (MODEL_NAME env) [prompt] cfg) ;;
  raw <- eval (text_strip text) ;;
  logger_debug ("Raw LLM response (attempt " ++ PyStr.str_nat attempt
                ++ "): " ++ raw) ;;
  load_reply (strip_fences raw).

(** The outer [try], second part: from the parsed value to the end of the
    pass. *)
Definition settle_reply (analysis : EmotionAnalysisResult) (attempt : nat)
           (cfg : GenerateContentConfig) (data : json) : M W Step :=
  data <- check_reply attempt data ;;
  note data ;;
  response <- eval (getitem data "response") ;;
  valid <- validate_response response (primary_emotion analysis) ;;
  if (valid : bool) then ret (Return data)
  else
    logger_warning ("Response validation failed on attempt "
                    ++ PyStr.str_nat attempt ++ ". Retrying...") ;;
    ret (Continue
           (mkConfig (max_output_tokens cfg)
              (py_min (top_p_literal env)
                 (PrimFloat.add (temperature cfg) (temperature_step env)))
              (top_p cfg))).

(** The body of the outer [try] for one attempt. *)
Definition attempt_body (prompt : string) (analysis : EmotionAnalysisResult)
           (attempt : nat) (cfg : GenerateContentConfig) : M W Step :=
  data <- fetch_reply prompt attempt cfg ;;
  settle_reply analysis attempt cfg data.

(** One pass of the loop, with the outer handler:
<<
    except Exception as e:
        logger.error(f"LLM call failed on attempt {attempt}: {str(e)}")
        if attempt == max_attempts:
            raise
>> *)
Definition attempt_once (prompt : string) (analysis : EmotionAnalysisResult)
           (attempt : nat) (cfg : GenerateContentConfig) : M W Step :=
  try_except (attempt_body prompt analysis attempt cfg)
    (fun e =>
       logger_error ("LLM call failed on attempt " ++ PyStr.str_nat attempt
                     ++ ": " ++ exn_str e) ;;
       if (attempt =? max_attempts)%nat then raise e else ret (Continue cfg)).

(** [for attempt in range(1, max_attempts + 1): ...] followed by the
    statements after the loop. *)
Fixpoint attempts_loop (prompt : string) (analysis : EmotionAnalysisResult)
         (attempts : list nat) (cfg : GenerateContentConfig) : M W json :=
  match attempts with
  | [] =>
      logger_warning "Max validation attempts reached. Using fallback." ;;
      ret fallback_reply
  | attempt :: rest =>
      step <- attempt_once prompt analysis attempt cfg ;;
      match step with
      | Return data => ret data
      | Continue cfg' => attempts_loop prompt analysis rest cfg'
      end
  end.

(** [if client is None: configure_genai()] *)
Definition ensure_client : M W unit :=
  fun st =>
    match client st with
    | None => configure_genai st
    | Some _ => ret tt st
    end.

(** [refine_and_respond] as written, before its decorators. *)
Definition refine_and_respond_body (text : string)
           (analysis : EmotionAnalysisResult) (user_id : string) : M W json :=
  ensure_client ;;
  context <- call (get_conversation_context env user_id) ;;
  let prompt := create_dynamic_prompt analysis text context in
  let cfg := mkConfig 300 (initial_temperature env) (top_p_literal env) in
  attempts_loop prompt analysis (seq 1 max_attempts) cfg.

(** The name [refine_and_respond] as the module binds it:
<<
    @retry_async(times=4, delay_seconds=1.5, exceptions=(Exception,))
    @Timer(name="LLM Emotion + Response", log_func=logger.debug)
    async def refine_and_respond(text, analysis, user_id="default")
>> *)
Definition refine_and_respond (text : string)
           (analysis : EmotionAnalysisResult) (user_id : string) : M W json :=
  retry_async env 4 1.5%float
    (Timer env "LLM Emotion + Response"
       (refine_and_respond_body text analysis user_id)).

(** [generate_emotional_response(user_text, emotions, model_name, user_id)] *)
Definition generate_emotional_response (user_text : string)
           (emotions : EmotionAnalysisResult) (model_name : string)
           (user_id : string) : M W json :=
  try_except
    (result <- refine_and_respond user_text emotions user_id ;;
     eval (dict_get result "response" (JStr charlotte_default)))
    (fun e =>
       emit (mkLog ERROR
               ("Failed to generate emotional response: " ++ exn_str e) true) ;;
       ret (JStr charlotte_default)).

End LlmService.


(* ================================================================= *)
(** ** Instances of the imports, for running the service *)

(** Modelled from the spec: [utils.retry_async] is not among the sources.
    The specification describes it as a bounded retry with back-off around
    the call, "up to a fixed ceiling", whose last failure "propagates to
    the caller".  The model runs the call at most [times] times and lets
    the last exception out; the pauses between runs take time only and
    leave no trace in the state. *)
Fixpoint retry_async_model {W A} (times : nat) (delay_seconds : float)
         (f : M W A) : M W A :=
  match times with
  | S (S _ as n) =>
      try_except f (fun _ => retry_async_model n delay_seconds f)
  | _ => f
  end.

(** Modelled from the spec: [utils.Timer] is not among the sources.  The
    specification lists latency observations as a side effect on an
    external collaborator; the model leaves the wrapped call as it is. *)
Definition Timer_model {W A} (name : string) (f : M W A) : M W A := f.

(** A sample rendering of the few floats the examples use. *)
Definition sample_str_float (x : float) : string :=
  if PrimFloat.eqb x 8 then "8.0"
  else if PrimFloat.eqb x 2 then "2.0"
  else "0.0".

Definition sample_format_2f (x : float) : string :=
  if PrimFloat.eqb x 0.5 then "0.50"
  else if PrimFloat.eqb x 0.25 then "0.25"
  else "0.00".

(** A scripted outside world: the state counts the API calls made so far,
    [api n] is what call number [n] (from 0) gives, [classifier] is the
    emotion pipeline and [context] the stored conversation. *)
Definition scripted (api : nat -> Outcome (option string))
           (classifier : json -> Outcome (option EmotionAnalysisResult))
           (context : list string) : Env nat :=
  {| API_KEY := "sample-key";
     MODEL_NAME := "sample-model";
     initial_temperature := 0.7;
     top_p_literal := 0.9;
     temperature_step := 0.1;
     context_window := 5;
     generate_content := fun _ n => (api n, S n);
     analyze_emotions := fun v n => (classifier v, n);
     get_conversation_context := fun _ n => (Ret context, n);
     json_loads := JsonText.json_loads;
     str_float := sample_str_float;
     format_2f := sample_format_2f;
     retry_async := fun times delay f => retry_async_model times delay f;
     Timer := fun name f => Timer_model name f |}.

Definition initial_state : St nat := mkSt 0 None [] [] [].

(** A classifier that labels every text with the same primary emotion. *)
Definition always_feels (emotion : string)
  : json -> Outcome (option EmotionAnalysisResult) :=
  fun _ => Ret (Some (mkAnalysis emotion 2 [])).

Definition quoted (s : string) : string :=
  String JsonText.dquote s ++ String JsonText.dquote "".

(** The JSON text of an object with the single field [response]. *)
Definition reply_text (response : string) : string :=
  "{" ++ quoted "response" ++ ":" ++ quoted response ++ "}".

Definition sad_user : EmotionAnalysisResult :=
  mkAnalysis "sad" 8 [mkSecondary "fear" 0.5; mkSecondary "anger" 0.25].

Definition neutral_user : EmotionAnalysisResult := mkAnalysis "neutral" 2 [].


(* ================================================================= *)
(** ** [ChatInterface]: the submit handler of the chat page *)

Module ChatInterface.

(** ECMAScript [WhiteSpace] and [LineTerminator] below 128: TAB, LF, VT,
    FF, CR and SPACE. *)
Definition is_js_space (c : ascii) : bool :=
  let n := nat_of_ascii c in
  ((9 <=? n)%nat && (n <=? 13)%nat) || (n =? 32)%nat.

(** [s.trim()] *)
Definition trim (s : string) : string := Strip.strip_by is_js_space s.

(** Values that [response.json()] yields are JSON values.  [ToBoolean]: *)
Definition js_truthy (v : json) : bool :=
  match v with
  | JNull => false
  | JBool b => b
  | JInt z => negb (z =? 0)%Z
  | JFloat f => negb (PrimFloat.eqb f 0%float || PrimFloat.is_nan f)
  | JStr s => negb (s =? "")
  | JList _ => true
  | JDict _ => true
  end.

(** [v.k] on a value other than [null]: [None] is [undefined]. *)
Definition prop (v : json) (k : string) : option json :=
  match v with
  | JDict kvs => lookup k kvs
  | _ => None
  end.

Definition truthy_opt (v : option json) : bool :=
  match v with
  | Some x => js_truthy x
  | None => false
  end.

Inductive Sender : Type := user | ai | system.

(** [interface Message].  The fields of an AI message are taken from the
    response body as they come, so they are JSON values. *)
Record Message : Type :=
  mkMessage {
    id : json;
    sender : Sender;
    text : json;
    timestamp : Z;
    emotionAnalysis : option json
  }.

(** The four [useState] cells of the component. *)
Record State : Type :=
  mkState {
    messages : list Message;
    inputValue : string;
    isLoading : bool;
    error : option string
  }.

(** One [fetch] call.  [body] is the object handed to [JSON.stringify]. *)
Record Request : Type :=
  mkHttp {
    url : string;
    method : string;
    headers : list (string * string);
    body : json
  }.

(** What [await response.json()] gives. *)
Inductive BodyResult : Type :=
| BodyThrows (message : string)
| Body (responseBody : json).

(** What [await fetch(...)] gives: a rejection carrying [err.message], or
    a response. *)
Inductive FetchResult : Type :=
| Rejected (message : string)
| Responded (ok : bool) (status : nat) (b : BodyResult).

(** The browser side of the handler.
    - [NEXT_PUBLIC_API_URL] is the build-time variable behind [API_URL].
    - [now n] is the value of the [n]-th [Date.now()] of the page.
    - [to_string] is ECMAScript [ToString] on a parsed value.
    - [null_read k] is the message of the [TypeError] raised when property
      [k] of [null] is read. *)
Record Browser : Type :=
  mkBrowser {
    NEXT_PUBLIC_API_URL : option string;
    fetch : Request -> FetchResult;
    now : nat -> Z;
    to_string : json -> string;
    null_read : string -> string
  }.

(** [const API_URL = process.env.NEXT_PUBLIC_API_URL || 'http://localhost:8000'] *)
Definition API_URL (b : Browser) : string :=
  match NEXT_PUBLIC_API_URL b with
  | Some u => if u =? "" then "http://localhost:8000" else u
  | None => "http://localhost:8000"
  end.

Definition str_Z (z : Z) : string := NilZero.string_of_int (Z.to_int z).

(** Everything one run of the handler does. *)
Record Run : Type :=
  mkRun {
    state : State;                 (* the cells after the queued updates *)
    sent : list Request;           (* [fetch] calls issued *)
    console : list string;         (* first argument of each [console.error] *)
    default_prevented : bool;      (* [event.preventDefault()] was called *)
    focused : bool;                (* [inputRef.current?.focus()] was reached *)
    clock : nat                    (* [Date.now()] reads so far *)
  }.

(** [new Error(x).message] *)
Definition error_message (b : Browser) (x : json) : string :=
  match x with
  | JStr s => s
  | _ => to_string b x
  end.

(** The [try] block after the response has arrived: either the exception
    it throws (its [message], and whether [console.error] was called on the
    way) or the AI message to append, with the clock after it. *)
Definition handle_response (b : Browser) (clk : nat) (r : FetchResult)
  : (string * list string) + (Message * nat) :=
  match r with
  | Rejected m => inl (m, [])
  | Responded _ _ (BodyThrows m) => inl (m, [])
  | Responded ok status (Body responseBody) =>
      if negb ok then
        let detail :=
          match responseBody with
          | JNull => None
          | _ => prop responseBody "detail"
          end in
        let errorDetail :=
          match detail with
          | Some d =>
              if js_truthy d then d
              else JStr ("Request failed with status " ++ PyStr.str_nat status)
          | None => JStr ("Request failed with status " ++ PyStr.str_nat status)
          end in
        inl (error_message b errorDetail, [])
      else
        let data := responseBody in
        match data with
        | JNull => inl (null_read b "ai_response", [])
        | _ =>
            let complete :=
              truthy_opt (prop data "ai_response")
              && truthy_opt (prop data "user_emotion_analysis")
              && match prop data "user_emotion_analysis" with
                 | Some a =>
                     match prop a "distribution" with
                     | Some d =>
                         match d with
                         | JNull => false
                         | _ => truthy_opt (prop d "root")
                         end
                     | None => false
                     end
                 | None => false
                 end in
            if complete then
              match prop data "ai_response", prop data "user_emotion_analysis" with
              | Some reply, Some analysis =>
                  let '(ident, clk1) :=
                    match prop data "response_id" with
                    | Some i =>
                        if js_truthy i then (i, clk)
                        else (JStr ("ai-" ++ str_Z (now b clk)), S clk)
                    | None => (JStr ("ai-" ++ str_Z (now b clk)), S clk)
                    end in
                  inr (mkMessage ident ai reply (now b clk1) (Some analysis),
                       S clk1)
              | _, _ =>
                  inl ("Received incomplete or malformed data structure from backend.",
                       ["Incomplete data structure received:"])
              end
            else
              inl ("Received incomplete or malformed data structure from backend.",
                   ["Incomplete data structure received:"])
        end
  end.

(** [handleSubmit(event?)], run from the state [st] of the render that
    created it, with [clk] earlier reads of the clock. *)
Definition handleSubmit (b : Browser) (event : bool) (st : State) (clk : nat)
  : Run :=
  let text := trim (inputValue st) in
  if (text =? "") || isLoading st then
    mkRun st [] [] event false clk
  else
    let userMessage :=
      mkMessage (JStr ("user-" ++ str_Z (now b clk))) user (JStr text)
        (now b (S clk)) None in
    let clk := S (S clk) in
    let messages1 : list Message := (messages st ++ [userMessage])%list in
    let request :=
      mkHttp (API_URL b ++ "/chat") "POST"
        [("Content-Type", "application/json"); ("Accept", "application/json")]
        (JDict [("message", JStr text)]) in
    match handle_response b clk (fetch b request) with
    | inr (aiMessage, clk') =>
        mkRun (mkState (messages1 ++ [aiMessage])%list "" false None)
          [request] [] event true clk'
    | inl (message, logged) =>
        let errorMessage :=
          if message =? "" then "Failed to connect to the AI service."
          else message in
        let systemErrorMessage :=
          mkMessage (JStr ("error-" ++ str_Z (now b clk))) system
            (JStr ("Error: " ++ errorMessage)) (now b (S clk)) None in
        mkRun (mkState (messages1 ++ [systemErrorMessage])%list "" false
                 (Some errorMessage))
          [request] (logged ++ ["API Interaction Error:"])%list event true
          (S (S clk))
    end.

End ChatInterface.


(* ================================================================= *)
(** ** Notions used in the statements *)

(** [sub] occurs in [s], verbatim. *)
Definition occurs_in (sub s : string) : Prop :=
  exists pre post, s = pre ++ sub ++ post.

(** The policy of the validator in the words of the specification: pass
    when the expected emotion is neutral and the reply carries a permissive
    label, pass when the reply carries the expected label, fail
    otherwise. *)
Definition alignment_policy (expected reply_emotion : string) : bool :=
  ((expected =? "neutral") && existsb (String.eqb reply_emotion) permissive_emotions)
  || (reply_emotion =? expected).

Definition raises {A} (o : Outcome A) : bool :=
  match o with
  | Raise _ => true
  | Ret _ => false
  end.

(** The config the loop starts from. *)
Definition initial_config {W} (env : Env W) : GenerateContentConfig :=
  mkConfig 300 (initial_temperature env) (top_p_literal env).

(** The warning logged once the loop has run out of attempts. *)
Definition exhaustion_warning : LogRecord :=
  mkLog WARNING "Max validation attempts reached. Using fallback." false.

(** The log record of the fallback substitution in pass [attempt]. *)
Definition fallback_warning (attempt : nat) : LogRecord :=
  mkLog WARNING
    ("Invalid LLM response on attempt " ++ PyStr.str_nat attempt
     ++ ". Using fallback.") false.

(** The log record of the outer handler in pass [attempt]. *)
Definition failure_record (attempt : nat) (e : Exn) : LogRecord :=
  mkLog ERROR
    ("LLM call failed on attempt " ++ PyStr.str_nat attempt ++ ": " ++ exn_str e)
    false.

(** The warning logged when strict decoding fails. *)
Definition salvage_warning (e : Exn) : LogRecord :=
  mkLog WARNING
    ("JSON parsing failed: " ++ exn_str e ++ ". Attempting to extract valid JSON.")
    false.

(** The text of a JSON object, possibly with whitespace around it: once
    stripped it starts with an opening brace. *)
Definition is_object_text (j : string) : Prop :=
  exists rest, PyStr.strip j = String "{" rest.

Section Notions.

Variable W : Type.
Variable env : Env W.

(** A computation that makes no API call. *)
Definition keeps_calls {A} (m : M W A) : Prop :=
  forall st, api_calls (snd (m st)) = api_calls st.

Definition with_log (st : St W) (r : LogRecord) : St W :=
  mkSt (world st) (client st) (log st ++ [r]) (api_calls st) (produced st).

(** The state in which the loop is entered: the client is bound (and the
    binding logged if it was not bound before), and the context store has
    moved the world to [w]. *)
Definition entry_state (st : St W) (w : W) : St W :=
  match client st with
  | None =>
      mkSt w (Some (API_KEY env))
        (log st ++ [mkLog INFO "Google GenAI client configured." false])
        (api_calls st) (produced st)
  | Some c => mkSt w (Some c) (log st) (api_calls st) (produced st)
  end.

(** [rejected_run prompt analysis attempts cfg st cfg' st']: run from [cfg]
    and [st], each of the listed passes ends without a [return] and
    without leaving the loop by an exception, and the last one leaves
    [cfg'] and [st']. *)
Inductive rejected_run (prompt : string) (analysis : EmotionAnalysisResult)
  : list nat -> GenerateContentConfig -> St W ->
    GenerateContentConfig -> St W -> Prop :=
| rejected_nil cfg st :
    rejected_run prompt analysis [] cfg st cfg st
| rejected_cons attempt rest cfg st cfg1 st1 cfg2 st2 :
    attempt_once env prompt analysis attempt cfg st = (Ret (Continue cfg1), st1) ->
    rejected_run prompt analysis rest cfg1 st1 cfg2 st2 ->
    rejected_run prompt analysis (attempt :: rest) cfg st cfg2 st2.

(** The stage of a pass that turns the text of the generation API into a
    value: [strip], the fence test, the decoder with its salvage pass. *)
Definition parse_stage (text : string) : M W json :=
  load_reply env (strip_fences (PyStr.strip text)).

End Notions.

Arguments keeps_calls W {A} m.
Arguments with_log {W} st r.
Arguments entry_state {W} env st w.
Arguments parse_stage {W} env text _.

(* ================================================================= *)
(** ** Sample worlds *)

(** A world whose API returns the reply "hi" and whose classifier calls
    every text happy. *)
Definition happy_world : Env nat :=
  scripted (fun _ => Ret (Some (reply_text "hi"))) (always_feels "happy") [].

(** A world whose classifier is down. *)
Definition classifier_down : Env nat :=
  scripted (fun _ => Ret (Some (reply_text "hi")))
    (fun _ => Raise (mkExn (OtherException "RuntimeError") "model not loaded"))
    [].

(** A run that exhausts the loop: the API answers "hi" three times, each
    reply is classified happy, and the user is sad. *)
Definition exhausted_run : Outcome json * St nat :=
  refine_and_respond_body happy_world "I failed my exam and feel awful"
    sad_user "default" initial_state.

(** A run in which the second pass is the first to pass validation: the
    classifier calls the first reply angry and the second one sad. *)
Definition second_reply_fits : Env nat :=
  scripted
    (fun n => Ret (Some (reply_text (if (n =? 0)%nat then "no" else "I hear you"))))
    (fun v => Ret (Some (mkAnalysis (if is_str "no" v then "angry" else "sad") 2 [])))
    ["earlier message"].

(** A world in which the API answers with an object that has no
    [response] field, and the user is neutral. *)
Definition no_response_world : Env nat :=
  scripted (fun _ => Ret (Some ("{" ++ quoted "mood" ++ ":" ++ quoted "fine" ++ "}")))
    (always_feels "happy") [].

(** A world in which the API answers in prose, without any brace. *)
Definition prose_world : Env nat :=
  scripted (fun _ => Ret (Some "I am sorry, I cannot answer."))
    (always_feels "happy") [].

(** A world in which the generation API is down. *)
Definition api_down : Env nat :=
  scripted (fun _ => Raise (mkExn (OtherException "ServerError")
                              "503 Service Unavailable"))
    (always_feels "happy") [].

Definition api_down_run : Outcome json * St nat :=
  generate_emotional_response api_down "I failed my exam and feel awful"
    sad_user "sample-model" "default" initial_state.

(** A world in which the API answers with a braced text that is not
    JSON. *)
Definition braces_world : Env nat :=
  scripted (fun _ => Ret (Some "{oops}")) (always_feels "happy") [].

(** A browser whose backend answers every request with a complete reply. *)
Definition sample_browser : ChatInterface.Browser :=
  ChatInterface.mkBrowser None
    (fun _ =>
       ChatInterface.Responded true 200
         (ChatInterface.Body
            (JDict [("ai_response", JStr "I hear you.");
                    ("user_emotion_analysis",
                     JDict [("distribution",
                             JDict [("root", JDict [("sad", JInt 1)])])]);
                    ("response_id", JStr "r-1")])))
    (fun n => (1000 + Z.of_nat n)%Z)
    (fun _ => "[object Object]")
    (fun k => "Cannot read properties of null (reading '" ++ k ++ "')").


(* ================================================================= *)
(** ** [ChatInterface]: the other components of the file *)

Module ChatView.

Import ChatInterface.

(** The [KeyboardEvent] fields the key handler reads. *)
Record KeyboardEvent : Type := mkKey { key : string; shiftKey : bool }.

(** [handleKeyDown(event)]:
<<
    if (event.key === 'Enter' && !event.shiftKey) {
      event.preventDefault();
      handleSubmit();
    }
>>
    [handleSubmit] is called without an event; [default_prevented] of the
    run is about the keyboard event. *)
Definition handleKeyDown (b : Browser) (event : KeyboardEvent) (st : State)
           (clk : nat) : Run :=
  if (key event =? "Enter") && negb (shiftKey event) then
    let r := handleSubmit b false st clk in
    mkRun (state r) (sent r) (console r) true (focused r) (clock r)
  else mkRun st [] [] false false clk.

(** The [disabled] attribute of the send button:
    [isLoading || !inputValue.trim()]. *)
Definition send_disabled (st : State) : bool :=
  isLoading st || (trim (inputValue st) =? "").

(** The error line under the message list, rendered under
    [error && !isLoading]. *)
Definition error_line (st : State) : option string :=
  match error st with
  | Some e => if negb (e =? "") && negb (isLoading st) then Some e else None
  | None => None
  end.

(** [analysis?.distribution?.root]; [None] is [undefined]. *)
Definition distribution_root (analysis : option json) : option json :=
  match analysis with
  | None | Some JNull => None
  | Some a =>
      match prop a "distribution" with
      | None | Some JNull => None
      | Some d => prop d "root"
      end
  end.

(** One [span] of the emotion list. *)
Record Badge : Type :=
  mkBadge {
    badge_key : string;
    className : string;
    title : string;
    content : string
  }.

(** What [EmotionDisplay] gives: [null] after a [console.warn], the
    badges, or the exception that building a badge throws. *)
Inductive Rendered : Type :=
| Nothing (warned : string)
| Badges (spans : list Badge)
| Throws.

(** The object literal [colorMap] of [EmotionDisplay]. *)
Definition colorMap : list (string * string) :=
  [("happy", "bg-amber-500/10 text-amber-500 border-amber-500/20");
   ("sad", "bg-cyan-500/10 text-cyan-500 border-cyan-500/20");
   ("angry", "bg-rose-500/10 text-rose-500 border-rose-500/20");
   ("fearful", "bg-violet-500/10 text-violet-500 border-violet-500/20");
   ("surprised", "bg-fuchsia-500/10 text-fuchsia-500 border-fuchsia-500/20");
   ("disgusted", "bg-lime-600/10 text-lime-600 border-lime-600/20");
   ("neutral", "bg-gray-400/10 text-gray-500 border-gray-400/20");
   ("love", "bg-pink-500/10 text-pink-500 border-pink-500/20");
   ("optimism", "bg-emerald-500/10 text-emerald-500 border-emerald-500/20");
   ("pessimism", "bg-indigo-500/10 text-indigo-500 border-indigo-500/20");
   ("sarcastic", "bg-yellow-600/10 text-yellow-600 border-yellow-600/20")].

Fixpoint own_class (label : string) (m : list (string * string))
  : option string :=
  match m with
  | [] => None
  | (k, c) :: rest => if k =? label then Some c else own_class label rest
  end.

(** The own property [label] of [colorMap]. *)
Definition lookup_class (label : string) : option string :=
  own_class label colorMap.

(** [colorMap['neutral']] *)
Definition neutral_class : string :=
  "bg-gray-400/10 text-gray-500 border-gray-400/20".

(** What the component takes from the JavaScript engine.
    - [to_number] is ECMAScript [ToNumber] on a value that is not a number.
    - [to_fixed x d] is [x.toFixed(d)].
    - [string_entries s] is [Object.entries(s)] for a string [s].
    - [object_prototype k] is the text a template literal gives for the
      property [k] of [Object.prototype], when it has one (its properties
      are functions and objects, all truthy). *)
Record Engine : Type :=
  mkEngine {
    to_number : json -> float;
    to_fixed : float -> nat -> string;
    string_entries : string -> list (string * json);
    object_prototype : string -> option string
  }.

Definition is_number (v : json) : bool :=
  match v with
  | JInt _ | JFloat _ => true
  | _ => false
  end.

Section Display.

Variable eng : Engine.

(** The value of a score as a number; a [JInt] stands for the binary64
    number nearest to it. *)
Definition number_of (v : json) : float :=
  match v with
  | JInt z => JsonText.decimal_to_float (z <? 0)%Z (Z.abs z) 0
  | JFloat f => f
  | _ => to_number eng v
  end.

Fixpoint indexed (i : nat) (xs : list json) : list (string * json) :=
  match xs with
  | [] => []
  | x :: rest => (PyStr.str_nat i, x) :: indexed (S i) rest
  end.

(** [Object.entries(v)] on a parsed value.  The pairs of a dict are kept
    in the order in which the engine enumerates its properties. *)
Definition entries (v : json) : list (string * json) :=
  match v with
  | JDict kvs => kvs
  | JList xs => indexed 0 xs
  | JStr s => string_entries eng s
  | _ => []
  end.

(** The comparator [(a, b) => b.score - a.score] gives a positive number:
    [a] is to come after [b]. *)
Definition comes_after (a b : string * json) : bool :=
  PrimFloat.ltb 0 (PrimFloat.sub (number_of (snd b)) (number_of (snd a))).

Fixpoint insert (a : string * json) (l : list (string * json))
  : list (string * json) :=
  match l with
  | [] => [a]
  | b :: rest => if comes_after a b then b :: insert a rest else a :: l
  end.

(** [Array.prototype.sort] with that comparator.  The sort is stable, so
    its result is fixed whenever the comparator is consistent (as it is on
    finite scores): the entries by descending score, equal scores in their
    original order.  An insertion sort from the right gives that result;
    for an inconsistent comparator the engine may order differently. *)
Definition sort (l : list (string * json)) : list (string * json) :=
  fold_right insert [] l.

(** [colorMap[label] || colorMap['neutral']], as the template literal of
    [className] renders it. *)
Definition badgeClass (label : string) : string :=
  match lookup_class label with
  | Some c => c
  | None =>
      match object_prototype eng label with
      | Some inherited => inherited
      | None => neutral_class
      end
  end.

(** One badge:
<<
    <span key={label}
          className={`px-2 ... border ${badgeClass} font-normal ...`}
          title={`Score: ${score.toFixed(4)}`}>
      {label}: {(score * 100).toFixed(1)}%
    </span>
>>
    [score.toFixed] exists on numbers only: on any other score the call
    throws a [TypeError]. *)
Definition badge (e : string * json) : option Badge :=
  let '(label, score) := e in
  match score with
  | JInt _ | JFloat _ =>
      let x := number_of score in
      Some (mkBadge label
              ("px-2 py-0.5 rounded-full text-xs border " ++ badgeClass label
               ++ " font-normal tracking-wide opacity-90 whitespace-nowrap backdrop-blur-sm")
              ("Score: " ++ to_fixed eng x 4)
              (label ++ ": " ++ to_fixed eng (PrimFloat.mul x 100) 1 ++ "%"))
  | _ => None
  end.

(** [sortedEmotions.map(...)]: the badges, unless one of them throws. *)
Fixpoint badges (l : list (string * json)) : option (list Badge) :=
  match l with
  | [] => Some []
  | e :: rest =>
      match badge e with
      | Some x =>
          match badges rest with
          | Some xs => Some (x :: xs)
          | None => None
          end
      | None => None
      end
  end.

(** [EmotionDisplay({ analysis })] *)
Definition EmotionDisplay (analysis : option json) : Rendered :=
  match distribution_root analysis with
  | Some root =>
      if js_truthy root then
        let sortedEmotions := sort (entries root) in
        match sortedEmotions with
        | [] =>
            Nothing "EmotionDisplay: Distribution provided but resulted in zero sorted emotions."
        | _ =>
            match badges sortedEmotions with
            | Some spans => Badges spans
            | None => Throws
            end
        end
      else Nothing "EmotionDisplay: No analysis or distribution root found."
  | None => Nothing "EmotionDisplay: No analysis or distribution root found."
  end.

End Display.

(** The message list renders the component under
    [msg.sender === 'ai' && msg.emotionAnalysis]. *)
Definition shows_emotions (msg : Message) : bool :=
  match sender msg with
  | ai => truthy_opt (emotionAnalysis msg)
  | _ => false
  end.

End ChatView.

(* ================================================================= *)
(** ** The home page: class names *)

Module HomePage.

(** [cn(...classes)]: [classes.filter(Boolean).join(' ')].  An argument
    is a string, or one of [undefined], [null] and [false], all three
    read as [None]; [kept] is what [filter(Boolean)] keeps. *)
Definition kept (classes : list (option string)) : list string :=
  flat_map (fun c => match c with
                     | Some s => if s =? "" then [] else [s]
                     | None => []
                     end) classes.

Definition cn (classes : list (option string)) : string :=
  String.concat " " (kept classes).

End HomePage.

(* ================================================================= *)
(** ** Further notions used in the statements *)

(** A reply the caller can read its text from: a dict with the key
    "response". *)
Definition has_response (v : json) : Prop :=
  exists kvs x, v = JDict kvs /\ lookup "response" kvs = Some x.

(** [c not in s], for a character [c]. *)
Fixpoint lacks (c : ascii) (s : string) : bool :=
  match s with
  | EmptyString => true
  | String d s' => negb (Ascii.eqb d c) && lacks c s'
  end.

(** The error record of the validator when the classifier gives [None]. *)
Definition no_analysis_record : LogRecord :=
  mkLog ERROR
    "Response validation failed: 'NoneType' object has no attribute 'primary_emotion'"
    false.

(** The error record of [generate_emotional_response]. *)
Definition generation_failure (e : Exn) : LogRecord :=
  mkLog ERROR ("Failed to generate emotional response: " ++ exn_str e) true.

Section RunNotions.

Variable W : Type.
Variable env : Env W.

(** A computation that leaves the module global [client] as it is. *)
Definition keeps_client {A} (m : M W A) : Prop :=
  forall st, client (snd (m st)) = client st.

(** What the configs of a run have in common, and the range of their
    temperature: the initial one, or at most the cap. *)
Definition cfg_in_bounds (cfg : GenerateContentConfig) : Prop :=
  max_output_tokens cfg = 300%Z
  /\ top_p cfg = top_p_literal env
  /\ (temperature cfg = initial_temperature env
      \/ PrimFloat.leb (temperature cfg) (top_p_literal env) = true).

(** A request of a run on [prompt]. *)
Definition request_in_bounds (prompt : string) (req : GenerateRequest) : Prop :=
  model req = MODEL_NAME env
  /\ contents req = [prompt]
  /\ cfg_in_bounds (config req).

End RunNotions.

Arguments keeps_client W {A} m.

(** The value of a finite binary float, in units of [2 ^ emin]. *)
Definition spec_units (prec emax : Z) (x : spec_float) : Z :=
  match x with
  | S754_finite s m e =>
      cond_Zopp s (Zpos m * 2 ^ (e - SpecFloat.emin prec emax))%Z
  | _ => 0%Z
  end.

(** A zero or a finite number: neither NaN nor an infinity. *)
Definition spec_finite (x : spec_float) : bool :=
  match x with
  | S754_finite _ _ _ | S754_zero _ => true
  | _ => false
  end.

(** The value of a finite binary64 number, in units of [2 ^ -1074]. *)
Definition units_of (x : float) : Z := spec_units prec emax (Prim2SF x).

(** An entry whose score is a finite number. *)
Definition finite_score (eng : ChatView.Engine) (e : string * json) : bool :=
  ChatView.is_number (snd e) && PrimFloat.is_finite (ChatView.number_of eng (snd e)).

(** [a] may stand before [b] in a list by descending score. *)
Definition descending (eng : ChatView.Engine) (a b : string * json) : Prop :=
  PrimFloat.leb (ChatView.number_of eng (snd b)) (ChatView.number_of eng (snd a))
  = true.

(** The entries whose score equals [x]. *)
Definition scored (eng : ChatView.Engine) (x : float) (l : list (string * json))
  : list (string * json) :=
  filter (fun e => PrimFloat.eqb (ChatView.number_of eng (snd e)) x) l.

(** The request [handleSubmit] issues for the trimmed input [text]. *)
Definition chat_request (b : ChatInterface.Browser) (text : string)
  : ChatInterface.Request :=
  ChatInterface.mkHttp (ChatInterface.API_URL b ++ "/chat") "POST"
    [("Content-Type", "application/json"); ("Accept", "application/json")]
    (JDict [("message", JStr text)]).

(** The message [handleSubmit] appends for the user, at clock [clk]. *)
Definition user_bubble (b : ChatInterface.Browser) (text : string) (clk : nat)
  : ChatInterface.Message :=
  ChatInterface.mkMessage
    (JStr ("user-" ++ ChatInterface.str_Z (ChatInterface.now b clk)))
    ChatInterface.user (JStr text) (ChatInterface.now b (S clk)) None.

Definition incomplete_data : string :=
  "Received incomplete or malformed data structure from backend.".

Definition connection_failed : string := "Failed to connect to the AI service.".

Definition no_distribution_warning : string :=
  "EmotionDisplay: No analysis or distribution root found.".

Definition zero_emotions_warning : string :=
  "EmotionDisplay: Distribution provided but resulted in zero sorted emotions.".

(* ================================================================= *)
(** ** Further sample worlds *)

(** A world whose classifier gives no analysis. *)
Definition no_analysis_world : Env nat :=
  scripted (fun _ => Ret (Some (reply_text "hi"))) (fun _ => Ret None) [].

(** A world in which the API answers with a bare number. *)
Definition number_world : Env nat :=
  scripted (fun _ => Ret (Some "5")) (always_feels "happy") [].

(** A stored conversation of six messages. *)
Definition six_messages : list string := ["m1"; "m2"; "m3"; "m4"; "m5"; "m6"].

Definition browser_answering (r : ChatInterface.FetchResult)
  : ChatInterface.Browser :=
  ChatInterface.mkBrowser (Some "https://aura.example")
    (fun _ => r)
    (fun n => (1000 + Z.of_nat n)%Z)
    (fun _ => "[object Object]")
    (fun k => "Cannot read properties of null (reading '" ++ k ++ "')").

(** A backend that answers 422 with a [detail] text. *)
Definition rejecting_browser : ChatInterface.Browser :=
  browser_answering
    (ChatInterface.Responded false 422
       (ChatInterface.Body (JDict [("detail", JStr "Message too long")]))).

(** A backend that cannot be reached. *)
Definition offline_browser : ChatInterface.Browser :=
  browser_answering (ChatInterface.Rejected "Failed to fetch").

(** A backend whose reply has no emotion analysis. *)
Definition partial_browser : ChatInterface.Browser :=
  browser_answering
    (ChatInterface.Responded true 200
       (ChatInterface.Body (JDict [("ai_response", JStr "I hear you.")]))).

Definition typing (text : string) : ChatInterface.State :=
  ChatInterface.mkState [] text false None.

(** An engine that renders the few numbers the examples use. *)
Definition sample_engine : ChatView.Engine :=
  ChatView.mkEngine
    (fun _ => PrimFloat.nan)
    (fun x d =>
       if PrimFloat.eqb x 0.75 then "0.7500"
       else if PrimFloat.eqb x 0.25 then "0.2500"
       else if PrimFloat.eqb x 75 then "75.0"
       else if PrimFloat.eqb x 25 then "25.0"
       else "0.0")
    (fun _ => [])
    (fun k => if k =? "constructor" then Some "function Object() { [native code] }"
              else None).

(** An analysis whose distribution has the given root. *)
Definition analysis_with (root : json) : option json :=
  Some (JDict [("distribution", JDict [("root", root)])]).


(* ================================================================= *)
(** * Properties *)

(* ================================================================= *)
(** ** Strings *)

Lemma app_assoc_s (a b c : string) : (a ++ b) ++ c = a ++ (b ++ c).
Proof.
  induction a as [|x a IH]; simpl; [reflexivity | now rewrite IH].
Qed.

Lemma app_empty_r (a : string) : a ++ "" = a.
Proof.
  induction a as [|x a IH]; simpl; [reflexivity | now rewrite IH].
Qed.

Lemma string_length_app (a b : string) :
  String.length (a ++ b) = String.length a + String.length b.
Proof.
  induction a as [|x a IH]; simpl; [reflexivity | now rewrite IH].
Qed.

Lemma occurs_in_middle (pre sub post : string) : occurs_in sub (pre ++ sub ++ post).
Proof. now exists pre, post. Qed.

Lemma occurs_in_app_l (sub s t : string) : occurs_in sub s -> occurs_in sub (s ++ t).
Proof.
  intros (pre & post & ->). exists pre, (post ++ t).
  now rewrite !app_assoc_s.
Qed.

Lemma occurs_in_app_r (sub s t : string) : occurs_in sub t -> occurs_in sub (s ++ t).
Proof.
  intros (pre & post & ->). exists (s ++ pre), post.
  now rewrite !app_assoc_s.
Qed.

(* ================================================================= *)
(** ** The prompt builder *)

Section PromptBuilder.

Variable W : Type.
Variable env : Env W.

(** C5.  [create_dynamic_prompt] takes the analysis, the message and the
    context and returns a string: it reads and writes no state.  For every
    input the prompt contains the message text verbatim, and for the empty
    context it contains the sentence "No prior conversation.". *)
Theorem prompt_contains_message_and_sentinel
        (emotions : EmotionAnalysisResult) (user_text : string)
        (context : list string) :
  occurs_in user_text (create_dynamic_prompt env emotions user_text context)
  /\ occurs_in "No prior conversation."
       (create_dynamic_prompt env emotions user_text []).
Proof.
  unfold create_dynamic_prompt; split.
  - repeat (first [ apply occurs_in_middle | apply occurs_in_app_r ]).
  - change no_prior_conversation with ("No prior conversation." ++ "").
    repeat (first [ apply occurs_in_middle | apply occurs_in_app_r ]).
Qed.

End PromptBuilder.

(* ================================================================= *)
(** ** The response validator *)

(** Steps of the effect monad, for unfolding a computation on a state. *)
Ltac unfold_monad :=
  unfold bind, ret, raise, eval, call, try_except, logger_debug, logger_info,
    logger_warning, logger_error, emit in *.

Lemma existsb_eqb_In (p : string) (l : list string) :
  existsb (String.eqb p) l = true <-> In p l.
Proof.
  rewrite existsb_exists; split.
  - intros (x & Hin & Heq). apply String.eqb_eq in Heq. now subst.
  - intros Hin. exists p. split; [assumption | apply String.eqb_refl].
Qed.

Section Validator.

Variable W : Type.
Variable env : Env W.

(** The validator computes the policy whenever the classifier answers. *)
Lemma validate_response_computes_policy
      (response : json) (expected : string) (a : EmotionAnalysisResult)
      (w' : W) (st : St W) :
  analyze_emotions env response (world st) = (Ret (Some a), w') ->
  exists record,
    validate_response env response expected st
    = (Ret (alignment_policy expected (primary_emotion a)),
       mkSt w' (client st) (log st ++ [record]) (api_calls st) (produced st)).
Proof.
  intros Hcls. unfold validate_response, alignment_policy. unfold_monad.
  rewrite Hcls. cbv beta iota delta [attr_primary_emotion].
  destruct (expected =? "neutral") eqn:Hn; cbv beta iota.
  - destruct (existsb (String.eqb (primary_emotion a)) permissive_emotions)
      eqn:Hp; cbv beta iota.
    + eexists; reflexivity.
    + destruct (primary_emotion a =? expected); eexists; reflexivity.
  - destruct (primary_emotion a =? expected); eexists; reflexivity.
Qed.

(** The validator never raises. *)
Lemma validate_response_returns
      (response : json) (expected : string) (st : St W) :
  exists b st', validate_response env response expected st = (Ret b, st').
Proof.
  unfold validate_response. unfold_monad.
  destruct (analyze_emotions env response (world st)) as [[[a|]|e] w'] eqn:Hcls;
    cbv beta iota delta [attr_primary_emotion].
  - destruct (expected =? "neutral"); cbv beta iota.
    + destruct (existsb _ permissive_emotions); cbv beta iota;
        [| destruct (primary_emotion a =? expected) ];
        do 2 eexists; reflexivity.
    + destruct (primary_emotion a =? expected); do 2 eexists; reflexivity.
  - destruct (expected =? "neutral"); do 2 eexists; reflexivity.
  - do 2 eexists; reflexivity.
Qed.

(** C3.  When re-classification of the reply gives the primary emotion
    [p]: an expected emotion "neutral" with [p] among neutral, happy,
    surprised, curious passes; [p] equal to the expected emotion passes;
    every other pair fails. *)
Theorem validate_response_policy
        (response : json) (expected : string) (a : EmotionAnalysisResult)
        (w' : W) (st : St W)
        (Hcls : analyze_emotions env response (world st) = (Ret (Some a), w')) :
  let p := primary_emotion a in
  let verdict := fst (validate_response env response expected st) in
  (expected = "neutral" -> In p permissive_emotions -> verdict = Ret true)
  /\ (p = expected -> verdict = Ret true)
  /\ (~ (expected = "neutral" /\ In p permissive_emotions) ->
      p <> expected -> verdict = Ret false).
Proof.
  intros p verdict.
  destruct (validate_response_computes_policy response expected st Hcls)
    as (record & Hrun).
  subst verdict. rewrite Hrun. cbn [fst]. fold p.
  unfold alignment_policy. repeat split.
  - intros -> Hin. apply existsb_eqb_In in Hin. now rewrite Hin.
  - intros ->. rewrite String.eqb_refl. now rewrite orb_true_r.
  - intros Hnot Hne. apply String.eqb_neq in Hne. rewrite Hne, orb_false_r.
    destruct (expected =? "neutral") eqn:Hn; [| reflexivity].
    destruct (existsb (String.eqb p) permissive_emotions) eqn:Hp; [| reflexivity].
    exfalso. apply Hnot. split.
    + now apply String.eqb_eq.
    + now apply existsb_eqb_In.
Qed.

(** The handler of the validator: the error is logged and the verdict is
    [True]. *)
Lemma validate_response_handler
      (response : json) (expected : string) (e : Exn) (w' : W) (st : St W) :
  analyze_emotions env response (world st) = (Raise e, w') ->
  validate_response env response expected st
  = (Ret true,
     mkSt w' (client st)
       (log st ++ [mkLog ERROR ("Response validation failed: " ++ exn_str e) false])
       (api_calls st) (produced st)).
Proof.
  intros Hcls. unfold validate_response. unfold_monad. now rewrite Hcls.
Qed.

(** C9, as the code has it.  When re-classification of the reply raises,
    the validator logs the error and returns [True]: the reply is accepted,
    the caller's loop does not retry, and no exception reaches the
    caller. *)
Theorem validate_response_on_classifier_error
        (response : json) (expected : string) (e : Exn) (w' : W) (st : St W)
        (Hcls : analyze_emotions env response (world st) = (Raise e, w')) :
  validate_response env response expected st
  = (Ret true,
     mkSt w' (client st)
       (log st ++ [mkLog ERROR ("Response validation failed: " ++ exn_str e) false])
       (api_calls st) (produced st)).
Proof.
  unfold validate_response, try_except, bind at 1, call.
  rewrite Hcls. unfold_monad. reflexivity.
Qed.

End Validator.

(** The two cases the specification names: expected "neutral" against a
    happy reply passes, expected "angry" against a happy reply fails. *)
Lemma validate_response_policy_witness :
  fst (validate_response happy_world (JStr "hi") "neutral" initial_state) = Ret true
  /\ fst (validate_response happy_world (JStr "hi") "angry" initial_state) = Ret false.
Proof.
  split.
  - pose proof (@validate_response_policy nat happy_world (JStr "hi") "neutral"
                  (mkAnalysis "happy" 2 []) 0 initial_state eq_refl) as H.
    cbv zeta in H. destruct H as (H & _ & _).
    apply H; [reflexivity | simpl; auto].
  - pose proof (@validate_response_policy nat happy_world (JStr "hi") "angry"
                  (mkAnalysis "happy" 2 []) 0 initial_state eq_refl) as H.
    cbv zeta in H. destruct H as (_ & _ & H).
    apply H.
    + intros [Habs _]; discriminate Habs.
    + simpl; discriminate.
Defined.

Lemma validate_response_on_classifier_error_witness :
  validate_response classifier_down (JStr "hi") "sad" initial_state
  = (Ret true,
     mkSt 0 None
       [mkLog ERROR "Response validation failed: model not loaded" false] [] []).
Proof.
  exact (@validate_response_on_classifier_error nat classifier_down (JStr "hi")
           "sad" (mkExn (OtherException "RuntimeError") "model not loaded") 0
           initial_state eq_refl).
Defined.

(** C9 as stated fails: with the classifier down, the validator does not
    return failure. *)
Lemma validate_response_error_is_not_failure :
  fst (validate_response classifier_down (JStr "hi") "sad" initial_state)
  <> Ret false.
Proof. vm_compute. discriminate. Qed.

(* ================================================================= *)
(** ** The retry loop of [refine_and_respond] *)

Section Frame.

Variable W : Type.
Variable env : Env W.

Lemma keeps_ret {A} (a : A) : keeps_calls W (ret a).
Proof. intro st; reflexivity. Qed.

Lemma keeps_raise {A} (e : Exn) : keeps_calls W (@raise W A e).
Proof. intro st; reflexivity. Qed.

Lemma keeps_eval {A} (o : Outcome A) : keeps_calls W (eval o).
Proof. intro st; reflexivity. Qed.

Lemma keeps_emit (r : LogRecord) : keeps_calls W (emit r).
Proof. intro st; reflexivity. Qed.

Lemma keeps_call {A} (f : W -> Outcome A * W) : keeps_calls W (call f).
Proof. intro st; unfold call. now destruct (f (world st)). Qed.

Lemma keeps_note (data : json) : keeps_calls W (note (W:=W) data).
Proof. intro st; reflexivity. Qed.

Lemma keeps_bind {A B} (m : M W A) (k : A -> M W B) :
  keeps_calls W m -> (forall a, keeps_calls W (k a)) -> keeps_calls W (bind m k).
Proof.
  intros Hm Hk st. unfold bind. specialize (Hm st).
  destruct (m st) as [[a|e] st1]; simpl in *.
  - now rewrite Hk.
  - assumption.
Qed.

Lemma keeps_try {A} (m : M W A) (h : Exn -> M W A) :
  keeps_calls W m -> (forall e, keeps_calls W (h e)) -> keeps_calls W (try_except m h).
Proof.
  intros Hm Hh st. unfold try_except. specialize (Hm st).
  destruct (m st) as [[a|e] st1]; simpl in *.
  - assumption.
  - now rewrite Hh.
Qed.

Lemma keeps_if {A} (b : bool) (m1 m2 : M W A) :
  keeps_calls W m1 -> keeps_calls W m2 -> keeps_calls W (if b then m1 else m2).
Proof. now destruct b. Qed.

Create HintDb frame.
#[local] Hint Resolve keeps_ret keeps_raise keeps_eval keeps_emit keeps_call
  keeps_note keeps_if : frame.
#[local] Hint Extern 1 (keeps_calls _ (logger_debug _)) => apply keeps_emit : frame.
#[local] Hint Extern 1 (keeps_calls _ (logger_info _)) => apply keeps_emit : frame.
#[local] Hint Extern 1 (keeps_calls _ (logger_warning _)) => apply keeps_emit : frame.
#[local] Hint Extern 1 (keeps_calls _ (logger_error _)) => apply keeps_emit : frame.
#[local] Hint Extern 2 (keeps_calls _ (bind _ _)) =>
  apply keeps_bind; [| intro] : frame.
#[local] Hint Extern 2 (keeps_calls _ (try_except _ _)) =>
  apply keeps_try; [| intro] : frame.
#[local] Hint Extern 3 (keeps_calls _ (match ?x with _ => _ end)) =>
  destruct x : frame.

Lemma keeps_validate_response (response : json) (expected : string) :
  keeps_calls W (validate_response env response expected).
Proof. unfold validate_response. auto 12 with frame. Qed.

Lemma keeps_load_reply (raw : string) : keeps_calls W (load_reply env raw).
Proof. unfold load_reply. auto 8 with frame. Qed.

Lemma keeps_use_fallback (attempt : nat) : keeps_calls W (use_fallback (W:=W) attempt).
Proof. unfold use_fallback. auto with frame. Qed.

Lemma keeps_check_reply (attempt : nat) (data : json) :
  keeps_calls W (check_reply (W:=W) attempt data).
Proof.
  unfold check_reply. pose proof keeps_use_fallback. auto 8 with frame.
Qed.

Lemma keeps_settle_reply (analysis : EmotionAnalysisResult) (attempt : nat)
      (cfg : GenerateContentConfig) (data : json) :
  keeps_calls W (settle_reply env analysis attempt cfg data).
Proof.
  unfold settle_reply.
  pose proof keeps_check_reply. pose proof keeps_validate_response.
  auto 12 with frame.
Qed.

(** Every pass of the loop makes exactly one call on the API, with the
    prompt and the config of that pass. *)
Lemma attempt_once_one_call (prompt : string) (analysis : EmotionAnalysisResult)
      (attempt : nat) (cfg : GenerateContentConfig) (st : St W) :
  api_calls (snd (attempt_once env prompt analysis attempt cfg st))
  = (api_calls st ++ [mkRequest (MODEL_NAME env) [prompt] cfg])%list.
Proof.
  unfold attempt_once, attempt_body, fetch_reply.
  set (handler := fun e : Exn => _).
  assert (Hh : forall e, keeps_calls W (handler e))
    by (intro e; subst handler; cbv beta; auto 8 with frame).
  unfold try_except, bind at 1 2.
  unfold call_generate_content.
  destruct (generate_content env _ (world st)) as [[text|e] w1]; cbv beta iota.
  - match goal with
    | |- context [bind ?m ?k ?s] =>
        assert (Hk : keeps_calls W (bind m k))
    end.
    { pose proof keeps_load_reply. auto 8 with frame. }
    specialize (Hk (mkSt w1 (client st) (log st)
                      (api_calls st ++ [mkRequest (MODEL_NAME env) [prompt] cfg])
                      (produced st))).
    cbn [api_calls] in Hk.
    match type of Hk with
    | api_calls (snd ?run) = _ => destruct run as [[data|e] st1] eqn:Hrun
    end; cbn [snd] in Hk.
    + pose proof (keeps_settle_reply analysis attempt cfg data st1) as Hs.
      destruct (settle_reply env analysis attempt cfg data st1) as [[step|e] st2];
        cbn [snd] in *.
      * congruence.
      * rewrite Hh. congruence.
    + rewrite Hh. assumption.
  - rewrite Hh. reflexivity.
Qed.

End Frame.

Section Loop.

Variable W : Type.
Variable env : Env W.

Lemma loop_after_rejected prompt analysis pre rest cfg st cfg' st' :
  rejected_run env prompt analysis pre cfg st cfg' st' ->
  attempts_loop env prompt analysis (pre ++ rest) cfg st
  = attempts_loop env prompt analysis rest cfg' st'.
Proof.
  induction 1 as [|attempt pre cfg st cfg1 st1 cfg2 st2 Hstep _ IH].
  - reflexivity.
  - cbn [app attempts_loop]. unfold bind at 1. rewrite Hstep. exact IH.
Qed.

Lemma rejected_run_calls prompt analysis pre cfg st cfg' st' :
  rejected_run env prompt analysis pre cfg st cfg' st' ->
  List.length (api_calls st') = List.length (api_calls st) + List.length pre.
Proof.
  induction 1 as [|attempt pre cfg st cfg1 st1 cfg2 st2 Hstep _ IH].
  - simpl; lia.
  - pose proof (attempt_once_one_call env prompt analysis attempt cfg st) as Hc.
    rewrite Hstep in Hc; cbn [snd] in Hc.
    rewrite IH, Hc, length_app. simpl; lia.
Qed.

Lemma loop_empty prompt analysis cfg st :
  attempts_loop env prompt analysis [] cfg st
  = (Ret fallback_reply, with_log st exhaustion_warning).
Proof. reflexivity. Qed.

(** The loop makes at most one API call per listed attempt. *)
Lemma loop_calls_bound prompt analysis attempts :
  forall cfg st,
    List.length (api_calls (snd (attempts_loop env prompt analysis attempts cfg st)))
    <= List.length (api_calls st) + List.length attempts.
Proof.
  induction attempts as [|attempt rest IH]; intros cfg st.
  - rewrite loop_empty. simpl. lia.
  - cbn [attempts_loop]. unfold bind at 1.
    pose proof (attempt_once_one_call env prompt analysis attempt cfg st) as Hc.
    destruct (attempt_once env prompt analysis attempt cfg st)
      as [[[data|cfg1]|e] st1]; cbn [snd] in Hc.
    + unfold ret; cbn [snd]. rewrite Hc, length_app. simpl; lia.
    + specialize (IH cfg1 st1). rewrite Hc, length_app in IH. simpl in *; lia.
    + cbn [snd]. rewrite Hc, length_app. simpl; lia.
Qed.

(** Before the loop: binding the client and reading the context. *)
Lemma refine_body_enters_loop text analysis user_id st context w :
  get_conversation_context env user_id (world st) = (Ret context, w) ->
  refine_and_respond_body env text analysis user_id st
  = attempts_loop env (create_dynamic_prompt env analysis text context) analysis
      (seq 1 max_attempts) (initial_config env) (entry_state env st w).
Proof.
  intros Hctx. unfold refine_and_respond_body, entry_state, ensure_client.
  unfold bind at 1. destruct (client st) as [c|] eqn:Hc.
  - unfold ret at 1. unfold bind at 1, call. rewrite Hctx. now rewrite Hc.
  - unfold configure_genai, logger_info, emit.
    unfold bind at 1, call. cbn [world]. rewrite Hctx. reflexivity.
Qed.

Lemma refine_body_context_error text analysis user_id st e w :
  get_conversation_context env user_id (world st) = (Raise e, w) ->
  refine_and_respond_body env text analysis user_id st
  = (Raise e, entry_state env st w).
Proof.
  intros Hctx. unfold refine_and_respond_body, entry_state, ensure_client.
  unfold bind at 1. destruct (client st) as [c|] eqn:Hc.
  - unfold ret at 1. unfold bind at 1, call. rewrite Hctx. now rewrite Hc.
  - unfold configure_genai, logger_info, emit.
    unfold bind at 1, call. cbn [world]. rewrite Hctx. reflexivity.
Qed.

Lemma entry_state_calls st w : api_calls (entry_state env st w) = api_calls st.
Proof. unfold entry_state. now destruct (client st). Qed.

(** C1, as the code has it.  When every pass of the loop has ended without
    an accepted reply (and the last of them without an exception), the
    generator returns the fixed fallback reply -- not the reply of the
    last pass --, logs the warning "Max validation attempts reached. Using
    fallback." and raises nothing. *)
Theorem refine_exhaustion_returns_fallback
        (text : string) (analysis : EmotionAnalysisResult) (user_id : string)
        (st : St W) (context : list string) (w : W)
        (cfg' : GenerateContentConfig) (st' : St W)
        (Hctx : get_conversation_context env user_id (world st) = (Ret context, w))
        (Hrun : rejected_run env (create_dynamic_prompt env analysis text context)
                  analysis (seq 1 max_attempts) (initial_config env)
                  (entry_state env st w) cfg' st') :
  refine_and_respond_body env text analysis user_id st
  = (Ret fallback_reply, with_log st' exhaustion_warning)
  /\ getitem fallback_reply "response" = Ret (JStr charlotte_greeting).
Proof.
  split; [| reflexivity].
  erewrite refine_body_enters_loop by exact Hctx.
  rewrite <- (app_nil_r (seq 1 max_attempts)).
  erewrite loop_after_rejected by exact Hrun.
  apply loop_empty.
Qed.


End Loop.

(** C1 as stated fails: the run above returns the fixed fallback reply,
    while the reply produced by its last pass is the object with
    [response] "hi". *)
Lemma refine_does_not_return_last_reply :
  last (produced (snd exhausted_run)) JNull = JDict [("response", JStr "hi")]
  /\ fst exhausted_run = Ret fallback_reply
  /\ fst exhausted_run <> Ret (JDict [("response", JStr "hi")]).
Proof.
  vm_compute. repeat split. discriminate.
Qed.

Lemma refine_exhaustion_returns_fallback_witness :
  exists st', exhausted_run = (Ret fallback_reply, st').
Proof.
  eexists. unfold exhausted_run.
  eapply proj1.
  eapply (@refine_exhaustion_returns_fallback nat happy_world
            "I failed my exam and feel awful" sad_user "default"
            initial_state [] 0).
  - reflexivity.
  - repeat (eapply rejected_cons; [lazy; reflexivity |]).
    apply rejected_nil.
Defined.


(* ================================================================= *)
(** ** Malformed replies and API failures *)

Section Failures.

Variable W : Type.
Variable env : Env W.

(** A run of the validator: a verdict, one log record, nothing else but
    the outside world touched. *)
Lemma validate_response_run (response : json) (expected : string) (st : St W) :
  exists b w' record,
    validate_response env response expected st
    = (Ret b, mkSt w' (client st) (log st ++ [record]) (api_calls st) (produced st)).
Proof.
  destruct (analyze_emotions env response (world st)) as [[[a|]|e] w'] eqn:Hcls.
  - destruct (validate_response_computes_policy env response expected st Hcls)
      as (record & Hrun).
    now exists (alignment_policy expected (primary_emotion a)), w', record.
  - exists true, w'. unfold validate_response. unfold_monad. rewrite Hcls.
    cbv beta iota delta [attr_primary_emotion].
    destruct (expected =? "neutral"); eexists; reflexivity.
  - exists true, w'. eexists.
    apply (validate_response_handler env response expected st Hcls).
Qed.

(** A dict without the key "response" is replaced by the fallback reply. *)
Lemma check_reply_missing_response (attempt : nat) (kvs : list (string * json))
      (st : St W) :
  lookup "response" kvs = None ->
  check_reply attempt (JDict kvs) st
  = (Ret fallback_reply, with_log st (fallback_warning attempt)).
Proof.
  intros Hlack. unfold check_reply, use_fallback. unfold_monad.
  destruct kvs as [|kv kvs']; [reflexivity |].
  cbn [truthy negb py_in]. now rewrite Hlack.
Qed.

(** C8.  When the value parsed in a pass is an object without the field
    [response] (the empty object included), the pass goes on with the fixed
    fallback reply -- response text the Charlotte greeting, appraisal
    "Challenge", regulation empty --, logs the substitution, and ends
    without an exception: it returns the fallback reply or moves on to the
    next attempt. *)
Theorem missing_response_uses_fallback
        (prompt : string) (analysis : EmotionAnalysisResult) (attempt : nat)
        (cfg : GenerateContentConfig) (kvs : list (string * json))
        (st st1 : St W)
        (Hfetch : fetch_reply env prompt attempt cfg st = (Ret (JDict kvs), st1))
        (Hlack : lookup "response" kvs = None) :
  exists step st2,
    attempt_once env prompt analysis attempt cfg st = (Ret step, st2)
    /\ (step = Return fallback_reply \/ exists cfg', step = Continue cfg')
    /\ produced st2 = (produced st1 ++ [fallback_reply])%list
    /\ In (fallback_warning attempt) (log st2)
    /\ getitem fallback_reply "response" = Ret (JStr charlotte_greeting)
    /\ getitem fallback_reply "appraisal" = Ret (JStr "Challenge")
    /\ getitem fallback_reply "regulation" = Ret (JList []).
Proof.
  unfold attempt_once, attempt_body, try_except, bind at 1. rewrite Hfetch.
  unfold settle_reply, bind at 1.
  rewrite (check_reply_missing_response attempt kvs st1 Hlack).
  unfold bind at 1, note. cbn [with_log world client log api_calls produced].
  assert (Hg : getitem fallback_reply "response" = Ret (JStr charlotte_greeting))
    by reflexivity.
  unfold bind at 1, eval. rewrite Hg. unfold bind at 1.
  match goal with
  | |- context [validate_response env ?r ?x ?s] =>
      destruct (validate_response_run r x s) as (b & w' & record & Hv);
      rewrite Hv
  end.
  cbn [world client log api_calls produced] in *.
  destruct b.
  - do 2 eexists. split; [reflexivity |].
    split; [now left |]. cbn [produced log]. split; [reflexivity |].
    split; [| repeat split].
    rewrite in_app_iff; left. rewrite in_app_iff; right. now left.
  - unfold_monad. do 2 eexists. split; [reflexivity |].
    split; [right; eexists; reflexivity |]. cbn [produced log].
    split; [reflexivity |]. split; [| repeat split].
    rewrite !in_app_iff. left; left; right. now left.
Qed.

(** A pass whose API call raises: the error is logged; the last pass lets
    it out, the other passes go on with the same config. *)
Lemma attempt_once_api_error (prompt : string) (analysis : EmotionAnalysisResult)
      (attempt : nat) (cfg : GenerateContentConfig) (st : St W) (e : Exn) (w : W) :
  generate_content env (mkRequest (MODEL_NAME env) [prompt] cfg) (world st)
  = (Raise e, w) ->
  attempt_once env prompt analysis attempt cfg st
  = (if (attempt =? max_attempts)%nat then Raise e else Ret (Continue cfg),
     mkSt w (client st) (log st ++ [failure_record attempt e])
       (api_calls st ++ [mkRequest (MODEL_NAME env) [prompt] cfg])
       (produced st)).
Proof.
  intros Hapi.
  unfold attempt_once, attempt_body, fetch_reply, try_except, bind at 1 2.
  unfold call_generate_content. rewrite Hapi. unfold_monad.
  cbn [world client log api_calls produced].
  now destruct (attempt =? max_attempts)%nat.
Qed.

(** [generate_emotional_response] from the outcome of [refine_and_respond]. *)
Lemma generate_emotional_response_returns
      (user_text : string) (emotions : EmotionAnalysisResult)
      (model_name user_id : string) (st : St W) :
  exists v st',
    generate_emotional_response env user_text emotions model_name user_id st
    = (Ret v, st')
    /\ forall e st1,
        refine_and_respond env user_text emotions user_id st = (Raise e, st1) ->
        v = JStr charlotte_default
        /\ st' = with_log st1
                   (mkLog ERROR
                      ("Failed to generate emotional response: " ++ exn_str e) true).
Proof.
  unfold generate_emotional_response, try_except, bind at 1.
  destruct (refine_and_respond env user_text emotions user_id st)
    as [[result|e] st1].
  - unfold eval. destruct (dict_get result "response" (JStr charlotte_default))
      as [v|e].
    + exists v, st1. split; [reflexivity | intros e st2 Habs; discriminate Habs].
    + unfold_monad. do 2 eexists.
      split; [reflexivity | intros e' st2 Habs; discriminate Habs].
  - unfold_monad. do 2 eexists.
    split; [reflexivity |].
    intros e' st2 Heq. injection Heq as <- <-. split; reflexivity.
Qed.


End Failures.

Lemma missing_response_uses_fallback_witness :
  exists step st2,
    attempt_once no_response_world "prompt" neutral_user 1
      (initial_config no_response_world) initial_state
    = (Ret step, st2)
    /\ step = Return fallback_reply
    /\ produced st2 = [fallback_reply].
Proof.
  destruct (@missing_response_uses_fallback nat no_response_world "prompt"
              neutral_user 1 (initial_config no_response_world)
              [("mood", JStr "fine")] initial_state
              (snd (fetch_reply no_response_world "prompt" 1
                      (initial_config no_response_world) initial_state))
              eq_refl eq_refl)
    as (step & st2 & Hrun & _ & Hprod & _).
  exists step, st2. split; [exact Hrun |]. split; [| exact Hprod].
  assert (Hc : fst (attempt_once no_response_world "prompt" neutral_user 1
                      (initial_config no_response_world) initial_state)
               = Ret (Return fallback_reply)) by (vm_compute; reflexivity).
  rewrite Hrun in Hc. now injection Hc.
Defined.

(** The same for the empty object that the salvage pass gives for a text
    without braces. *)
Lemma empty_salvage_uses_fallback :
  fst (fetch_reply prose_world "prompt" 1 (initial_config prose_world)
         initial_state)
  = Ret (JDict [])
  /\ fst (attempt_once prose_world "prompt" neutral_user 1
            (initial_config prose_world) initial_state)
     = Ret (Return fallback_reply).
Proof. vm_compute. split; reflexivity. Qed.



(* ================================================================= *)
(** ** Facts about stripping, prefixes and slices *)

Section StripFacts.

Variable space : ascii -> bool.

#[local] Abbreviation all_by := (Strip.all_by space).
#[local] Abbreviation lstrip_by := (Strip.lstrip_by space).
#[local] Abbreviation rstrip_by := (Strip.rstrip_by space).
#[local] Abbreviation strip_by := (Strip.strip_by space).

Lemma lstrip_all (a : string) : all_by a = true -> lstrip_by a = "".
Proof.
  induction a as [|c a IH]; simpl; [reflexivity |].
  intros H. apply andb_prop in H as [Hc Ha]. rewrite Hc. auto.
Qed.

Lemma rstrip_all (a : string) : all_by a = true -> rstrip_by a = "".
Proof.
  induction a as [|c a IH]; simpl; [reflexivity |].
  intros H. apply andb_prop in H as [Hc Ha]. rewrite (IH Ha). now rewrite Hc.
Qed.

Lemma lstrip_app_space (a s : string) :
  all_by a = true -> lstrip_by (a ++ s) = lstrip_by s.
Proof.
  induction a as [|c a IH]; simpl; [reflexivity |].
  intros H. apply andb_prop in H as [Hc Ha]. rewrite Hc. auto.
Qed.

Lemma rstrip_app_space (s b : string) :
  all_by b = true -> rstrip_by (s ++ b) = rstrip_by s.
Proof.
  intros Hb. induction s as [|c s IH]; simpl.
  - now apply rstrip_all.
  - now rewrite IH.
Qed.

(** The head of a left-stripped string is not a space. *)
Lemma lstrip_head (s : string) (c : ascii) (r : string) :
  lstrip_by s = String c r -> space c = false.
Proof.
  induction s as [|x s IH]; simpl; [discriminate |].
  destruct (space x) eqn:Hx; [exact IH |].
  intros H. injection H as -> _. exact Hx.
Qed.

Lemma lstrip_fixed (c : ascii) (s : string) :
  space c = false -> lstrip_by (String c s) = String c s.
Proof. intros H; simpl. now rewrite H. Qed.

Lemma lstrip_idem (s : string) : lstrip_by (lstrip_by s) = lstrip_by s.
Proof.
  induction s as [|c s IH]; simpl; [reflexivity |].
  destruct (space c) eqn:Hc; [exact IH |].
  simpl. now rewrite Hc.
Qed.

(** Left-stripping only looks at the head of a string that has one. *)
Lemma lstrip_app_nonempty (s t : string) :
  lstrip_by s <> "" -> lstrip_by (s ++ t) = lstrip_by s ++ t.
Proof.
  induction s as [|c s IH]; simpl; [congruence |].
  destruct (space c); [exact IH | reflexivity].
Qed.

(** Right-stripping keeps the head of what it keeps. *)
Lemma rstrip_cons (c : ascii) (s : string) :
  rstrip_by (String c s) = "" \/ exists r, rstrip_by (String c s) = String c r.
Proof.
  simpl. destruct (rstrip_by s).
  - destruct (space c); [now left | right; eexists; reflexivity].
  - right; eexists; reflexivity.
Qed.

Lemma rstrip_idem (s : string) : rstrip_by (rstrip_by s) = rstrip_by s.
Proof.
  induction s as [|c s IH]; simpl; [reflexivity |].
  destruct (rstrip_by s) as [|x r] eqn:Hr.
  - destruct (space c) eqn:Hc; simpl; [reflexivity | now rewrite Hc].
  - simpl in *. now rewrite IH.
Qed.

(** Right-stripping leaves alone what stands before a part it keeps. *)
Lemma rstrip_app_kept (s t : string) :
  rstrip_by t <> "" -> rstrip_by (s ++ t) = s ++ rstrip_by t.
Proof.
  intros Ht. induction s as [|c s IH]; simpl; [reflexivity |].
  rewrite IH. destruct (s ++ rstrip_by t) eqn:Hs; [| reflexivity].
  destruct s; simpl in Hs; [contradiction | discriminate].
Qed.

Lemma strip_idem (s : string) : strip_by (strip_by s) = strip_by s.
Proof.
  unfold Strip.strip_by.
  destruct (lstrip_by s) as [|c r] eqn:Hl; [reflexivity |].
  pose proof (lstrip_head _ Hl) as Hc.
  destruct (rstrip_cons c r) as [He | (r' & He)]; rewrite He.
  - reflexivity.
  - rewrite lstrip_fixed by exact Hc. rewrite <- He. apply rstrip_idem.
Qed.

(** Stripping ignores spaces put around a text that has something else in
    it. *)
Lemma strip_padded (a s b : string) :
  all_by a = true -> all_by b = true -> lstrip_by s <> "" ->
  strip_by (a ++ s ++ b) = strip_by s.
Proof.
  intros Ha Hb Hs. unfold Strip.strip_by.
  rewrite lstrip_app_space by exact Ha.
  rewrite lstrip_app_nonempty by exact Hs.
  now apply rstrip_app_space.
Qed.

End StripFacts.

Lemma prefix_app (p s : string) : prefix p (p ++ s) = true.
Proof.
  induction p as [|c p IH]; simpl; [now destruct s |].
  destruct (ascii_dec c c); [exact IH | contradiction].
Qed.

Lemma prefix_cons_neq (c d : ascii) (p s : string) :
  c <> d -> prefix (String c p) (String d s) = false.
Proof.
  intros Hn. cbn [prefix]. destruct (ascii_dec c d); [contradiction | reflexivity].
Qed.

Lemma prefix_cons_eq (c : ascii) (p s : string) :
  prefix (String c p) (String c s) = prefix p s.
Proof.
  cbn [prefix]. destruct (ascii_dec c c); [reflexivity | contradiction].
Qed.

Lemma endswith_app (s q : string) : PyStr.endswith (s ++ q) q = true.
Proof.
  induction s as [|c s IH].
  - destruct q; cbn [append PyStr.endswith]; now rewrite String.eqb_refl.
  - cbn [append PyStr.endswith]. rewrite IH. apply orb_true_r.
Qed.

Lemma substring_prefix (m q : string) : substring 0 (String.length m) (m ++ q) = m.
Proof.
  induction m as [|c m IH]; simpl.
  - now destruct q.
  - now rewrite IH.
Qed.

Lemma substring_middle (p m q : string) :
  substring (String.length p) (String.length m) (p ++ m ++ q) = m.
Proof.
  induction p as [|c p IH]; simpl; [apply substring_prefix | exact IH].
Qed.

(** [(p + m + q)[len(p):-len(q)]] is [m], for a non-empty [q]. *)
Lemma slice_between (p m q : string) :
  q <> "" ->
  PyStr.slice (p ++ m ++ q) (Z.of_nat (String.length p))
    (- Z.of_nat (String.length q)) = m.
Proof.
  intros Hq.
  assert (0 < String.length q) by (destruct q; simpl; [congruence | lia]).
  unfold PyStr.slice, PyStr.len, PyStr.clamp.
  rewrite !string_length_app.
  set (np := String.length p) in *. set (nm := String.length m) in *.
  set (nq := String.length q) in *.
  assert (Hlo : (Z.of_nat np <? 0)%Z = false) by (apply Z.ltb_ge; lia).
  assert (Hhi : (- Z.of_nat nq <? 0)%Z = true) by (apply Z.ltb_lt; lia).
  rewrite Hlo, Hhi.
  replace (Z.max 0 (Z.min (Z.of_nat (np + (nm + nq))) (Z.of_nat np)))
    with (Z.of_nat np) by lia.
  replace (Z.max 0 (Z.min (Z.of_nat (np + (nm + nq)))
                      (- Z.of_nat nq + Z.of_nat (np + (nm + nq)))))
    with (Z.of_nat (np + nm)) by lia.
  destruct (Z.of_nat np <? Z.of_nat (np + nm))%Z eqn:Hlt.
  - replace (Z.to_nat (Z.of_nat (np + nm) - Z.of_nat np)) with nm by lia.
    rewrite Nat2Z.id. apply substring_middle.
  - apply Z.ltb_ge in Hlt. assert (nm = 0) by lia.
    destruct m; [reflexivity | simpl in *; subst nm; lia].
Qed.

(* ================================================================= *)
(** ** Code fences *)

Lemma object_text_lstrip (j : string) :
  is_object_text j -> exists r, PyStr.lstrip j = String "{" r.
Proof.
  intros (rest & Hj). unfold PyStr.strip, Strip.strip_by in Hj.
  unfold PyStr.lstrip.
  destruct (Strip.lstrip_by PyStr.isspace j) as [|c r] eqn:Hl;
    [discriminate Hj |].
  destruct (rstrip_cons PyStr.isspace c r) as [He | (r' & He)];
    rewrite He in Hj; [discriminate Hj |].
  injection Hj as -> _. now exists r.
Qed.

(** What follows the opening fence does not start with "json". *)
Lemma no_language_tag (a j x : string) :
  Strip.all_by PyStr.isspace a = true ->
  (exists r, PyStr.lstrip j = String "{" r) ->
  prefix "json" (a ++ j ++ x) = false.
Proof.
  intros Ha (r & Hj).
  assert (Hspace : forall c s, PyStr.isspace c = true ->
                               prefix "json" (String c s) = false).
  { intros c s Hc. destruct (ascii_dec "j" c) as [<-|Hn];
      [discriminate Hc | now apply prefix_cons_neq]. }
  destruct a as [|c a].
  - destruct j as [|c j]; [discriminate Hj |].
    unfold PyStr.lstrip in Hj. simpl in Hj.
    destruct (PyStr.isspace c) eqn:Hc.
    + now apply Hspace.
    + injection Hj as -> _. reflexivity.
  - simpl in Ha. apply andb_prop in Ha as [Hc _]. now apply Hspace.
Qed.

(** A text between two fences is its own strip. *)
Lemma strip_fenced (opening mid : string) :
  PyStr.strip (String "`" opening ++ mid ++ "```")
  = String "`" opening ++ mid ++ "```".
Proof.
  unfold PyStr.strip, Strip.strip_by.
  rewrite <- app_assoc_s.
  change ((String "`" opening ++ mid) ++ "```")
    with (String "`" ((opening ++ mid) ++ "```")).
  rewrite lstrip_fixed by reflexivity.
  change (String "`" ((opening ++ mid) ++ "```"))
    with ((String "`" (opening ++ mid)) ++ "```").
  rewrite rstrip_app_kept; [reflexivity | discriminate].
Qed.

Lemma strip_fences_json (mid : string) :
  strip_fences ("```json" ++ mid ++ "```") = PyStr.strip mid.
Proof.
  unfold strip_fences, PyStr.startswith.
  rewrite prefix_app.
  rewrite <- (app_assoc_s "```json" mid "```") at 1.
  rewrite endswith_app. cbn [andb].
  change 7%Z with (Z.of_nat (String.length "```json")).
  change (-3)%Z with (- Z.of_nat (String.length "```"))%Z.
  rewrite slice_between; [reflexivity | discriminate].
Qed.

Lemma strip_fences_plain (mid : string) :
  prefix "json" (mid ++ "```") = false ->
  strip_fences ("```" ++ mid ++ "```") = PyStr.strip mid.
Proof.
  intros Htag. unfold strip_fences, PyStr.startswith.
  assert (H1 : prefix "```json" ("```" ++ mid ++ "```") = false).
  { change ("```json") with (String "`" (String "`" (String "`" "json"))).
    change ("```" ++ mid ++ "```")
      with (String "`" (String "`" (String "`" (mid ++ "```")))).
    now rewrite !prefix_cons_eq. }
  rewrite H1. cbn [andb].
  rewrite prefix_app.
  rewrite <- (app_assoc_s "```" mid "```") at 1.
  rewrite endswith_app. cbn [andb].
  change 3%Z with (Z.of_nat (String.length "```")) at 1.
  change (-3)%Z with (- Z.of_nat (String.length "```"))%Z.
  rewrite slice_between; [reflexivity | discriminate].
Qed.

Lemma strip_fences_bare (s rest : string) :
  s = String "{" rest -> strip_fences s = s.
Proof. intros ->. reflexivity. Qed.

Section Fences.

Variable W : Type.
Variable env : Env W.

(** C6.  For the text [j] of a JSON object and whitespace [a], [b], the
    parse stage gives on "```json" a j b "```" and on "```" a j b "```"
    what it gives on [j] alone: the same value or exception, and the same
    state. *)
Theorem fenced_reply_parses_like_bare
        (j a b : string)
        (Ha : Strip.all_by PyStr.isspace a = true)
        (Hb : Strip.all_by PyStr.isspace b = true)
        (Hj : is_object_text j) (st : St W) :
  parse_stage env ("```json" ++ a ++ j ++ b ++ "```") st = parse_stage env j st
  /\ parse_stage env ("```" ++ a ++ j ++ b ++ "```") st = parse_stage env j st.
Proof.
  pose proof (object_text_lstrip Hj) as Hl.
  assert (Hne : Strip.lstrip_by PyStr.isspace j <> "").
  { destruct Hl as (r & Hr). unfold PyStr.lstrip in Hr. rewrite Hr. discriminate. }
  assert (Hmid : PyStr.strip (a ++ j ++ b) = PyStr.strip j)
    by (apply strip_padded; assumption).
  assert (Hbare : strip_fences (PyStr.strip j) = PyStr.strip j).
  { destruct Hj as (rest & Hrest). now apply strip_fences_bare with rest. }
  unfold parse_stage. rewrite Hbare. split.
  - change ("```json" ++ a ++ j ++ b ++ "```")
      with (String "`" "``json" ++ a ++ j ++ b ++ "```").
    rewrite <- !app_assoc_s. rewrite !app_assoc_s.
    replace (a ++ j ++ b ++ "```") with ((a ++ j ++ b) ++ "```")
      by now rewrite !app_assoc_s.
    rewrite strip_fenced.
    change (String "`" "``json" ++ (a ++ j ++ b) ++ "```")
      with ("```json" ++ (a ++ j ++ b) ++ "```").
    now rewrite strip_fences_json, Hmid.
  - change ("```" ++ a ++ j ++ b ++ "```")
      with (String "`" "``" ++ a ++ j ++ b ++ "```").
    replace (a ++ j ++ b ++ "```") with ((a ++ j ++ b) ++ "```")
      by now rewrite !app_assoc_s.
    rewrite strip_fenced.
    change (String "`" "``" ++ (a ++ j ++ b) ++ "```")
      with ("```" ++ (a ++ j ++ b) ++ "```").
    rewrite strip_fences_plain, Hmid; [reflexivity |].
    rewrite !app_assoc_s. now apply no_language_tag.
Qed.

End Fences.

Lemma fenced_reply_parses_like_bare_witness :
  parse_stage happy_world ("```json" ++ nl ++ reply_text "hi" ++ nl ++ "```")
    initial_state
  = (Ret (JDict [("response", JStr "hi")]), initial_state)
  /\ parse_stage happy_world ("```" ++ " " ++ reply_text "hi" ++ " " ++ "```")
       initial_state
     = (Ret (JDict [("response", JStr "hi")]), initial_state).
Proof.
  split.
  - rewrite (proj1 (@fenced_reply_parses_like_bare nat happy_world
                      (reply_text "hi") nl nl eq_refl eq_refl
                      (ex_intro _ _ eq_refl) initial_state)).
    reflexivity.
  - rewrite (proj2 (@fenced_reply_parses_like_bare nat happy_world
                      (reply_text "hi") " " " " eq_refl eq_refl
                      (ex_intro _ _ eq_refl) initial_state)).
    reflexivity.
Defined.

(* ================================================================= *)
(** ** The salvage pass *)

Section Salvage.

Variable W : Type.
Variable env : Env W.

Lemma load_reply_strict (raw : string) (data : json) (st : St W) :
  json_loads env raw = Ret data -> load_reply env raw st = (Ret data, st).
Proof. intros H. unfold load_reply. now rewrite H. Qed.

(** After a decode error: the span from the first opening brace to the
    last closing brace is decoded when both braces exist, and the result is
    the empty dict when one of them is missing.  The outcome of the second
    decoding, value or exception, is the outcome of the stage. *)
Lemma load_reply_salvage (raw : string) (e : Exn) (st : St W) :
  json_loads env raw = Raise e -> is_JSONDecodeError e = true ->
  load_reply env raw st
  = (if ((0 <=? PyStr.find raw "{") && (0 <=? PyStr.rfind raw "}"))%Z
     then json_loads env
            (PyStr.slice raw (PyStr.find raw "{") (PyStr.rfind raw "}" + 1))
     else Ret (JDict []),
     with_log st (salvage_warning e)).
Proof.
  intros H He. unfold load_reply. rewrite H, He. unfold_monad.
  now destruct ((0 <=? PyStr.find raw "{") && (0 <=? PyStr.rfind raw "}"))%Z.
Qed.

(** Errors of the decoder other than [JSONDecodeError] leave the stage at
    once. *)
Lemma load_reply_other_error (raw : string) (e : Exn) (st : St W) :
  json_loads env raw = Raise e -> is_JSONDecodeError e = false ->
  load_reply env raw st = (Raise e, st).
Proof. intros H He. unfold load_reply. now rewrite H, He. Qed.

End Salvage.

(** The example of the specification: the object is extracted from the
    text "noise {...} trailing". *)
Lemma salvage_extracts_embedded_object :
  fst (load_reply happy_world ("noise " ++ reply_text "hi" ++ " trailing")
         initial_state)
  = Ret (JDict [("response", JStr "hi")]).
Proof. vm_compute. reflexivity. Qed.

(** Without braces the salvage pass gives the empty dict. *)
Lemma salvage_without_braces :
  fst (load_reply happy_world "I am sorry, I cannot answer." initial_state)
  = Ret (JDict []).
Proof. vm_compute. reflexivity. Qed.

(** C7, at the reply "{oops}".  Strict decoding fails, the span from the
    first opening brace to the last closing brace is the whole text, and
    decoding it fails again: the stage raises [JSONDecodeError] where the
    claim has the empty object; the pass is handled as a failed call, and
    after three such replies the undecorated [refine_and_respond]
    raises. *)
Theorem unparseable_salvage_escapes :
  fst (load_reply braces_world "{oops}" initial_state)
  = Raise (mkExn JSONDecodeError "invalid JSON text")
  /\ fst (load_reply braces_world "{oops}" initial_state) <> Ret (JDict [])
  /\ fst (attempt_once braces_world "prompt" neutral_user 1
            (initial_config braces_world) initial_state)
     = Ret (Continue (initial_config braces_world))
  /\ In (failure_record 1 (mkExn JSONDecodeError "invalid JSON text"))
        (log (snd (attempt_once braces_world "prompt" neutral_user 1
                     (initial_config braces_world) initial_state)))
  /\ fst (refine_and_respond_body braces_world "hello" neutral_user "default"
            initial_state)
     = Raise (mkExn JSONDecodeError "invalid JSON text").
Proof.
  vm_compute. repeat split; try discriminate. auto.
Qed.

(* ================================================================= *)
(** ** The submit handler *)

Section Submit.

Import ChatInterface.

Variable b : Browser.


End Submit.


(* ================================================================= *)
(** ** More on the prompt builder *)

Lemma occurs_in_refl (s : string) : occurs_in s s.
Proof. exists "", "". simpl. now rewrite app_empty_r. Qed.

Lemma occurs_in_join (sep x : string) (xs : list string) :
  In x xs -> occurs_in x (PyStr.join sep xs).
Proof.
  unfold PyStr.join.
  induction xs as [|y ys IH]; intros Hin; [contradiction |].
  destruct Hin as [-> | Hin].
  - destruct ys as [|z zs]; cbn [String.concat].
    + apply occurs_in_refl.
    + exists "", (sep ++ String.concat sep (z :: zs)). reflexivity.
  - destruct ys as [|z zs]; [contradiction |].
    cbn [String.concat]. do 2 apply occurs_in_app_r. now apply IH.
Qed.

(** [(old + recent)[-n:]] is [recent] when [recent] has [n] > 0 elements. *)
Lemma last_n_app_exact {A} (n : nat) (old recent : list A) :
  0 < n -> List.length recent = n ->
  PyStr.last_n n (old ++ recent)%list = recent.
Proof.
  intros Hpos Hlen. unfold PyStr.last_n.
  destruct n as [|n]; [lia |].
  rewrite length_app, Hlen.
  replace (List.length old + S n - S n) with (List.length old + 0) by lia.
  rewrite skipn_app.
  replace (List.length old + 0 - List.length old) with 0 by lia.
  rewrite Nat.add_0_r, skipn_all. reflexivity.
Qed.

Section PromptFields.

Variable W : Type.
Variable env : Env W.

(** X1.  The prompt is built from the last [context_window] messages of
    the context only: when the window is not zero, messages older than
    the last [context_window] ones do not change the prompt, and those
    last messages are in it, joined by single spaces. *)
Theorem prompt_keeps_last_messages
        (emotions : EmotionAnalysisResult) (user_text : string)
        (old recent : list string)
        (Hpos : 0 < context_window env)
        (Hlen : List.length recent = context_window env) :
  create_dynamic_prompt env emotions user_text (old ++ recent)%list
  = create_dynamic_prompt env emotions user_text recent
  /\ occurs_in (PyStr.join " " recent)
       (create_dynamic_prompt env emotions user_text (old ++ recent)%list).
Proof.
  assert (Hne : recent <> []) by (destruct recent; simpl in *; [lia | discriminate]).
  assert (H1 : PyStr.last_n (context_window env) (old ++ recent)%list = recent)
    by now apply last_n_app_exact.
  assert (H2 : PyStr.last_n (context_window env) recent = recent)
    by now apply (last_n_app_exact []).
  unfold create_dynamic_prompt.
  destruct (old ++ recent)%list as [|m ms] eqn:Happ.
  - apply app_eq_nil in Happ as [_ ->]. contradiction.
  - rewrite H1. destruct recent as [|r rs]; [contradiction |].
    rewrite H2. split; [reflexivity |].
    repeat (first [ apply occurs_in_middle | apply occurs_in_app_r ]).
Qed.

(** X2.  For every input the prompt states the detected emotion and its
    intensity in the form "Primary emotion: E (intensity: I/10).", lists
    every secondary emotion as "label (score)" with the score in two
    decimals, and holds every message of the context window verbatim. *)
Theorem prompt_mentions_emotion_state
        (emotions : EmotionAnalysisResult) (user_text : string)
        (context : list string) :
  let prompt := create_dynamic_prompt env emotions user_text context in
  occurs_in ("Primary emotion: " ++ primary_emotion emotions ++ " (intensity: "
             ++ str_float env (intensity emotions) ++ "/10).") prompt
  /\ (forall e, In e (secondary_emotions emotions) ->
                occurs_in (label e ++ " (" ++ format_2f env (score e) ++ ")") prompt)
  /\ (forall m, In m (PyStr.last_n (context_window env) context) ->
                occurs_in m prompt).
Proof.
  cbv zeta. unfold create_dynamic_prompt. repeat split.
  - set (head := substring 0 (String.length Template.role_and_state - 17)
                   Template.role_and_state).
    assert (Hhead : Template.role_and_state = head ++ "Primary emotion: ")
      by reflexivity.
    rewrite Hhead.
    exists head. eexists (" Secondary emotions: " ++ _).
    rewrite !app_assoc_s. reflexivity.
  - intros e Hin.
    do 5 apply occurs_in_app_r. apply occurs_in_app_l.
    apply occurs_in_join.
    change (label e ++ " (" ++ format_2f env (score e) ++ ")")
      with (format_secondary env e). now apply in_map.
  - intros m Hin.
    destruct context as [|c cs].
    + destruct (context_window env); simpl in Hin; contradiction.
    + do 9 apply occurs_in_app_r. apply occurs_in_app_l.
      now apply occurs_in_join.
Qed.

End PromptFields.

Lemma prompt_keeps_last_messages_witness :
  create_dynamic_prompt happy_world sad_user "hello" six_messages
  = create_dynamic_prompt happy_world sad_user "hello" (tl six_messages).
Proof.
  refine (proj1 (@prompt_keeps_last_messages nat happy_world sad_user "hello"
                   ["m1"] (tl six_messages) _ _)).
  - simpl; lia.
  - reflexivity.
Defined.

(* ================================================================= *)
(** ** More on the validator *)

Section ValidatorEdges.

Variable W : Type.
Variable env : Env W.

(** The classifier answers [None]: both tests of the validator end in the
    handler. *)
Lemma validate_response_none
      (response : json) (expected : string) (w' : W) (st : St W) :
  analyze_emotions env response (world st) = (Ret None, w') ->
  validate_response env response expected st
  = (Ret true,
     mkSt w' (client st) (log st ++ [no_analysis_record]) (api_calls st)
       (produced st)).
Proof.
  intros Hcls. unfold validate_response. unfold_monad. rewrite Hcls.
  cbv beta iota delta [attr_primary_emotion].
  destruct (expected =? "neutral"); reflexivity.
Qed.

(** X3.  When re-classification of the reply gives no analysis ([None]),
    the validator accepts the reply whatever the expected emotion is: for
    "neutral" the first test reads [primary_emotion] of [None], for any
    other label the mismatch warning does, and the [AttributeError] ends
    in the handler, which logs it and returns [True]. *)
Theorem validate_response_without_analysis
        (response : json) (expected : string) (w' : W) (st : St W)
        (Hcls : analyze_emotions env response (world st) = (Ret None, w')) :
  validate_response env response expected st
  = (Ret true,
     mkSt w' (client st) (log st ++ [no_analysis_record]) (api_calls st)
       (produced st)).
Proof.
  unfold validate_response, try_except, bind at 1, call. rewrite Hcls.
  unfold_monad. cbv beta iota delta [attr_primary_emotion].
  destruct (expected =? "neutral"); reflexivity.
Qed.

(** X4.  The validator never raises: whatever the classifier does, it
    returns a verdict, adds exactly one record to the log, makes no API
    call and leaves the client alone; the record is an error record
    exactly when the classifier gave no analysis (it raised or returned
    [None]). *)
Theorem validate_response_always_answers
        (response : json) (expected : string) (st : St W) :
  exists verdict w' record,
    validate_response env response expected st
    = (Ret verdict,
       mkSt w' (client st) (log st ++ [record]) (api_calls st) (produced st))
    /\ w' = snd (analyze_emotions env response (world st))
    /\ (level record = ERROR <->
        forall a, fst (analyze_emotions env response (world st)) <> Ret (Some a)).
Proof.
  destruct (analyze_emotions env response (world st)) as [[[a|]|e] w'] eqn:Hcls.
  - exists (alignment_policy expected (primary_emotion a)), w'.
    unfold validate_response, alignment_policy. unfold_monad. rewrite Hcls.
    cbv beta iota delta [attr_primary_emotion].
    assert (Hno : ~ (forall a0 : EmotionAnalysisResult,
                        fst (Ret (Some a), w') <> Ret (Some a0)))
      by (intros H; now apply (H a)).
    destruct (expected =? "neutral") eqn:Hn; cbv beta iota.
    + destruct (existsb (String.eqb (primary_emotion a)) permissive_emotions)
        eqn:Hp; cbv beta iota.
      * eexists; split; [reflexivity |]. split; [reflexivity |].
        split; [discriminate | intros H; now destruct Hno].
      * destruct (primary_emotion a =? expected); eexists;
          (split; [reflexivity |]); (split; [reflexivity |]);
          (split; [discriminate | intros H; now destruct Hno]).
    + destruct (primary_emotion a =? expected); eexists;
        (split; [reflexivity |]); (split; [reflexivity |]);
        (split; [discriminate | intros H; now destruct Hno]).
  - exists true, w', no_analysis_record.
    rewrite (validate_response_none response expected st Hcls).
    repeat split. intros _ a. discriminate.
  - exists true, w'. eexists.
    rewrite (validate_response_handler env response expected st Hcls).
    repeat split. intros _ a. discriminate.
Qed.

End ValidatorEdges.

Lemma validate_response_without_analysis_witness :
  validate_response no_analysis_world (JStr "hi") "sad" initial_state
  = (Ret true, mkSt 0 None [no_analysis_record] [] []).
Proof.
  exact (@validate_response_without_analysis nat no_analysis_world (JStr "hi")
           "sad" 0 initial_state eq_refl).
Defined.

(* ================================================================= *)
(** ** More on the salvage pass *)

Lemma prefix_char (c d : ascii) (s : string) :
  prefix (String c "") (String d s) = Ascii.eqb d c.
Proof.
  cbn [prefix]. destruct (ascii_dec c d) as [->|Hn].
  - rewrite Ascii.eqb_refl. now destruct s.
  - symmetry. apply Ascii.eqb_neq. congruence.
Qed.

(** [find] stops at the first occurrence. *)
Lemma find_from_first (c : ascii) (pre rest : string) (i : Z) :
  lacks c pre = true ->
  PyStr.find_from (String c "") (pre ++ String c rest) i
  = (i + Z.of_nat (String.length pre))%Z.
Proof.
  revert i. induction pre as [|d pre IH]; intros i Hl.
  - cbn [append PyStr.find_from]. rewrite prefix_char, Ascii.eqb_refl.
    simpl. lia.
  - cbn [lacks] in Hl. apply andb_prop in Hl as [Hd Hl].
    cbn [append PyStr.find_from]. rewrite prefix_char.
    apply negb_true_iff in Hd. rewrite Hd. rewrite IH by exact Hl.
    cbn [String.length]. lia.
Qed.

Lemma rfind_from_none (c : ascii) (post : string) (i last : Z) :
  lacks c post = true ->
  PyStr.rfind_from (String c "") post i last = last.
Proof.
  revert i. induction post as [|d post IH]; intros i Hl.
  - reflexivity.
  - cbn [lacks] in Hl. apply andb_prop in Hl as [Hd Hl].
    cbn [PyStr.rfind_from]. rewrite prefix_char.
    apply negb_true_iff in Hd. rewrite Hd. now apply IH.
Qed.

(** [rfind] gives the last occurrence. *)
Lemma rfind_from_last (c : ascii) (pre post : string) (i last : Z) :
  lacks c post = true ->
  PyStr.rfind_from (String c "") (pre ++ String c post) i last
  = (i + Z.of_nat (String.length pre))%Z.
Proof.
  revert i last. induction pre as [|d pre IH]; intros i last Hl.
  - cbn [append PyStr.rfind_from]. rewrite prefix_char, Ascii.eqb_refl.
    rewrite rfind_from_none by exact Hl. simpl. lia.
  - cbn [append PyStr.rfind_from]. rewrite IH by exact Hl.
    cbn [String.length]. lia.
Qed.

(** [(p + m + q)[len(p):len(p)+len(m)]] is [m]. *)
Lemma slice_span (p m q : string) :
  PyStr.slice (p ++ m ++ q) (Z.of_nat (String.length p))
    (Z.of_nat (String.length p) + Z.of_nat (String.length m)) = m.
Proof.
  unfold PyStr.slice, PyStr.len, PyStr.clamp.
  rewrite !string_length_app.
  set (np := String.length p) in *. set (nm := String.length m) in *.
  set (nq := String.length q) in *.
  assert (Hlo : (Z.of_nat np <? 0)%Z = false) by (apply Z.ltb_ge; lia).
  assert (Hhi : (Z.of_nat np + Z.of_nat nm <? 0)%Z = false) by (apply Z.ltb_ge; lia).
  rewrite Hlo, Hhi.
  replace (Z.max 0 (Z.min (Z.of_nat (np + (nm + nq))) (Z.of_nat np)))
    with (Z.of_nat np) by lia.
  replace (Z.max 0 (Z.min (Z.of_nat (np + (nm + nq))) (Z.of_nat np + Z.of_nat nm)))
    with (Z.of_nat (np + nm)) by lia.
  destruct (Z.of_nat np <? Z.of_nat (np + nm))%Z eqn:Hlt.
  - replace (Z.to_nat (Z.of_nat (np + nm) - Z.of_nat np)) with nm by lia.
    rewrite Nat2Z.id. apply substring_middle.
  - apply Z.ltb_ge in Hlt. assert (nm = 0) by lia.
    destruct m; [reflexivity | simpl in *; subst nm; lia].
Qed.

Section SalvageSpan.

Variable W : Type.
Variable env : Env W.

(** X5.  When the text of a reply is not JSON as a whole and holds a
    braced span with no opening brace before it and no closing brace after
    it, the salvage pass decodes exactly that span: the text around it is
    dropped, the warning is logged, and the outcome of decoding the span
    (a value or an exception) is the outcome of the stage. *)
Theorem salvage_recovers_embedded_object
        (pre mid post : string) (e : Exn) (st : St W)
        (Hpre : lacks "{" pre = true)
        (Hpost : lacks "}" post = true)
        (Hstrict : json_loads env (pre ++ "{" ++ mid ++ "}" ++ post) = Raise e)
        (Hclass : is_JSONDecodeError e = true) :
  load_reply env (pre ++ "{" ++ mid ++ "}" ++ post) st
  = (json_loads env ("{" ++ mid ++ "}"), with_log st (salvage_warning e)).
Proof.
  erewrite load_reply_salvage by eassumption.
  assert (Hfind : PyStr.find (pre ++ "{" ++ mid ++ "}" ++ post) "{"
                  = Z.of_nat (String.length pre)).
  { unfold PyStr.find.
    change (pre ++ "{" ++ mid ++ "}" ++ post)
      with (pre ++ String "{" (mid ++ "}" ++ post)).
    now rewrite find_from_first. }
  assert (Hrfind : PyStr.rfind (pre ++ "{" ++ mid ++ "}" ++ post) "}"
                   = Z.of_nat (String.length (pre ++ "{" ++ mid))).
  { unfold PyStr.rfind.
    replace (pre ++ "{" ++ mid ++ "}" ++ post)
      with ((pre ++ "{" ++ mid) ++ String "}" post)
      by (rewrite !app_assoc_s; reflexivity).
    now rewrite rfind_from_last. }
  rewrite Hfind, Hrfind.
  replace ((0 <=? Z.of_nat (String.length pre))
           && (0 <=? Z.of_nat (String.length (pre ++ "{" ++ mid))))%Z
    with true
    by (symmetry; apply andb_true_iff; split; apply Z.leb_le; lia).
  replace (Z.of_nat (String.length (pre ++ "{" ++ mid)) + 1)%Z
    with (Z.of_nat (String.length pre)
          + Z.of_nat (String.length ("{" ++ mid ++ "}")))%Z
    by (rewrite !string_length_app; simpl; lia).
  replace (pre ++ "{" ++ mid ++ "}" ++ post)
    with (pre ++ ("{" ++ mid ++ "}") ++ post)
    by (rewrite !app_assoc_s; reflexivity).
  now rewrite slice_span.
Qed.

End SalvageSpan.

Lemma salvage_recovers_embedded_object_witness :
  load_reply happy_world
    ("Sure, here it is: " ++ "{" ++ (quoted "response" ++ ":" ++ quoted "hi")
     ++ "}" ++ " Hope this helps!") initial_state
  = (Ret (JDict [("response", JStr "hi")]),
     with_log initial_state
       (salvage_warning (mkExn JSONDecodeError "invalid JSON text"))).
Proof.
  rewrite (@salvage_recovers_embedded_object nat happy_world "Sure, here it is: "
             (quoted "response" ++ ":" ++ quoted "hi") " Hope this helps!"
             (mkExn JSONDecodeError "invalid JSON text") initial_state
             eq_refl eq_refl eq_refl eq_refl).
  reflexivity.
Defined.

(* ================================================================= *)
(** ** More on code fences *)

Lemma prefix_longer (p q s : string) :
  prefix (p ++ q) s = true -> prefix p s = true.
Proof.
  revert s. induction p as [|c p IH]; intros s H.
  - now destruct s.
  - destruct s as [|d s]; [discriminate H |].
    cbn [append prefix] in *. destruct (ascii_dec c d); [| discriminate H].
    now apply IH.
Qed.

(** A text that does not open with a fence is left alone. *)
Lemma strip_fences_unfenced (s : string) :
  PyStr.startswith s "```" = false -> strip_fences s = s.
Proof.
  intros H. unfold strip_fences. rewrite H. cbn [andb].
  destruct (PyStr.startswith s "```json") eqn:Hj; [| reflexivity].
  unfold PyStr.startswith in *.
  change "```json" with ("```" ++ "json") in Hj.
  apply prefix_longer in Hj. congruence.
Qed.

(** A prefix of [s ++ t] lies inside [s], or ends inside [t]. *)
Lemma prefix_split (p s t : string) :
  prefix p (s ++ t) = true ->
  prefix p s = true
  \/ exists p1 c p2, p = p1 ++ String c p2 /\ prefix (String c p2) t = true.
Proof.
  revert s. induction p as [|c p IH]; intros s H.
  - left. now destruct s.
  - destruct s as [|d s].
    + right. now exists "", c, p.
    + cbn [append prefix] in *. destruct (ascii_dec c d) as [->|]; [| discriminate H].
      destruct (IH s H) as [Hin | (p1 & c' & p2 & -> & Ht)].
      * now left.
      * right. now exists (String d p1), c', p2.
Qed.

(** What follows the text inside a fence starts with a space or with the
    closing fence: it cannot complete the word "json". *)
Lemma no_tag_across (s b : string) :
  Strip.all_by PyStr.isspace b = true ->
  prefix "json" s = false ->
  prefix "json" (s ++ b ++ "```") = false.
Proof.
  intros Hb Hs.
  destruct (prefix "json" (s ++ b ++ "```")) eqn:Hp; [| reflexivity].
  exfalso.
  destruct (prefix_split _ _ _ Hp) as [Hin | (p1 & c & p2 & Hsplit & Ht)];
    [congruence |].
  assert (Hc : PyStr.isspace c = false /\ c <> "`"%char).
  { destruct p1 as [|x1 [|x2 [|x3 [|x4 p1]]]]; cbn [append] in Hsplit;
      injection Hsplit as; subst; try (split; [reflexivity | discriminate]).
    destruct p1; discriminate. }
  destruct Hc as [Hspace Htick].
  destruct b as [|d b].
  - cbn [append prefix] in Ht. destruct (ascii_dec c "`"); [contradiction | discriminate].
  - cbn [Strip.all_by] in Hb. apply andb_prop in Hb as [Hd _].
    cbn [append prefix] in Ht. destruct (ascii_dec c d) as [->|]; [| discriminate].
    congruence.
Qed.

Section FenceTransparency.

Variable W : Type.
Variable env : Env W.


End FenceTransparency.


(* ================================================================= *)
(** ** Invariants of a run of [refine_and_respond] *)

Lemma float_ltb_leb (x y : float) :
  PrimFloat.ltb x y = true -> PrimFloat.leb x y = true.
Proof.
  rewrite ltb_spec, leb_spec. unfold SpecFloat.SFltb, SpecFloat.SFleb.
  now destruct (SpecFloat.SFcompare (Prim2SF x) (Prim2SF y)) as [[| |]|].
Qed.

(** [min(cap, x)] does not exceed a [cap] that is a number. *)
Lemma py_min_le (cap x : float) :
  PrimFloat.leb cap cap = true -> PrimFloat.leb (py_min cap x) cap = true.
Proof.
  intros Hcap. unfold py_min.
  destruct (PrimFloat.ltb x cap) eqn:Hlt; [now apply float_ltb_leb | exact Hcap].
Qed.

Section Invariants.

Variable W : Type.
Variable env : Env W.

Lemma getitem_has_response (v x : json) :
  getitem v "response" = Ret x -> has_response v.
Proof.
  destruct v; try discriminate. cbn [getitem].
  destruct (lookup "response" kvs) as [y|] eqn:Hl; [| discriminate].
  intros _. now exists kvs, y.
Qed.

(** The second part of a pass ends in [return data] for a reply whose text
    it has read, or goes on with the temperature raised. *)
Lemma settle_reply_outcome (analysis : EmotionAnalysisResult) (attempt : nat)
      (cfg : GenerateContentConfig) (data : json) (st st' : St W) (step : Step) :
  settle_reply env analysis attempt cfg data st = (Ret step, st') ->
  (exists d, step = Return d /\ has_response d)
  \/ step = Continue
              (mkConfig (max_output_tokens cfg)
                 (py_min (top_p_literal env)
                    (PrimFloat.add (temperature cfg) (temperature_step env)))
                 (top_p cfg)).
Proof.
  unfold settle_reply. unfold bind at 1.
  destruct (check_reply attempt data st) as [[d|e] st1]; [| discriminate].
  unfold bind at 1, note. unfold bind at 1, eval.
  destruct (getitem d "response") as [r|e] eqn:Hget; [| discriminate].
  unfold bind at 1.
  destruct (validate_response env r (primary_emotion analysis) _) as [[[|]|e] st2];
    [| | discriminate].
  - unfold ret. intros H. injection H as <- _. left. exists d. split; [reflexivity |].
    now apply getitem_has_response with r.
  - unfold_monad. intros H. injection H as <- _. now right.
Qed.

(** How a pass that does not raise ends: [return data], the same config
    (after an exception), or the config with the temperature raised (after
    a rejection). *)
Lemma attempt_once_outcome (prompt : string) (analysis : EmotionAnalysisResult)
      (attempt : nat) (cfg : GenerateContentConfig) (st st' : St W) (step : Step) :
  attempt_once env prompt analysis attempt cfg st = (Ret step, st') ->
  (exists d, step = Return d /\ has_response d)
  \/ step = Continue cfg
  \/ step = Continue
              (mkConfig (max_output_tokens cfg)
                 (py_min (top_p_literal env)
                    (PrimFloat.add (temperature cfg) (temperature_step env)))
                 (top_p cfg)).
Proof.
  unfold attempt_once, try_except.
  destruct (attempt_body env prompt analysis attempt cfg st) as [[s|e] st1] eqn:Hbody.
  - intros H. injection H as -> ->.
    unfold attempt_body, bind at 1 in Hbody.
    destruct (fetch_reply env prompt attempt cfg st) as [[data|e] st0];
      [| discriminate].
    destruct (settle_reply_outcome _ _ _ _ _ Hbody) as [H | H]; auto.
  - unfold_monad. destruct (attempt =? max_attempts)%nat; [discriminate |].
    intros H. injection H as <- _. right; now left.
Qed.

(** A pass raises only if it is the last one, and the failure is then the
    last record of the log. *)
Lemma attempt_once_raises (prompt : string) (analysis : EmotionAnalysisResult)
      (attempt : nat) (cfg : GenerateContentConfig) (st st' : St W) (e : Exn) :
  attempt_once env prompt analysis attempt cfg st = (Raise e, st') ->
  attempt = max_attempts
  /\ exists records, log st' = (records ++ [failure_record attempt e])%list.
Proof.
  unfold attempt_once, try_except.
  destruct (attempt_body env prompt analysis attempt cfg st) as [[s|e0] st1];
    [discriminate |].
  unfold_monad. destruct (attempt =? max_attempts)%nat eqn:Hlast; [| discriminate].
  intros H. injection H as <- <-. split.
  - now apply Nat.eqb_eq.
  - now exists (log st1).
Qed.

(** X6.  Whatever [refine_and_respond] (before its decorators) returns is
    a dict with the key "response": a parsed reply is handed back only
    after [data["response"]] has been read from it, and the two fallback
    dicts have the key.  So the default of [result.get("response", ...)]
    in [generate_emotional_response] is never used on such a result. *)
Theorem returned_reply_has_response
        (text : string) (analysis : EmotionAnalysisResult) (user_id : string)
        (st st' : St W) (v : json)
        (Hrun : refine_and_respond_body env text analysis user_id st = (Ret v, st')) :
  has_response v
  /\ dict_get v "response" (JStr charlotte_default) = getitem v "response".
Proof.
  assert (Hv : has_response v).
  { destruct (get_conversation_context env user_id (world st)) as [[context|e] w]
      eqn:Hctx.
    - erewrite refine_body_enters_loop in Hrun by exact Hctx.
      revert Hrun.
      generalize (initial_config env), (entry_state env st w).
      generalize (seq 1 max_attempts).
      induction l as [|attempt rest IH]; intros cfg s.
      + rewrite loop_empty. intros H. injection H as <- _.
        eexists _, _. split; reflexivity.
      + cbn [attempts_loop]. unfold bind at 1.
        destruct (attempt_once env _ analysis attempt cfg s) as [[step|e] s1] eqn:Hstep;
          [| discriminate].
        destruct (attempt_once_outcome _ _ _ _ _ Hstep)
          as [(d & -> & Hd) | [-> | ->]].
        * unfold ret. intros H. now injection H as <- _.
        * apply IH.
        * apply IH.
    - erewrite refine_body_context_error in Hrun by exact Hctx. discriminate. }
  split; [exact Hv |].
  destruct Hv as (kvs & x & -> & Hx). cbn [dict_get getitem]. now rewrite Hx.
Qed.

(** The requests of a loop started from a config within bounds. *)
Lemma loop_requests
      (Hcap : PrimFloat.leb (top_p_literal env) (top_p_literal env) = true)
      (prompt : string) (analysis : EmotionAnalysisResult) (attempts : list nat) :
  forall cfg st,
    cfg_in_bounds env cfg ->
    exists new,
      api_calls (snd (attempts_loop env prompt analysis attempts cfg st))
      = (api_calls st ++ new)%list
      /\ Forall (request_in_bounds env prompt) new
      /\ (attempts <> [] ->
          exists more, new = mkRequest (MODEL_NAME env) [prompt] cfg :: more).
Proof.
  induction attempts as [|attempt rest IH]; intros cfg st Hcfg.
  - exists []. rewrite loop_empty. cbn [snd with_log api_calls].
    rewrite app_nil_r. repeat split; [constructor | congruence].
  - cbn [attempts_loop]. unfold bind at 1.
    pose proof (attempt_once_one_call env prompt analysis attempt cfg st) as Hc.
    assert (Hreq : request_in_bounds env prompt
                     (mkRequest (MODEL_NAME env) [prompt] cfg)).
    { split; [reflexivity | split; [reflexivity | exact Hcfg]]. }
    destruct (attempt_once env prompt analysis attempt cfg st) as [[step|e] st1]
      eqn:Hstep; cbn [snd] in Hc.
    + destruct (attempt_once_outcome _ _ _ _ _ Hstep)
        as [(d & -> & Hd) | [-> | ->]].
      * unfold ret; cbn [snd]. eexists. split; [exact Hc |].
        split; [now constructor |]. intros _. now eexists.
      * destruct (IH cfg st1 Hcfg) as (new & Hnew & Hall & _).
        exists (mkRequest (MODEL_NAME env) [prompt] cfg :: new).
        rewrite Hnew, Hc, <- app_assoc. split; [reflexivity |].
        split; [now constructor |]. intros _. now eexists.
      * match goal with
        | |- context [attempts_loop _ _ _ _ ?c _] =>
            assert (Hcfg' : cfg_in_bounds env c)
        end.
        { destruct Hcfg as (H1 & H2 & H3). repeat split; cbn; try assumption.
          right. now apply py_min_le. }
        destruct (IH _ st1 Hcfg') as (new & Hnew & Hall & _).
        exists (mkRequest (MODEL_NAME env) [prompt] cfg :: new).
        rewrite Hnew, Hc, <- app_assoc. split; [reflexivity |].
        split; [now constructor |]. intros _. now eexists.
    + cbn [snd]. eexists. split; [exact Hc |].
      split; [now constructor |]. intros _. now eexists.
Qed.

(** X7.  When the cap on the temperature is a number: a run of
    [refine_and_respond] (before its decorators) that gets its context
    sends the API between one and three requests; the first carries the
    initial config, and every one carries the configured model, the one
    prompt built for the request, [max_output_tokens] 300, the initial
    [top_p], and a temperature that is the initial one or at most the
    cap. *)
Theorem requests_stay_in_bounds
        (Hcap : PrimFloat.leb (top_p_literal env) (top_p_literal env) = true)
        (text : string) (analysis : EmotionAnalysisResult) (user_id : string)
        (st : St W) (context : list string) (w : W)
        (Hctx : get_conversation_context env user_id (world st) = (Ret context, w)) :
  let prompt := create_dynamic_prompt env analysis text context in
  exists more,
    api_calls (snd (refine_and_respond_body env text analysis user_id st))
    = (api_calls st
       ++ mkRequest (MODEL_NAME env) [prompt] (initial_config env) :: more)%list
    /\ List.length more <= 2
    /\ Forall (request_in_bounds env prompt) more.
Proof.
  intros prompt.
  erewrite refine_body_enters_loop by exact Hctx. fold prompt.
  assert (Hcfg : cfg_in_bounds env (initial_config env)).
  { repeat split. now left. }
  destruct (loop_requests Hcap prompt analysis (seq 1 max_attempts)
              (entry_state env st w) Hcfg) as (new & Hnew & Hall & Hhead).
  destruct Hhead as (more & ->); [discriminate |].
  rewrite entry_state_calls in Hnew.
  exists more. split; [exact Hnew |]. split.
  - pose proof (loop_calls_bound env prompt analysis (seq 1 max_attempts)
                  (initial_config env) (entry_state env st w)) as Hb.
    rewrite Hnew, entry_state_calls, length_app in Hb. simpl in Hb. lia.
  - now inversion Hall.
Qed.

(** X8.  An exception leaves [refine_and_respond] (before its decorators)
    only from the third pass: when the context store has answered and the
    function raises, it has made exactly three API calls, and the last
    record of the log is the failure of attempt 3 with the text of the
    exception raised.  Exceptions of the first two passes are logged and
    swallowed. *)
Theorem refine_raises_after_three_calls
        (text : string) (analysis : EmotionAnalysisResult) (user_id : string)
        (st st' : St W) (context : list string) (w : W) (e : Exn)
        (Hctx : get_conversation_context env user_id (world st) = (Ret context, w))
        (Hrun : refine_and_respond_body env text analysis user_id st = (Raise e, st')) :
  List.length (api_calls st') = List.length (api_calls st) + 3
  /\ exists records, log st' = (records ++ [failure_record 3 e])%list.
Proof.
  erewrite refine_body_enters_loop in Hrun by exact Hctx.
  set (prompt := create_dynamic_prompt env analysis text context) in *.
  rewrite <- (entry_state_calls env st w).
  revert Hrun. generalize (initial_config env), (entry_state env st w).
  intros cfg0 s0.
  cbn [seq max_attempts attempts_loop]. unfold bind at 1.
  pose proof (attempt_once_one_call env prompt analysis 1 cfg0 s0) as C1.
  destruct (attempt_once env prompt analysis 1 cfg0 s0) as [[[d|cfg1]|e1] s1] eqn:H1;
    cbn [snd] in C1.
  - discriminate.
  - unfold bind at 1.
    pose proof (attempt_once_one_call env prompt analysis 2 cfg1 s1) as C2.
    destruct (attempt_once env prompt analysis 2 cfg1 s1) as [[[d|cfg2]|e2] s2] eqn:H2;
      cbn [snd] in C2.
    + discriminate.
    + unfold bind at 1.
      pose proof (attempt_once_one_call env prompt analysis 3 cfg2 s2) as C3.
      destruct (attempt_once env prompt analysis 3 cfg2 s2) as [[[d|cfg3]|e3] s3] eqn:H3;
        cbn [snd] in C3.
      * discriminate.
      * discriminate.
      * intros H. injection H as <- <-.
        split.
        -- rewrite C3, C2, C1, !length_app. simpl. lia.
        -- now destruct (attempt_once_raises _ _ _ _ _ H3) as (_ & Hlog).
    + apply attempt_once_raises in H2 as (Habs & _). discriminate Habs.
  - apply attempt_once_raises in H1 as (Habs & _). discriminate Habs.
Qed.

End Invariants.

Lemma returned_reply_has_response_witness :
  has_response (JDict [("response", JStr "I hear you")]).
Proof.
  refine (proj1 (@returned_reply_has_response nat second_reply_fits
                   "I failed my exam" sad_user "default" initial_state
                   (snd (refine_and_respond_body second_reply_fits
                           "I failed my exam" sad_user "default" initial_state))
                   (JDict [("response", JStr "I hear you")]) _)).
  vm_compute. reflexivity.
Defined.

Lemma requests_stay_in_bounds_witness :
  exists more,
    api_calls (snd exhausted_run)
    = mkRequest "sample-model"
        [create_dynamic_prompt happy_world sad_user
           "I failed my exam and feel awful" []]
        (initial_config happy_world) :: more
    /\ List.length more <= 2
    /\ Forall (request_in_bounds happy_world
                 (create_dynamic_prompt happy_world sad_user
                    "I failed my exam and feel awful" [])) more.
Proof.
  exact (@requests_stay_in_bounds nat happy_world eq_refl
           "I failed my exam and feel awful" sad_user "default" initial_state
           [] 0 eq_refl).
Defined.

Lemma refine_raises_after_three_calls_witness :
  List.length
    (api_calls (snd (refine_and_respond_body api_down "hello" sad_user "default"
                       initial_state))) = 3.
Proof.
  refine (proj1 (@refine_raises_after_three_calls nat api_down "hello" sad_user
                   "default" initial_state
                   (snd (refine_and_respond_body api_down "hello" sad_user
                           "default" initial_state))
                   [] 0
                   (mkExn (OtherException "ServerError") "503 Service Unavailable")
                   eq_refl _)).
  vm_compute. reflexivity.
Defined.

(* ================================================================= *)
(** ** Replies of the wrong shape *)

Section WrongShape.

Variable W : Type.
Variable env : Env W.

Lemma check_reply_fallback_reply (attempt : nat) (st : St W) :
  check_reply attempt fallback_reply st = (Ret fallback_reply, st).
Proof. reflexivity. Qed.

(** X21.  A reply that is JSON of the wrong shape.  A falsy value
    ([null], [false], 0, an empty string, list or dict) and a value that
    does not hold "response" (a dict without the key, a list without the
    element, a string without the substring) are handled as the fallback
    reply is, after the warning of the substitution.  A number or [true]
    makes the membership test raise a [TypeError]: no fallback is
    substituted, the pass is logged as a failed call, and it goes on with
    the temperature unchanged or, as the last pass, raises.  A string or
    list that holds "response" is subscripted with a [str] and raises a
    [TypeError] as well. *)
Theorem reply_of_wrong_shape
        (prompt : string) (analysis : EmotionAnalysisResult) (attempt : nat)
        (cfg : GenerateContentConfig) (data : json) (st : St W) :
  (truthy data = false \/ py_in "response" data = Ret false ->
   settle_reply env analysis attempt cfg data st
   = settle_reply env analysis attempt cfg fallback_reply
       (with_log st (fallback_warning attempt)))
  /\ (forall e,
         truthy data = true -> py_in "response" data = Raise e ->
         settle_reply env analysis attempt cfg data st = (Raise e, st)
         /\ forall st0,
             fetch_reply env prompt attempt cfg st0 = (Ret data, st) ->
             attempt_once env prompt analysis attempt cfg st0
             = (if (attempt =? max_attempts)%nat then Raise e
                else Ret (Continue cfg),
                with_log st (failure_record attempt e)))
  /\ (truthy data = true -> py_in "response" data = Ret true ->
      (forall kvs, data <> JDict kvs) ->
      exists e,
        exn_class e = TypeError
        /\ fst (settle_reply env analysis attempt cfg data st) = Raise e).
Proof.
  split; [| split].
  - intros Hshape.
    assert (Hc : check_reply attempt data st
                 = (Ret fallback_reply, with_log st (fallback_warning attempt))).
    { unfold check_reply, use_fallback. unfold_monad.
      destruct (truthy data); cbn [negb]; [| reflexivity].
      destruct Hshape as [Habs | ->]; [discriminate Habs | reflexivity]. }
    unfold settle_reply. unfold bind at 1. rewrite Hc.
    symmetry. unfold bind at 1. rewrite check_reply_fallback_reply.
    reflexivity.
  - intros e Htruthy Hin.
    assert (Hs : settle_reply env analysis attempt cfg data st = (Raise e, st)).
    { unfold settle_reply, check_reply. unfold bind at 1.
      rewrite Htruthy. cbn [negb]. unfold bind at 1, eval. now rewrite Hin. }
    split; [exact Hs |].
    intros st0 Hfetch.
    unfold attempt_once, attempt_body, try_except. unfold bind at 1.
    rewrite Hfetch, Hs. unfold_monad.
    now destruct (attempt =? max_attempts)%nat.
  - intros Htruthy Hin Hnot.
    unfold settle_reply, check_reply. unfold bind at 1.
    rewrite Htruthy. cbn [negb]. unfold bind at 1, eval. rewrite Hin.
    unfold ret at 1. unfold bind at 1, note. unfold bind at 1, eval.
    destruct data; try discriminate Hin; cbn [getitem].
    + eexists. split; [| reflexivity]. reflexivity.
    + eexists. split; [| reflexivity]. reflexivity.
    + now destruct (Hnot kvs).
Qed.

End WrongShape.

Lemma reply_of_wrong_shape_witness :
  attempt_once number_world "prompt" neutral_user 1 (initial_config number_world)
    initial_state
  = (Ret (Continue (initial_config number_world)),
     with_log
       (snd (fetch_reply number_world "prompt" 1 (initial_config number_world)
               initial_state))
       (failure_record 1
          (mkExn TypeError "argument of type 'int' is not iterable"))).
Proof.
  exact (proj2 (proj1 (proj2 (@reply_of_wrong_shape nat number_world "prompt"
                               neutral_user 1 (initial_config number_world)
                               (JInt 5)
                               (snd (fetch_reply number_world "prompt" 1
                                       (initial_config number_world) initial_state))))
                  (mkExn TypeError "argument of type 'int' is not iterable")
                  eq_refl eq_refl)
           initial_state eq_refl).
Defined.

(* ================================================================= *)
(** ** The client, and the entry point of the module *)

Section Client.

Variable W : Type.
Variable env : Env W.

Lemma client_ret {A} (a : A) : keeps_client W (ret a).
Proof. intro st; reflexivity. Qed.

Lemma client_raise {A} (e : Exn) : keeps_client W (@raise W A e).
Proof. intro st; reflexivity. Qed.

Lemma client_eval {A} (o : Outcome A) : keeps_client W (eval o).
Proof. intro st; reflexivity. Qed.

Lemma client_emit (r : LogRecord) : keeps_client W (emit r).
Proof. intro st; reflexivity. Qed.

Lemma client_call {A} (f : W -> Outcome A * W) : keeps_client W (call f).
Proof. intro st; unfold call. now destruct (f (world st)). Qed.

Lemma client_note (data : json) : keeps_client W (note (W:=W) data).
Proof. intro st; reflexivity. Qed.

Lemma client_generate (req : GenerateRequest) :
  keeps_client W (call_generate_content env req).
Proof.
  intro st; unfold call_generate_content.
  now destruct (generate_content env req (world st)).
Qed.

Lemma client_bind {A B} (m : M W A) (k : A -> M W B) :
  keeps_client W m -> (forall a, keeps_client W (k a)) -> keeps_client W (bind m k).
Proof.
  intros Hm Hk st. unfold bind. specialize (Hm st).
  destruct (m st) as [[a|e] st1]; simpl in *.
  - now rewrite Hk.
  - assumption.
Qed.

Lemma client_try {A} (m : M W A) (h : Exn -> M W A) :
  keeps_client W m -> (forall e, keeps_client W (h e)) ->
  keeps_client W (try_except m h).
Proof.
  intros Hm Hh st. unfold try_except. specialize (Hm st).
  destruct (m st) as [[a|e] st1]; simpl in *.
  - assumption.
  - now rewrite Hh.
Qed.

Lemma client_if {A} (b : bool) (m1 m2 : M W A) :
  keeps_client W m1 -> keeps_client W m2 -> keeps_client W (if b then m1 else m2).
Proof. now destruct b. Qed.

Create HintDb client_frame.
#[local] Hint Resolve client_ret client_raise client_eval client_emit client_call
  client_note client_generate client_if : client_frame.
#[local] Hint Extern 1 (keeps_client _ (logger_debug _)) =>
  apply client_emit : client_frame.
#[local] Hint Extern 1 (keeps_client _ (logger_info _)) =>
  apply client_emit : client_frame.
#[local] Hint Extern 1 (keeps_client _ (logger_warning _)) =>
  apply client_emit : client_frame.
#[local] Hint Extern 1 (keeps_client _ (logger_error _)) =>
  apply client_emit : client_frame.
#[local] Hint Extern 2 (keeps_client _ (bind _ _)) =>
  apply client_bind; [| intro] : client_frame.
#[local] Hint Extern 2 (keeps_client _ (try_except _ _)) =>
  apply client_try; [| intro] : client_frame.
#[local] Hint Extern 3 (keeps_client _ (match ?x with _ => _ end)) =>
  destruct x : client_frame.

Lemma client_validate_response (response : json) (expected : string) :
  keeps_client W (validate_response env response expected).
Proof. unfold validate_response. auto 12 with client_frame. Qed.

Lemma client_load_reply (raw : string) : keeps_client W (load_reply env raw).
Proof. unfold load_reply. auto 8 with client_frame. Qed.

Lemma client_check_reply (attempt : nat) (data : json) :
  keeps_client W (check_reply (W:=W) attempt data).
Proof. unfold check_reply, use_fallback. auto 8 with client_frame. Qed.

Lemma client_attempt_once (prompt : string) (analysis : EmotionAnalysisResult)
      (attempt : nat) (cfg : GenerateContentConfig) :
  keeps_client W (attempt_once env prompt analysis attempt cfg).
Proof.
  unfold attempt_once, attempt_body, fetch_reply, settle_reply.
  pose proof client_check_reply. pose proof client_validate_response.
  pose proof client_load_reply.
  auto 14 with client_frame.
Qed.

Lemma client_attempts_loop (prompt : string) (analysis : EmotionAnalysisResult)
      (attempts : list nat) :
  forall cfg, keeps_client W (attempts_loop env prompt analysis attempts cfg).
Proof.
  induction attempts as [|attempt rest IH]; intros cfg.
  - cbn [attempts_loop]. auto with client_frame.
  - cbn [attempts_loop]. apply client_bind; [apply client_attempt_once |].
    intros [data|cfg']; [apply client_ret | apply IH].
Qed.


(** X10.  What [generate_emotional_response] makes of a result that
    [refine_and_respond] returns: from a dict it returns the value under
    "response" as it is, or the fixed reply "... what’s going on for you
    right now?" when the key is missing, and logs nothing; a result that
    is not a dict has no [get], and the [AttributeError] is logged and
    answered with the same fixed reply. *)
Theorem generate_emotional_response_reads_reply
        (user_text : string) (emotions : EmotionAnalysisResult)
        (model_name user_id : string) (st st1 : St W) (result : json)
        (Hrun : refine_and_respond env user_text emotions user_id st
                = (Ret result, st1)) :
  generate_emotional_response env user_text emotions model_name user_id st
  = match result with
    | JDict kvs =>
        (Ret (match lookup "response" kvs with
              | Some reply => reply
              | None => JStr charlotte_default
              end), st1)
    | _ =>
        (Ret (JStr charlotte_default),
         with_log st1
           (generation_failure
              (mkExn AttributeError
                 ("'" ++ type_name result ++ "' object has no attribute 'get'"))))
    end.
Proof.
  unfold generate_emotional_response, try_except, bind at 1. rewrite Hrun.
  unfold eval. destruct result; reflexivity.
Qed.

End Client.

Lemma generate_emotional_response_reads_reply_witness :
  generate_emotional_response happy_world "hello" neutral_user "sample-model"
    "default" initial_state
  = (Ret (JStr "hi"),
     snd (refine_and_respond happy_world "hello" neutral_user "default"
            initial_state)).
Proof.
  rewrite (@generate_emotional_response_reads_reply nat happy_world "hello"
             neutral_user "sample-model" "default" initial_state
             (snd (refine_and_respond happy_world "hello" neutral_user "default"
                     initial_state))
             (JDict [("response", JStr "hi")]) eq_refl).
  reflexivity.
Defined.


(* ================================================================= *)
(** ** What a submission leaves behind *)

Section SubmitOutcome.

Import ChatInterface.

Variable b : Browser.

(** A submission that passes the guard, step by step. *)
Lemma handleSubmit_runs (event : bool) (st : State) (clk : nat) :
  trim (inputValue st) <> "" -> isLoading st = false ->
  handleSubmit b event st clk
  = let text := trim (inputValue st) in
    let messages1 := (messages st ++ [user_bubble b text clk])%list in
    match handle_response b (S (S clk)) (fetch b (chat_request b text)) with
    | inr (aiMessage, clk') =>
        mkRun (mkState (messages1 ++ [aiMessage])%list "" false None)
          [chat_request b text] [] event true clk'
    | inl (message, logged) =>
        let errorMessage :=
          if message =? "" then connection_failed else message in
        mkRun (mkState
                 (messages1 ++
                  [mkMessage (JStr ("error-" ++ str_Z (now b (S (S clk))))) system
                     (JStr ("Error: " ++ errorMessage)) (now b (S (S (S clk)))) None])%list
                 "" false (Some errorMessage))
          [chat_request b text] (logged ++ ["API Interaction Error:"])%list
          event true (S (S (S (S clk))))
    end.
Proof.
  intros Hne Hidle. unfold handleSubmit.
  apply String.eqb_neq in Hne. rewrite Hne, Hidle. reflexivity.
Qed.

(** X11.  A submission that passes the guard always leaves an answer in
    the conversation.  It sends one request, appends the user's message
    and exactly one more message, clears the input, ends with [isLoading]
    false and reaches the focus call.  The second message is the AI's (no
    error is set, nothing is logged), or a system message "Error: ..."
    whose text is the error then set; that error is never empty, so the
    error line is rendered with it. *)
Theorem handleSubmit_always_answers
        (event : bool) (st : State) (clk : nat)
        (Hready : trim (inputValue st) <> "")
        (Hidle : isLoading st = false) :
  let r := handleSubmit b event st clk in
  exists reply,
    messages (state r)
    = (messages st ++ [user_bubble b (trim (inputValue st)) clk; reply])%list
    /\ sent r = [chat_request b (trim (inputValue st))]
    /\ inputValue (state r) = ""
    /\ isLoading (state r) = false
    /\ focused r = true
    /\ ((sender reply = ai /\ error (state r) = None /\ console r = []
         /\ ChatView.error_line (state r) = None)
        \/ (sender reply = system
            /\ exists shown,
                shown <> ""
                /\ error (state r) = Some shown
                /\ ChatView.error_line (state r) = Some shown
                /\ text reply = JStr ("Error: " ++ shown)
                /\ last (console r) "" = "API Interaction Error:")).
Proof.
  cbv zeta. rewrite handleSubmit_runs by assumption. cbv zeta.
  destruct (handle_response b (S (S clk)) _) as [[message logged] | [aiMessage clk']]
    eqn:Hresp.
  - eexists. cbn [state messages sent inputValue isLoading focused error console].
    rewrite <- app_assoc. cbn [app].
    repeat (split; [reflexivity |]).
    right. split; [reflexivity |].
    exists (if message =? "" then connection_failed else message).
    assert (Hshown : (if message =? "" then connection_failed else message) <> "")
      by (destruct (message =? "") eqn:Hm; [discriminate | now apply String.eqb_neq]).
    split; [exact Hshown |]. split; [reflexivity |]. split.
    + unfold ChatView.error_line. cbn [error isLoading].
      apply String.eqb_neq in Hshown. now rewrite Hshown.
    + split; [reflexivity | now rewrite last_last].
  - exists aiMessage. cbn [state messages sent inputValue isLoading focused error console].
    rewrite <- app_assoc. cbn [app].
    repeat (split; [reflexivity |]).
    left. split; [| repeat split].
    unfold handle_response in Hresp.
    destruct (fetch b _) as [m | ok status [m | responseBody]]; try discriminate.
    destruct (negb ok); [discriminate |].
    destruct responseBody; try discriminate;
      match type of Hresp with
      | (if ?c then _ else _) = _ => destruct c; [| discriminate]
      end;
      repeat match type of Hresp with
        | match ?x with _ => _ end = _ => destruct x; try discriminate
        end;
      injection Hresp as <- _; reflexivity.
Qed.

(** X12.  On a response that is not ok (and whose body is JSON): when
    the body has a non-empty string under [detail], that string is the
    error set and the text of the system message after "Error: "; when
    [detail] is missing or falsy ([null], [false], 0, the empty string),
    or the body is not an object, the error is "Request failed with status
    N" for the status N of the response. *)
Theorem rejected_request_shows_detail
        (event : bool) (st : State) (clk : nat) (status : nat) (body : json)
        (Hready : trim (inputValue st) <> "")
        (Hidle : isLoading st = false)
        (Hfetch : fetch b (chat_request b (trim (inputValue st)))
                  = Responded false status (Body body)) :
  let r := handleSubmit b event st clk in
  (forall detail,
      prop body "detail" = Some (JStr detail) -> detail <> "" ->
      error (state r) = Some detail
      /\ text (last (messages (state r)) (user_bubble b "" 0))
         = JStr ("Error: " ++ detail))
  /\ (truthy_opt (prop body "detail") = false ->
      error (state r)
      = Some ("Request failed with status " ++ PyStr.str_nat status)).
Proof.
  cbv zeta. rewrite handleSubmit_runs by assumption. cbv zeta.
  rewrite Hfetch. unfold handle_response. cbn [negb].
  assert (Hd : match body with
               | JNull => None
               | _ => prop body "detail"
               end = prop body "detail") by now destruct body.
  rewrite Hd. split.
  - intros detail Hdetail Hne. rewrite Hdetail.
    apply String.eqb_neq in Hne.
    cbn [js_truthy]. rewrite Hne. cbn [negb].
    unfold error_message. rewrite Hne.
    cbn [state error messages]. split; [reflexivity |].
    now rewrite last_last.
  - intros Hfalsy.
    assert (Hmsg : forall s, ("Request failed with status " ++ s =? "") = false)
      by reflexivity.
    destruct (prop body "detail") as [d|]; cbn [truthy_opt] in Hfalsy.
    + rewrite Hfalsy. cbn [error_message]. now rewrite Hmsg.
    + cbn [error_message]. now rewrite Hmsg.
Qed.

(** X13.  When [fetch] rejects, or the body of the response (whatever
    its status) is not JSON, the message of the exception is the error
    set, or "Failed to connect to the AI service." when that message is
    empty; the failure is logged once on the console and answered by a
    system message. *)
Theorem unreachable_backend_shows_message
        (event : bool) (st : State) (clk : nat) (reason : string)
        (Hready : trim (inputValue st) <> "")
        (Hidle : isLoading st = false)
        (Hfetch : fetch b (chat_request b (trim (inputValue st))) = Rejected reason
                  \/ exists ok status,
                      fetch b (chat_request b (trim (inputValue st)))
                      = Responded ok status (BodyThrows reason)) :
  let r := handleSubmit b event st clk in
  error (state r) = Some (if reason =? "" then connection_failed else reason)
  /\ console r = ["API Interaction Error:"]
  /\ exists bubble,
      messages (state r)
      = (messages st ++ [user_bubble b (trim (inputValue st)) clk; bubble])%list
      /\ sender bubble = system.
Proof.
  cbv zeta. rewrite handleSubmit_runs by assumption. cbv zeta.
  assert (Hresp : handle_response b (S (S clk))
                    (fetch b (chat_request b (trim (inputValue st))))
                  = inl (reason, [])).
  { destruct Hfetch as [-> | (ok & status & ->)]; reflexivity. }
  rewrite Hresp. cbn [state error console app messages].
  repeat split. eexists. rewrite <- app_assoc. cbn [app]. split; reflexivity.
Qed.

(** The completeness test of the handler, in terms of
    [distribution_root]. *)
Lemma complete_test (data : json) :
  truthy_opt (prop data "ai_response")
  && truthy_opt (prop data "user_emotion_analysis")
  && match prop data "user_emotion_analysis" with
     | Some a =>
         match prop a "distribution" with
         | Some d =>
             match d with
             | JNull => false
             | _ => truthy_opt (prop d "root")
             end
         | None => false
         end
     | None => false
     end
  = truthy_opt (prop data "ai_response")
    && truthy_opt (prop data "user_emotion_analysis")
    && truthy_opt (ChatView.distribution_root (prop data "user_emotion_analysis")).
Proof.
  destruct (prop data "user_emotion_analysis") as [a|]; [| reflexivity].
  unfold ChatView.distribution_root.
  destruct a; try reflexivity;
    try (cbn [prop]; now rewrite ?andb_false_r).
  destruct (prop (JDict kvs) "distribution") as [d|]; [| reflexivity].
  now destruct d.
Qed.

(** X14.  An ok response whose body has a truthy [ai_response] and a
    [user_emotion_analysis] with a truthy [distribution.root] is shown as
    received: the appended AI message carries [ai_response] as its text
    and the analysis as it came, its id is [response_id] when that is
    truthy and "ai-" followed by the clock otherwise, no error is set and
    nothing is logged. *)
Theorem complete_reply_is_shown_as_received
        (event : bool) (st : State) (clk : nat) (status : nat)
        (data reply analysis : json)
        (Hready : trim (inputValue st) <> "")
        (Hidle : isLoading st = false)
        (Hfetch : fetch b (chat_request b (trim (inputValue st)))
                  = Responded true status (Body data))
        (Hreply : prop data "ai_response" = Some reply)
        (Hsaid : js_truthy reply = true)
        (Hanalysis : prop data "user_emotion_analysis" = Some analysis)
        (Hroot : truthy_opt (ChatView.distribution_root (Some analysis)) = true) :
  let r := handleSubmit b event st clk in
  let generated := JStr ("ai-" ++ str_Z (now b (S (S clk)))) in
  exists bubble,
    messages (state r)
    = (messages st ++ [user_bubble b (trim (inputValue st)) clk; bubble])%list
    /\ sender bubble = ai
    /\ text bubble = reply
    /\ emotionAnalysis bubble = Some analysis
    /\ id bubble = match prop data "response_id" with
                   | Some i => if js_truthy i then i else generated
                   | None => generated
                   end
    /\ error (state r) = None
    /\ console r = [].
Proof.
  cbv zeta. rewrite handleSubmit_runs by assumption. cbv zeta.
  rewrite Hfetch. unfold handle_response. cbn [negb].
  assert (Hdict : exists kvs, data = JDict kvs).
  { destruct data; try discriminate Hreply. now eexists. }
  destruct Hdict as (kvs & ->).
  rewrite complete_test. rewrite Hreply, Hanalysis. cbn [truthy_opt].
  rewrite Hsaid, Hroot.
  assert (Ha : js_truthy analysis = true).
  { destruct analysis; try discriminate Hroot; reflexivity. }
  rewrite Ha. cbn [andb].
  destruct (prop (JDict kvs) "response_id") as [i|].
  - destruct (js_truthy i); eexists;
      cbn [state messages error console]; rewrite <- app_assoc; cbn [app];
      repeat split.
  - eexists. cbn [state messages error console]. rewrite <- app_assoc. cbn [app].
    repeat split.
Qed.

(** X15.  An ok response whose body (not [null]) lacks a truthy
    [ai_response], a truthy [user_emotion_analysis] or a truthy
    [distribution.root] inside it is never shown as a reply: the error
    "Received incomplete or malformed data structure from backend." is
    set and shown as a system message, and the console gets two error
    lines. *)
Theorem incomplete_reply_is_refused
        (event : bool) (st : State) (clk : nat) (status : nat) (data : json)
        (Hready : trim (inputValue st) <> "")
        (Hidle : isLoading st = false)
        (Hfetch : fetch b (chat_request b (trim (inputValue st)))
                  = Responded true status (Body data))
        (Hdata : data <> JNull)
        (Hmissing : truthy_opt (prop data "ai_response") = false
                    \/ truthy_opt (prop data "user_emotion_analysis") = false
                    \/ truthy_opt (ChatView.distribution_root
                                     (prop data "user_emotion_analysis")) = false) :
  let r := handleSubmit b event st clk in
  error (state r) = Some incomplete_data
  /\ console r = ["Incomplete data structure received:"; "API Interaction Error:"]
  /\ exists bubble,
      messages (state r)
      = (messages st ++ [user_bubble b (trim (inputValue st)) clk; bubble])%list
      /\ sender bubble = system
      /\ text bubble = JStr ("Error: " ++ incomplete_data).
Proof.
  cbv zeta. rewrite handleSubmit_runs by assumption. cbv zeta.
  rewrite Hfetch.
  assert (Hresp : handle_response b (S (S clk)) (Responded true status (Body data))
                  = inl (incomplete_data, ["Incomplete data structure received:"])).
  { unfold handle_response. cbn [negb].
    assert (Hc : truthy_opt (prop data "ai_response")
                 && truthy_opt (prop data "user_emotion_analysis")
                 && truthy_opt (ChatView.distribution_root
                                  (prop data "user_emotion_analysis")) = false).
    { destruct Hmissing as [-> | [-> | ->]];
        rewrite ?andb_false_r; reflexivity. }
    rewrite <- complete_test in Hc.
    destruct data; try contradiction; try (rewrite Hc; reflexivity). }
  rewrite Hresp. cbn [state error console app messages].
  repeat split. eexists. rewrite <- app_assoc. cbn [app]. repeat split.
Qed.

End SubmitOutcome.

(* ================================================================= *)
(** ** The guard shared by the ways to submit *)

Section Guard.

Import ChatInterface ChatView.

Variable b : Browser.

Lemma handleSubmit_sent (event : bool) (st : State) (clk : nat) :
  sent (handleSubmit b event st clk)
  = if send_disabled st then []
    else [chat_request b (trim (inputValue st))].
Proof.
  unfold handleSubmit, send_disabled.
  rewrite (orb_comm (isLoading st)).
  destruct ((trim (inputValue st) =? "") || isLoading st); [reflexivity |].
  now destruct (handle_response b (S (S clk)) _) as [[m l] | [m c]].
Qed.

(** X16.  The send button, the form and the Enter key agree.  A call of
    [handleSubmit] sends nothing exactly when the send button is disabled
    ([isLoading], or an input that is empty once trimmed); a key press
    sends a request exactly when it is Enter without Shift and the button
    is enabled; and with the button disabled neither a key press nor a
    submit changes the state. *)
Theorem entry_points_share_the_guard (st : State) (clk : nat) :
  (forall event,
      sent (handleSubmit b event st clk) = [] <-> send_disabled st = true)
  /\ (forall ev,
         sent (handleKeyDown b ev st clk) <> [] <->
         key ev = "Enter" /\ shiftKey ev = false /\ send_disabled st = false)
  /\ (forall ev,
         send_disabled st = true ->
         state (handleKeyDown b ev st clk) = st
         /\ forall event, state (handleSubmit b event st clk) = st).
Proof.
  split; [| split].
  - intros event. rewrite handleSubmit_sent.
    destruct (send_disabled st); split; congruence.
  - intros ev. unfold handleKeyDown.
    destruct (key ev =? "Enter") eqn:Hk; cbn [andb].
    + apply String.eqb_eq in Hk.
      destruct (shiftKey ev); cbn [negb sent].
      * split; [congruence | intros (_ & H & _); discriminate H].
      * rewrite handleSubmit_sent.
        destruct (send_disabled st); split; try congruence.
        -- intros (_ & _ & H); discriminate H.
        -- intros _. now repeat split.
    + apply String.eqb_neq in Hk. cbn [sent].
      split; [congruence | intros (H & _); contradiction].
  - intros ev Hoff.
    assert (Hs : forall event, handleSubmit b event st clk = mkRun st [] [] event false clk).
    { intros event. unfold handleSubmit. unfold send_disabled in Hoff.
      rewrite orb_comm in Hoff. now rewrite Hoff. }
    split; [| intros event; now rewrite Hs].
    unfold handleKeyDown. rewrite Hs.
    now destruct ((key ev =? "Enter") && negb (shiftKey ev)).
Qed.

End Guard.

(* ================================================================= *)
(** ** The emotion badges *)

Section Emotions.

Import ChatInterface ChatView.

Variable eng : Engine.

Lemma insert_perm (a : string * json) (l : list (string * json)) :
  Permutation (insert eng a l) (a :: l).
Proof.
  induction l as [|x l IH]; cbn [insert]; [reflexivity |].
  destruct (comes_after eng a x); [| reflexivity].
  rewrite IH. apply perm_swap.
Qed.

Lemma sort_perm (l : list (string * json)) : Permutation (sort eng l) l.
Proof.
  unfold sort. induction l as [|a l IH]; cbn [fold_right]; [reflexivity |].
  rewrite insert_perm. now constructor.
Qed.

Lemma badges_numbers (l : list (string * json)) :
  Forall (fun e => is_number (snd e) = true) l ->
  exists spans,
    badges eng l = Some spans
    /\ map badge_key spans = map fst l
    /\ Forall2 (fun s e => badge eng e = Some s) spans l.
Proof.
  induction 1 as [|[label score] l Hnum _ IH].
  - exists []. repeat split. constructor.
  - destruct IH as (spans & Hspans & Hkeys & Hall).
    cbn [badges]. 
    assert (Hb : exists x, badge eng (label, score) = Some x /\ badge_key x = label).
    { cbn [snd] in Hnum. destruct score; try discriminate Hnum;
        cbn [badge]; eexists; split; reflexivity. }
    destruct Hb as (x & Hx & Hkey). rewrite Hx, Hspans.
    exists (x :: spans). split; [reflexivity |]. split.
    + cbn [map fst]. now rewrite Hkey, Hkeys.
    + now constructor.
Qed.

Lemma badges_not_number (l : list (string * json)) (e : string * json) :
  In e l -> is_number (snd e) = false -> badges eng l = None.
Proof.
  induction l as [|x l IH]; intros Hin Hnot; [contradiction |].
  cbn [badges]. destruct Hin as [-> | Hin].
  - destruct e as [label score]. cbn [snd] in Hnot.
    now destruct score.
  - destruct (badge eng x); [| reflexivity].
    now rewrite (IH Hin Hnot).
Qed.

Lemma sort_nonempty (l : list (string * json)) : l <> [] -> sort eng l <> [].
Proof.
  intros Hne Hs. pose proof (sort_perm l) as Hp. rewrite Hs in Hp.
  apply Permutation_nil in Hp. contradiction.
Qed.

(** X17.  For an analysis whose [distribution.root] is a non-empty
    object with numbers as scores, [EmotionDisplay] renders one badge per
    emotion: the keys of the badges are the labels of the distribution,
    each once (a permutation of them); a badge shows its label with the
    score times 100 in one decimal, carries the score in four decimals as
    its title, and is styled by the entry of [colorMap] for its label, or
    by the neutral entry when the label is neither in [colorMap] nor a
    property of [Object.prototype]. *)
Theorem EmotionDisplay_shows_every_emotion_once
        (analysis : option json) (kvs : list (string * json))
        (Hroot : distribution_root analysis = Some (JDict kvs))
        (Hsome : kvs <> [])
        (Hnum : Forall (fun e => is_number (snd e) = true) kvs) :
  exists spans,
    EmotionDisplay eng analysis = Badges spans
    /\ Permutation (map badge_key spans) (map fst kvs)
    /\ List.length spans = List.length kvs
    /\ (forall s, In s spans ->
                  exists score,
                    In (badge_key s, score) kvs
                    /\ title s = "Score: " ++ to_fixed eng (number_of eng score) 4
                    /\ content s
                       = badge_key s ++ ": "
                         ++ to_fixed eng (PrimFloat.mul (number_of eng score) 100) 1
                         ++ "%"
                    /\ (forall c, lookup_class (badge_key s) = Some c ->
                                  occurs_in (" border " ++ c ++ " font-normal")
                                    (className s))
                    /\ (lookup_class (badge_key s) = None ->
                        object_prototype eng (badge_key s) = None ->
                        occurs_in (" border " ++ neutral_class ++ " font-normal")
                          (className s))).
Proof.
  assert (Hsorted : Forall (fun e => is_number (snd e) = true) (sort eng kvs)).
  { rewrite Forall_forall in *. intros e Hin. apply Hnum.
    now apply (Permutation_in _ (sort_perm kvs)). }
  destruct (badges_numbers Hsorted) as (spans & Hspans & Hkeys & Hall).
  exists spans. split; [| split; [| split]].
  - unfold EmotionDisplay. rewrite Hroot. cbn [js_truthy entries].
    pose proof (sort_nonempty Hsome) as Hne.
    destruct (sort eng kvs) as [|e l] eqn:Hs; [contradiction |].
    now rewrite Hspans.
  - rewrite Hkeys. apply Permutation_map, sort_perm.
  - rewrite <- (length_map badge_key), Hkeys, length_map.
    apply Permutation_length, sort_perm.
  - intros s Hin.
    assert (He : exists e, In e (sort eng kvs) /\ badge eng e = Some s).
    { clear -Hall Hin. induction Hall as [|x e xs es Hx _ IH]; [contradiction |].
      destruct Hin as [<- | Hin].
      - exists e. split; [now left | exact Hx].
      - destruct (IH Hin) as (e' & He' & Hb). exists e'. split; [now right | exact Hb]. }
    destruct He as ([label score] & Hine & Hb).
    apply (Permutation_in _ (sort_perm kvs)) in Hine.
    assert (Hs : is_number score = true).
    { rewrite Forall_forall in Hnum. apply (Hnum _ Hine). }
    assert (Hshape :
              s = mkBadge label
                    ("px-2 py-0.5 rounded-full text-xs border " ++ badgeClass eng label
                     ++ " font-normal tracking-wide opacity-90 whitespace-nowrap backdrop-blur-sm")
                    ("Score: " ++ to_fixed eng (number_of eng score) 4)
                    (label ++ ": "
                     ++ to_fixed eng (PrimFloat.mul (number_of eng score) 100) 1 ++ "%")).
    { destruct score; try discriminate Hs; cbn [badge] in Hb; now injection Hb. }
    subst s. cbn [badge_key title content className].
    exists score. split; [exact Hine |]. do 2 (split; [reflexivity |]).
    assert (Hocc : forall c,
               badgeClass eng label = c ->
               occurs_in (" border " ++ c ++ " font-normal")
                 ("px-2 py-0.5 rounded-full text-xs border " ++ badgeClass eng label
                  ++ " font-normal tracking-wide opacity-90 whitespace-nowrap backdrop-blur-sm")).
    { intros c ->. exists "px-2 py-0.5 rounded-full text-xs". 
      exists " tracking-wide opacity-90 whitespace-nowrap backdrop-blur-sm".
      rewrite !app_assoc_s. reflexivity. }
    split.
    + intros c Hc. apply Hocc. unfold badgeClass. now rewrite Hc.
    + intros Hc Hp. apply Hocc. unfold badgeClass. now rewrite Hc, Hp.
Qed.

(** X18.  [EmotionDisplay] checks that the distribution is there, not
    what it holds: when [distribution.root] is an object with a score that
    is not a number (a string, [null], a boolean, an array, an object), no
    badge is rendered and building the badges throws, since [toFixed]
    exists on numbers only. *)
Theorem EmotionDisplay_throws_on_non_numeric_score
        (analysis : option json) (kvs : list (string * json))
        (label : string) (score : json)
        (Hroot : distribution_root analysis = Some (JDict kvs))
        (Hin : In (label, score) kvs)
        (Hnot : is_number score = false) :
  EmotionDisplay eng analysis = Throws.
Proof.
  unfold EmotionDisplay. rewrite Hroot. cbn [js_truthy entries].
  assert (Hsorted : In (label, score) (sort eng kvs))
    by (apply (Permutation_in _ (Permutation_sym (sort_perm kvs))); exact Hin).
  rewrite (badges_not_number _ _ Hsorted Hnot).
  destruct (sort eng kvs); [contradiction | reflexivity].
Qed.

End Emotions.

(* ================================================================= *)
(** ** The order of binary floats and the sign of a difference

    The comparator of the emotion list subtracts two scores and the sort
    reads the sign of the result.  For finite numbers that sign is the
    sign of the exact difference: a difference of two floats that is not
    zero is at least the smallest positive float in magnitude, so rounding
    never takes it to zero.  The lemmas are stated for any precision
    [prec] > 0 and any [emax], over the specification of the operations in
    [SpecFloat]. *)

Section SpecOrder.

#[local] Open Scope Z_scope.

Variables prec emax : Z.
Hypothesis Hprec : 0 < prec.

#[local] Abbreviation emin := (SpecFloat.emin prec emax).
#[local] Abbreviation fexp := (SpecFloat.fexp prec emax).

Lemma digits2_pos_bounds (p : positive) :
  2 ^ (Zpos (digits2_pos p) - 1) <= Zpos p < 2 ^ Zpos (digits2_pos p).
Proof.
  induction p as [p IH | p IH |]; cbn [digits2_pos].
  - rewrite Pos2Z.inj_succ.
    replace (Z.succ (Zpos (digits2_pos p)) - 1) with (Z.succ (Zpos (digits2_pos p) - 1))
      by lia.
    rewrite !Z.pow_succ_r by lia. lia.
  - rewrite Pos2Z.inj_succ.
    replace (Z.succ (Zpos (digits2_pos p)) - 1) with (Z.succ (Zpos (digits2_pos p) - 1))
      by lia.
    rewrite !Z.pow_succ_r by lia. lia.
  - simpl. lia.
Qed.

Lemma shr_1_div2 (mrs : shr_record) :
  0 <= shr_m mrs -> shr_m (shr_1 mrs) = Z.div2 (shr_m mrs).
Proof.
  destruct mrs as [m r s]. cbn [shr_m]. intros Hm.
  destruct m as [|[p|p|]|p]; try reflexivity. lia.
Qed.

Lemma iter_pos_shr (n : positive) :
  forall mrs, 0 <= shr_m mrs ->
              shr_m (iter_pos shr_1 n mrs) = Z.shiftr (shr_m mrs) (Zpos n).
Proof.
  induction n as [n IH | n IH |]; intros mrs Hm; cbn [iter_pos].
  - assert (H1 : 0 <= shr_m (shr_1 mrs))
      by (rewrite shr_1_div2 by exact Hm; apply Z.div2_nonneg; exact Hm).
    assert (H2 : 0 <= shr_m (iter_pos shr_1 n (shr_1 mrs)))
      by (rewrite IH by exact H1; apply Z.shiftr_nonneg; exact H1).
    rewrite IH by exact H2. rewrite IH by exact H1.
    rewrite shr_1_div2 by exact Hm. rewrite Z.div2_spec.
    rewrite !Z.shiftr_shiftr by lia. f_equal. lia.
  - assert (H2 : 0 <= shr_m (iter_pos shr_1 n mrs))
      by (rewrite IH by exact Hm; apply Z.shiftr_nonneg; exact Hm).
    rewrite IH by exact H2. rewrite IH by exact Hm.
    rewrite !Z.shiftr_shiftr by lia. f_equal. lia.
  - rewrite shr_1_div2 by exact Hm. now rewrite Z.div2_spec.
Qed.

Lemma shiftr_pos (p : positive) (n : Z) :
  0 <= n < Zpos (digits2_pos p) -> 0 < Z.shiftr (Zpos p) n.
Proof.
  intros Hn. rewrite Z.shiftr_div_pow2 by lia.
  apply Z.div_str_pos. split; [apply Z.pow_pos_nonneg; lia |].
  pose proof (digits2_pos_bounds p) as [Hlow _].
  apply Z.le_trans with (2 ^ (Zpos (digits2_pos p) - 1)); [| exact Hlow].
  apply Z.pow_le_mono_r; lia.
Qed.

Lemma shr_record_of_loc_m (m : Z) (l : location) :
  shr_m (shr_record_of_loc m l) = m.
Proof. now destruct l as [|[| |]]. Qed.

Lemma shr_fexp_pos (p : positive) (e : Z) (l : location) :
  emin <= e ->
  0 < shr_m (fst (shr_fexp prec emax (Zpos p) e l))
  /\ emin <= snd (shr_fexp prec emax (Zpos p) e l).
Proof.
  intros He. unfold shr_fexp, shr. cbn [Zdigits2].
  destruct (fexp (Zpos (digits2_pos p) + e) - e) as [|k|k] eqn:Hn;
    cbn [fst snd]; rewrite ?shr_record_of_loc_m; try (split; lia).
  rewrite iter_pos_shr by (rewrite shr_record_of_loc_m; lia).
  rewrite shr_record_of_loc_m. split; [| lia].
  apply shiftr_pos. unfold SpecFloat.fexp in Hn. lia.
Qed.

Lemma round_nearest_even_pos (m : Z) (l : location) :
  0 < m -> 0 < round_nearest_even m l.
Proof.
  intros Hm. destruct l as [|[| |]]; cbn [round_nearest_even]; try lia.
  destruct (Z.even m); lia.
Qed.

Lemma binary_round_aux_sign (s : bool) (p : positive) (e : Z) (l : location) :
  emin <= e ->
  (exists m' e', binary_round_aux prec emax s (Zpos p) e l = S754_finite s m' e')
  \/ binary_round_aux prec emax s (Zpos p) e l = S754_infinity s.
Proof.
  intros He. unfold binary_round_aux.
  pose proof (@shr_fexp_pos p e l He) as [H1 H1e].
  destruct (shr_fexp prec emax (Zpos p) e l) as [mrs' e'] eqn:Hs1. cbn [fst snd] in *.
  pose proof (@round_nearest_even_pos (shr_m mrs') (loc_of_shr_record mrs') H1) as Hr.
  destruct (round_nearest_even (shr_m mrs') (loc_of_shr_record mrs')) as [|q|q] eqn:Hq;
    try lia.
  pose proof (@shr_fexp_pos q e' loc_Exact H1e) as [H2 _].
  destruct (shr_fexp prec emax (Zpos q) e' loc_Exact) as [mrs'' e''] eqn:Hs2.
  cbn [fst] in H2.
  destruct (shr_m mrs'') as [|m|m]; try lia.
  destruct (e'' <=? emax - prec); [left; now eexists _, _ | now right].
Qed.

Lemma binary_round_sign (s : bool) (p : positive) (e : Z) :
  emin <= e ->
  (exists m' e', binary_round prec emax s p e = S754_finite s m' e')
  \/ binary_round prec emax s p e = S754_infinity s.
Proof.
  intros He. unfold binary_round.
  destruct (shl_align p e (fexp (Zpos (digits2_pos p) + e))) as [mz ez] eqn:Hal.
  apply binary_round_aux_sign.
  unfold shl_align in Hal.
  destruct (fexp (Zpos (digits2_pos p) + e) - e) eqn:Hd; injection Hal as <- <-;
    try exact He.
  unfold SpecFloat.fexp. lia.
Qed.

(** The sign of a normalized integer is the sign of the integer. *)
Lemma binary_normalize_sign (d e : Z) :
  emin <= e ->
  SFltb (S754_zero false) (binary_normalize prec emax d e false) = (0 <? d).
Proof.
  intros He. destruct d as [|p|p]; cbn [binary_normalize].
  - reflexivity.
  - destruct (@binary_round_sign false p e He) as [(m' & e' & ->) | ->]; reflexivity.
  - destruct (@binary_round_sign true p e He) as [(m' & e' & ->) | ->]; reflexivity.
Qed.

Lemma canonical_bounds (m : positive) (e : Z) :
  canonical_mantissa prec emax m e = true ->
  emin <= e
  /\ Zpos (digits2_pos m) <= prec
  /\ (emin < e -> Zpos (digits2_pos m) = prec).
Proof.
  unfold canonical_mantissa, SpecFloat.fexp. intros H. apply Z.eqb_eq in H. lia.
Qed.

Lemma iter_xO_value (m k : positive) :
  Zpos (Pos.iter xO m k) = Zpos m * 2 ^ Zpos k.
Proof.
  induction k as [|k IH] using Pos.peano_ind.
  - simpl. lia.
  - rewrite Pos.iter_succ, Pos2Z.inj_xO, IH, Pos2Z.inj_succ.
    rewrite Z.pow_succ_r by lia. lia.
Qed.

Lemma shl_align_value (m : positive) (e e' : Z) :
  e' <= e -> Zpos (fst (shl_align m e e')) = Zpos m * 2 ^ (e - e').
Proof.
  intros Hle. unfold shl_align.
  destruct (e' - e) as [|k|k] eqn:Hd; cbn [fst].
  - replace (e - e') with 0 by lia. simpl. lia.
  - lia.
  - rewrite iter_xO_value. f_equal. f_equal. lia.
Qed.

(** Canonical numbers are ordered by exponent first. *)
Lemma canonical_lt (m1 m2 : positive) (e1 e2 : Z) :
  canonical_mantissa prec emax m1 e1 = true ->
  canonical_mantissa prec emax m2 e2 = true ->
  e1 < e2 ->
  Zpos m1 * 2 ^ (e1 - emin) < Zpos m2 * 2 ^ (e2 - emin).
Proof.
  intros H1 H2 Hlt.
  apply canonical_bounds in H1 as (He1 & Hd1 & _).
  apply canonical_bounds in H2 as (He2 & Hd2 & Hfull).
  specialize (Hfull ltac:(lia)).
  pose proof (digits2_pos_bounds m1) as [_ Hup].
  pose proof (digits2_pos_bounds m2) as [Hlow _].
  rewrite Hfull in Hlow.
  assert (Hm1 : Zpos m1 < 2 ^ prec).
  { apply Z.lt_le_trans with (2 ^ Zpos (digits2_pos m1)); [exact Hup |].
    apply Z.pow_le_mono_r; lia. }
  replace (e2 - emin) with ((e1 - emin) + (e2 - e1)) by lia.
  rewrite Z.pow_add_r by lia.
  assert (Hpow : 0 < 2 ^ (e1 - emin)) by (apply Z.pow_pos_nonneg; lia).
  assert (Hstep : 2 <= 2 ^ (e2 - e1)).
  { change 2 with (2 ^ 1) at 1. apply Z.pow_le_mono_r; lia. }
  assert (Hprec2 : 2 ^ prec = 2 ^ (prec - 1) * 2).
  { replace prec with (Z.succ (prec - 1)) at 1 by lia.
    rewrite Z.pow_succ_r by lia. lia. }
  set (P := 2 ^ (e1 - emin)) in *. set (S := 2 ^ (e2 - e1)) in *.
  set (H := 2 ^ (prec - 1)) in *.
  assert (A1 : Zpos m1 * P < H * 2 * P)
    by (apply Z.mul_lt_mono_pos_r; lia).
  assert (A2 : H * 2 * P <= Zpos m2 * 2 * P)
    by (apply Z.mul_le_mono_nonneg_r; lia).
  assert (A3 : Zpos m2 * 2 * P <= Zpos m2 * S * P).
  { apply Z.mul_le_mono_nonneg_r; [lia |].
    apply Z.mul_le_mono_nonneg_l; lia. }
  lia.
Qed.

Lemma mul_compare_r (a b u : Z) : 0 < u -> (a * u ?= b * u) = (a ?= b).
Proof.
  intros Hu. destruct (a ?= b) eqn:H.
  - apply Z.compare_eq_iff in H. subst. apply Z.compare_refl.
  - apply Z.compare_lt_iff in H. apply Z.compare_lt_iff.
    now apply Z.mul_lt_mono_pos_r.
  - apply Z.compare_gt_iff in H. apply Z.compare_gt_iff.
    now apply Z.mul_lt_mono_pos_r.
Qed.

Lemma SFcompare_units (x y : spec_float) :
  SpecFloat.valid_binary prec emax x = true -> SpecFloat.valid_binary prec emax y = true ->
  spec_finite x = true -> spec_finite y = true ->
  SFcompare x y = Some (spec_units prec emax x ?= spec_units prec emax y).
Proof.
  intros Vx Vy Fx Fy.
  destruct x as [sx | sx | | sx mx ex]; try discriminate Fx;
    destruct y as [sy | sy | | sy my ey]; try discriminate Fy;
    cbn [SFcompare spec_units SpecFloat.valid_binary] in *.
  - reflexivity.
  - f_equal. assert (0 < Zpos my * 2 ^ (ey - emin)).
    { apply andb_prop in Vy as [Cy _]. apply canonical_bounds in Cy as (He & _).
      apply Z.mul_pos_pos; [lia | apply Z.pow_pos_nonneg; lia]. }
    destruct sy; cbn [cond_Zopp]; symmetry;
      [apply Z.compare_gt_iff | apply Z.compare_lt_iff]; lia.
  - f_equal. assert (0 < Zpos mx * 2 ^ (ex - emin)).
    { apply andb_prop in Vx as [Cx _]. apply canonical_bounds in Cx as (He & _).
      apply Z.mul_pos_pos; [lia | apply Z.pow_pos_nonneg; lia]. }
    destruct sx; cbn [cond_Zopp]; symmetry;
      [apply Z.compare_lt_iff | apply Z.compare_gt_iff]; lia.
  - apply andb_prop in Vx as [Cx _]. apply andb_prop in Vy as [Cy _].
    pose proof (@canonical_bounds _ _ Cx) as (Hex & _).
    pose proof (@canonical_bounds _ _ Cy) as (Hey & _).
    assert (Hx : 0 < Zpos mx * 2 ^ (ex - emin))
      by (apply Z.mul_pos_pos; [lia | apply Z.pow_pos_nonneg; lia]).
    assert (Hy : 0 < Zpos my * 2 ^ (ey - emin))
      by (apply Z.mul_pos_pos; [lia | apply Z.pow_pos_nonneg; lia]).
    assert (Hsame : (Zpos mx * 2 ^ (ex - emin) ?= Zpos my * 2 ^ (ey - emin))
                    = match ex ?= ey with
                      | Lt => Lt
                      | Gt => Gt
                      | Eq => Pos.compare_cont Eq mx my
                      end).
    { destruct (ex ?= ey) eqn:Hc.
      - apply Z.compare_eq in Hc. subst ey.
        rewrite mul_compare_r by (apply Z.pow_pos_nonneg; lia).
        reflexivity.
      - apply Z.compare_lt_iff in Hc. apply Z.compare_lt_iff.
        now apply canonical_lt.
      - apply Z.compare_gt_iff in Hc. apply Z.compare_gt_iff.
        now apply canonical_lt. }
    f_equal. destruct sx, sy; cbn [cond_Zopp].
    + rewrite Z.compare_opp.
      rewrite (Z.compare_antisym (Zpos mx * 2 ^ (ex - emin))
                 (Zpos my * 2 ^ (ey - emin))), Hsame.
      now destruct (ex ?= ey).
    + symmetry. apply Z.compare_lt_iff. lia.
    + symmetry. apply Z.compare_gt_iff. lia.
    + rewrite Hsame. reflexivity.
Qed.

(** The sign of a difference: [y - x] is positive exactly when [x < y]. *)
Lemma SFsub_positive (x y : spec_float) :
  SpecFloat.valid_binary prec emax x = true -> SpecFloat.valid_binary prec emax y = true ->
  spec_finite x = true -> spec_finite y = true ->
  SFltb (S754_zero false) (SFsub prec emax y x) = (spec_units prec emax x <? spec_units prec emax y).
Proof.
  intros Vx Vy Fx Fy.
  destruct x as [sx | sx | | sx mx ex]; try discriminate Fx;
    destruct y as [sy | sy | | sy my ey]; try discriminate Fy;
    cbn [SFsub spec_units SpecFloat.valid_binary] in *.
  - now destruct sy, sx.
  - assert (0 < Zpos my * 2 ^ (ey - emin)).
    { apply andb_prop in Vy as [Cy _]. apply canonical_bounds in Cy as (He & _).
      apply Z.mul_pos_pos; [lia | apply Z.pow_pos_nonneg; lia]. }
    destruct sy; cbn [SFltb SFcompare cond_Zopp]; symmetry;
      [apply Z.ltb_ge | apply Z.ltb_lt]; lia.
  - assert (0 < Zpos mx * 2 ^ (ex - emin)).
    { apply andb_prop in Vx as [Cx _]. apply canonical_bounds in Cx as (He & _).
      apply Z.mul_pos_pos; [lia | apply Z.pow_pos_nonneg; lia]. }
    destruct sx; cbn [SFltb SFcompare cond_Zopp negb]; symmetry;
      [apply Z.ltb_lt | apply Z.ltb_ge]; lia.
  - apply andb_prop in Vx as [Cx _]. apply andb_prop in Vy as [Cy _].
    pose proof (@canonical_bounds _ _ Cx) as (Hex & _).
    pose proof (@canonical_bounds _ _ Cy) as (Hey & _).
    cbv zeta. rewrite binary_normalize_sign by lia.
    rewrite !shl_align_value by lia.
    set (ez := Z.min ey ex).
    assert (Hpow : 0 < 2 ^ (ez - emin)) by (apply Z.pow_pos_nonneg; lia).
    assert (Hx : Zpos mx * 2 ^ (ex - emin) = Zpos mx * 2 ^ (ex - ez) * 2 ^ (ez - emin)).
    { rewrite <- Z.mul_assoc, <- Z.pow_add_r by lia. do 2 f_equal. lia. }
    assert (Hy : Zpos my * 2 ^ (ey - emin) = Zpos my * 2 ^ (ey - ez) * 2 ^ (ez - emin)).
    { rewrite <- Z.mul_assoc, <- Z.pow_add_r by lia. do 2 f_equal. lia. }
    rewrite Hx, Hy.
    set (a := Zpos mx * 2 ^ (ex - ez)). set (b := Zpos my * 2 ^ (ey - ez)).
    set (u := 2 ^ (ez - emin)) in *.
    destruct sx, sy; cbn [cond_Zopp];
      destruct (0 <? _) eqn:H0; symmetry;
      [ apply Z.ltb_lt in H0 | apply Z.ltb_ge in H0
      | apply Z.ltb_lt in H0 | apply Z.ltb_ge in H0
      | apply Z.ltb_lt in H0 | apply Z.ltb_ge in H0
      | apply Z.ltb_lt in H0 | apply Z.ltb_ge in H0 ];
      first [ apply Z.ltb_lt | apply Z.ltb_ge ]; nia.
Qed.

End SpecOrder.

(* ================================================================= *)
(** ** Binary64: comparisons in terms of [units_of] *)

Section Binary64.

#[local] Open Scope Z_scope.

Lemma is_finite_spec (x : float) :
  PrimFloat.is_finite x = true -> spec_finite (Prim2SF x) = true.
Proof.
  unfold PrimFloat.is_finite, PrimFloat.is_nan, PrimFloat.is_infinity.
  rewrite !eqb_spec, abs_spec.
  assert (Hinf : Prim2SF infinity = S754_infinity false) by reflexivity.
  rewrite Hinf.
  destruct (Prim2SF x) as [s | s | | s m e]; try reflexivity; try discriminate.
  now destruct s.
Qed.

Lemma prec_pos : 0 < prec.
Proof. reflexivity. Qed.

Lemma compare_units (a b : float) :
  PrimFloat.is_finite a = true -> PrimFloat.is_finite b = true ->
  SFcompare (Prim2SF a) (Prim2SF b) = Some (units_of a ?= units_of b).
Proof.
  intros Ha Hb. apply SFcompare_units.
  - exact prec_pos.
  - apply Prim2SF_valid.
  - apply Prim2SF_valid.
  - now apply is_finite_spec.
  - now apply is_finite_spec.
Qed.

Lemma ltb_units (a b : float) :
  PrimFloat.is_finite a = true -> PrimFloat.is_finite b = true ->
  PrimFloat.ltb a b = (units_of a <? units_of b).
Proof.
  intros Ha Hb. rewrite ltb_spec. unfold SFltb. rewrite compare_units by assumption.
  unfold Z.ltb. now destruct (units_of a ?= units_of b).
Qed.

Lemma leb_units (a b : float) :
  PrimFloat.is_finite a = true -> PrimFloat.is_finite b = true ->
  PrimFloat.leb a b = (units_of a <=? units_of b).
Proof.
  intros Ha Hb. rewrite leb_spec. unfold SFleb. rewrite compare_units by assumption.
  unfold Z.leb. now destruct (units_of a ?= units_of b).
Qed.

Lemma eqb_units (a b : float) :
  PrimFloat.is_finite a = true -> PrimFloat.is_finite b = true ->
  PrimFloat.eqb a b = (units_of a =? units_of b).
Proof.
  intros Ha Hb. rewrite eqb_spec. unfold SFeqb. rewrite compare_units by assumption.
  destruct (units_of a ?= units_of b) eqn:Hc; symmetry.
  - apply Z.compare_eq in Hc. rewrite Hc. apply Z.eqb_refl.
  - apply Z.eqb_neq. intros Heq. rewrite Heq, Z.compare_refl in Hc. discriminate.
  - apply Z.eqb_neq. intros Heq. rewrite Heq, Z.compare_refl in Hc. discriminate.
Qed.

(** [b - a] is positive exactly when [a < b], for finite [a] and [b]. *)
Lemma sub_positive (a b : float) :
  PrimFloat.is_finite a = true -> PrimFloat.is_finite b = true ->
  PrimFloat.ltb 0 (PrimFloat.sub b a) = (units_of a <? units_of b).
Proof.
  intros Ha Hb. rewrite ltb_spec, sub_spec.
  assert (H0 : Prim2SF 0 = S754_zero false) by reflexivity.
  rewrite H0. apply SFsub_positive.
  - exact prec_pos.
  - apply Prim2SF_valid.
  - apply Prim2SF_valid.
  - now apply is_finite_spec.
  - now apply is_finite_spec.
Qed.

End Binary64.

(* ================================================================= *)
(** ** The order of the emotion badges *)

Section SortedEmotions.

Import ChatInterface ChatView.

#[local] Open Scope Z_scope.

Variable eng : Engine.

#[local] Abbreviation key := (fun e : string * json => units_of (number_of eng (snd e))).

Lemma finite_score_finite (e : string * json) :
  finite_score eng e = true -> PrimFloat.is_finite (number_of eng (snd e)) = true.
Proof. unfold finite_score. intros H. now apply andb_prop in H. Qed.

Lemma comes_after_key (a b : string * json) :
  finite_score eng a = true -> finite_score eng b = true ->
  comes_after eng a b = (key a <? key b).
Proof.
  intros Ha Hb. unfold comes_after.
  apply sub_positive; now apply finite_score_finite.
Qed.

Lemma insert_in (x e : string * json) (l : list (string * json)) :
  In e (insert eng x l) -> e = x \/ In e l.
Proof.
  intros H. apply (Permutation_in _ (insert_perm eng x l)) in H.
  destruct H as [<- | H]; auto.
Qed.

(** Inserting into a list by descending key keeps it so. *)
Lemma insert_sorted (x : string * json) (l : list (string * json)) :
  finite_score eng x = true ->
  Forall (fun e => finite_score eng e = true) l ->
  StronglySorted (fun a b => key b <= key a) l ->
  StronglySorted (fun a b => key b <= key a) (insert eng x l).
Proof.
  intros Hx Hall Hs. induction Hs as [|b rest Hrest IH Hb]; cbn [insert].
  - repeat constructor.
  - inversion Hall as [|? ? Hfb Hfrest]; subst.
    rewrite comes_after_key by assumption.
    destruct (key x <? key b) eqn:Hlt.
    + apply Z.ltb_lt in Hlt. constructor; [now apply IH |].
      rewrite Forall_forall in *. intros e He.
      destruct (insert_in _ _ _ He) as [-> | Hin]; [lia | now apply Hb].
    + apply Z.ltb_ge in Hlt. constructor; [now constructor |].
      constructor; [exact Hlt |].
      rewrite Forall_forall in *. intros e He. specialize (Hb e He). lia.
Qed.

Lemma sort_sorted (l : list (string * json)) :
  Forall (fun e => finite_score eng e = true) l ->
  StronglySorted (fun a b => key b <= key a) (sort eng l).
Proof.
  unfold sort. induction 1 as [|x l Hx Hall IH]; cbn [fold_right].
  - constructor.
  - apply insert_sorted; [exact Hx | | exact IH].
    rewrite Forall_forall in *. intros e He. apply Hall.
    now apply (Permutation_in _ (sort_perm eng l)).
Qed.

(** Entries of the same score keep their order. *)
Lemma insert_scored (k : Z) (x : string * json) (l : list (string * json)) :
  finite_score eng x = true ->
  Forall (fun e => finite_score eng e = true) l ->
  filter (fun e => key e =? k) (insert eng x l)
  = filter (fun e => key e =? k) (x :: l).
Proof.
  intros Hx Hall. induction Hall as [|b rest Hb Hrest IH]; cbn [insert].
  - reflexivity.
  - rewrite comes_after_key by assumption.
    destruct (key x <? key b) eqn:Hlt; [| reflexivity].
    apply Z.ltb_lt in Hlt.
    cbn [filter] in *. rewrite IH.
    destruct (key x =? k) eqn:Hxk; destruct (key b =? k) eqn:Hbk; try reflexivity.
    apply Z.eqb_eq in Hxk, Hbk. lia.
Qed.

Lemma sort_scored (k : Z) (l : list (string * json)) :
  Forall (fun e => finite_score eng e = true) l ->
  filter (fun e => key e =? k) (sort eng l) = filter (fun e => key e =? k) l.
Proof.
  unfold sort. induction 1 as [|x l Hx Hall IH]; cbn [fold_right].
  - reflexivity.
  - rewrite insert_scored.
    + cbn [filter]. now rewrite IH.
    + exact Hx.
    + rewrite Forall_forall in *. intros e He. apply Hall.
      now apply (Permutation_in _ (sort_perm eng l)).
Qed.

Lemma filter_ext_in_list {A} (f g : A -> bool) (l : list A) :
  (forall a, In a l -> f a = g a) -> filter f l = filter g l.
Proof.
  induction l as [|a l IH]; intros H; [reflexivity |].
  cbn [filter]. rewrite (H a) by now left.
  rewrite IH; [reflexivity |]. intros b Hb. apply H. now right.
Qed.

Lemma sorted_descending (l : list (string * json)) :
  Forall (fun e => finite_score eng e = true) l ->
  StronglySorted (fun a b => key b <= key a) l ->
  StronglySorted (descending eng) l.
Proof.
  intros Hfin Hs. induction Hs as [|a l Hl IH Ha].
  - constructor.
  - inversion Hfin as [|? ? Hfa Hfl]; subst.
    constructor; [now apply IH |].
    rewrite Forall_forall in *. intros e He.
    unfold descending. rewrite leb_units.
    + apply Z.leb_le. now apply Ha.
    + apply finite_score_finite. now apply Hfl.
    + now apply finite_score_finite.
Qed.

(** X24.  For a distribution (a non-empty object) whose scores are all
    finite numbers, [EmotionDisplay] renders the badges by descending
    score.  On finite numbers the comparator [b.score - a.score] is
    positive exactly when the score of [a] is below the score of [b]; so
    the badges follow the sorted entries, which are a permutation of the
    entries of the distribution, every entry stands before entries of
    equal or lower score only, and entries of equal score keep the order
    they have in the distribution. *)
Theorem EmotionDisplay_sorts_by_descending_score
        (analysis : option json) (kvs : list (string * json))
        (Hroot : distribution_root analysis = Some (JDict kvs))
        (Hsome : kvs <> [])
        (Hfinite : Forall (fun e => finite_score eng e = true) kvs) :
  exists spans,
    EmotionDisplay eng analysis = Badges spans
    /\ map badge_key spans = map fst (sort eng kvs)
    /\ Permutation (sort eng kvs) kvs
    /\ StronglySorted (descending eng) (sort eng kvs)
    /\ (forall x, PrimFloat.is_finite x = true ->
                  scored eng x (sort eng kvs) = scored eng x kvs).
Proof.
  assert (Hsorted_fin : Forall (fun e => finite_score eng e = true) (sort eng kvs)).
  { rewrite Forall_forall in *. intros e He. apply Hfinite.
    now apply (Permutation_in _ (sort_perm eng kvs)). }
  assert (Hnum : Forall (fun e => is_number (snd e) = true) (sort eng kvs)).
  { rewrite Forall_forall in *. intros e He.
    specialize (Hsorted_fin e He). unfold finite_score in Hsorted_fin.
    now apply andb_prop in Hsorted_fin. }
  destruct (badges_numbers eng Hnum) as (spans & Hspans & Hkeys & _).
  exists spans. split; [| split; [| split; [| split]]].
  - unfold EmotionDisplay. rewrite Hroot. cbn [js_truthy entries].
    pose proof (sort_nonempty eng Hsome) as Hne.
    destruct (sort eng kvs) as [|e l] eqn:Hs; [contradiction |].
    now rewrite Hspans.
  - exact Hkeys.
  - apply sort_perm.
  - apply sorted_descending; [exact Hsorted_fin | now apply sort_sorted].
  - intros x Hx. unfold scored.
    rewrite (@filter_ext_in_list _ _ (fun e => key e =? units_of x) (sort eng kvs)).
    + rewrite (@filter_ext_in_list _ _ (fun e => key e =? units_of x) kvs).
      * now apply sort_scored.
      * intros e He. apply eqb_units; [| exact Hx].
        apply finite_score_finite. rewrite Forall_forall in Hfinite. now apply Hfinite.
    + intros e He. apply eqb_units; [| exact Hx].
      apply finite_score_finite. rewrite Forall_forall in Hsorted_fin.
      now apply Hsorted_fin.
Qed.

End SortedEmotions.

Lemma EmotionDisplay_sorts_by_descending_score_witness :
  exists spans,
    ChatView.EmotionDisplay sample_engine
      (analysis_with
         (JDict [("fear", JFloat 0.25); ("sad", JFloat 0.75); ("joy", JFloat 0.25)]))
    = ChatView.Badges spans
    /\ map ChatView.badge_key spans = ["sad"; "fear"; "joy"].
Proof.
  destruct (@EmotionDisplay_sorts_by_descending_score sample_engine
              (analysis_with
                 (JDict [("fear", JFloat 0.25); ("sad", JFloat 0.75);
                         ("joy", JFloat 0.25)]))
              [("fear", JFloat 0.25); ("sad", JFloat 0.75); ("joy", JFloat 0.25)]
              eq_refl ltac:(discriminate) ltac:(repeat constructor))
    as (spans & Hshown & Hkeys & _).
  exists spans. split; [exact Hshown |].
  rewrite Hkeys. reflexivity.
Defined.

(* ================================================================= *)
(** ** When nothing is rendered *)

Section Nothing.

Import ChatInterface ChatView.

Variable eng : Engine.

Lemma sort_empty (l : list (string * json)) : sort eng l = [] <-> l = [].
Proof.
  split.
  - intros Hs. pose proof (sort_perm eng l) as Hp. rewrite Hs in Hp.
    now apply Permutation_nil in Hp.
  - intros ->. reflexivity.
Qed.

(** X22.  [EmotionDisplay] renders nothing in two cases only, each with
    its own warning: "No analysis or distribution root found" exactly
    when [analysis?.distribution?.root] is missing or falsy, and
    "Distribution provided but resulted in zero sorted emotions" exactly
    when the root is truthy and has no entries (an empty object or array,
    a number, [true]). *)
Theorem EmotionDisplay_renders_nothing_exactly_when (analysis : option json) :
  (EmotionDisplay eng analysis = Nothing no_distribution_warning <->
   truthy_opt (distribution_root analysis) = false)
  /\ (EmotionDisplay eng analysis = Nothing zero_emotions_warning <->
      exists root,
        distribution_root analysis = Some root
        /\ js_truthy root = true
        /\ entries eng root = [])
  /\ (forall warned,
         EmotionDisplay eng analysis = Nothing warned ->
         warned = no_distribution_warning \/ warned = zero_emotions_warning).
Proof.
  assert (Hdiff : no_distribution_warning <> zero_emotions_warning)
    by discriminate.
  unfold EmotionDisplay.
  destruct (distribution_root analysis) as [root|]; cbn [truthy_opt].
  - destruct (js_truthy root) eqn:Ht.
    + cbv zeta.
      destruct (sort eng (entries eng root)) as [|e l] eqn:Hs.
      * apply (proj1 (sort_empty _)) in Hs. split; [| split].
        -- split; [intros H; injection H as H; now destruct Hdiff | discriminate].
        -- split; [intros _; exists root; now repeat split | reflexivity].
        -- intros warned H. injection H as <-. now right.
      * assert (Hne : entries eng root <> []).
        { intros H. apply (proj2 (sort_empty _)) in H. rewrite H in Hs. discriminate. }
        assert (Hno : ~ exists r, Some root = Some r /\ js_truthy r = true
                                  /\ entries eng r = []).
        { intros (r & Hr & _ & He). injection Hr as <-. contradiction. }
        destruct (badges eng (e :: l)); (split; [| split]);
          try (split; [discriminate | discriminate]);
          try (split; [discriminate | intros H; now destruct Hno]);
          intros warned H; discriminate H.
    + split; [| split].
      * split; reflexivity.
      * split; [intros H; injection H as H; now destruct Hdiff |].
        intros (r & Hr & Hrt & _). injection Hr as <-. congruence.
      * intros warned H. injection H as <-. now left.
  - split; [| split].
    + split; reflexivity.
    + split; [intros H; injection H as H; now destruct Hdiff |].
      intros (r & Hr & _). discriminate.
    + intros warned H. injection H as <-. now left.
Qed.

End Nothing.

(* ================================================================= *)
(** ** From the handler to the badges *)

Section DisplayGuard.

Import ChatInterface ChatView.

Variable b : Browser.

(** The AI message the handler builds carries a truthy analysis with a
    truthy [distribution.root]. *)
Lemma handle_response_ai (clk clk' : nat) (r : FetchResult) (m : Message) :
  handle_response b clk r = inr (m, clk') ->
  sender m = ai
  /\ exists analysis,
      emotionAnalysis m = Some analysis
      /\ js_truthy analysis = true
      /\ truthy_opt (distribution_root (Some analysis)) = true.
Proof.
  unfold handle_response.
  destruct r as [reason | ok status [reason | data]]; try discriminate.
  destruct (negb ok); [discriminate |].
  destruct data; try discriminate;
    rewrite complete_test;
    match goal with
    | |- (if ?c then _ else _) = _ -> _ => destruct c eqn:Hc; [| discriminate]
    end;
    apply andb_prop in Hc as [Hc Hroot]; apply andb_prop in Hc as [Hreply Ha];
    destruct (prop _ "ai_response") as [reply|]; try discriminate;
    destruct (prop _ "user_emotion_analysis") as [analysis|]; try discriminate;
    (destruct (prop _ "response_id") as [i|]; [destruct (js_truthy i) |]);
    intros H; injection H as <- _; cbn [sender emotionAnalysis];
    (split; [reflexivity | exists analysis; now repeat split]).
Qed.

(** X19.  The validation in [handleSubmit] is what [EmotionDisplay]
    relies on: every AI message that [handleSubmit] appends is rendered
    with its emotion list (its [emotionAnalysis] is truthy), its
    [distribution.root] exists and is truthy, and so [EmotionDisplay]
    never takes its first exit ("No analysis or distribution root found")
    on it. *)
Theorem appended_ai_message_passes_display_guard
        (eng : Engine) (event : bool) (st : State) (clk : nat) :
  let r := handleSubmit b event st clk in
  forall m,
    In m (skipn (List.length (messages st)) (messages (state r))) ->
    sender m = ai ->
    shows_emotions m = true
    /\ (exists root,
           distribution_root (emotionAnalysis m) = Some root
           /\ js_truthy root = true)
    /\ EmotionDisplay eng (emotionAnalysis m)
       <> Nothing no_distribution_warning.
Proof.
  cbv zeta. intros m Hin Hai.
  assert (Hfacts : exists analysis,
             emotionAnalysis m = Some analysis
             /\ js_truthy analysis = true
             /\ truthy_opt (distribution_root (Some analysis)) = true).
  { revert Hin. unfold handleSubmit.
    destruct ((trim (inputValue st) =? "") || isLoading st).
    - cbn [state]. rewrite skipn_all. contradiction.
    - destruct (handle_response b (S (S clk)) _) as [[msg logged] | [aiMessage clk']]
        eqn:Hresp; cbn [state messages]; rewrite <- app_assoc, skipn_app, skipn_all,
        Nat.sub_diag; cbn [skipn app]; intros [<- | [<- | []]];
        try discriminate Hai.
      now destruct (handle_response_ai _ _ Hresp) as (_ & H). }
  destruct Hfacts as (analysis & Hm & Ha & Hroot).
  rewrite Hm in *.
  destruct (distribution_root (Some analysis)) as [root|] eqn:Hr;
    [| discriminate Hroot].
  cbn [truthy_opt] in Hroot.
  split; [| split].
  - unfold shows_emotions. rewrite Hai, Hm. exact Ha.
  - now exists root.
  - unfold EmotionDisplay. rewrite Hr, Hroot. cbv zeta.
    destruct (sort eng (entries eng root)); [discriminate |].
    destruct (badges eng _); discriminate.
Qed.

End DisplayGuard.

(* ================================================================= *)
(** ** Class names of the home page *)

Section ClassNames.

Import HomePage.

Lemma concat_app (sep : string) (a b : list string) :
  a <> [] -> b <> [] ->
  String.concat sep (a ++ b) = String.concat sep a ++ sep ++ String.concat sep b.
Proof.
  intros Ha Hb. induction a as [|x a IH]; [contradiction |].
  destruct a as [|y a].
  - destruct b as [|z b]; [contradiction |]. reflexivity.
  - change ((x :: y :: a) ++ b)%list with (x :: ((y :: a) ++ b))%list.
    change (String.concat sep (x :: ((y :: a) ++ b)%list))
      with (x ++ sep ++ String.concat sep ((y :: a) ++ b)%list).
    rewrite IH by discriminate.
    change (String.concat sep (x :: y :: a))
      with (x ++ sep ++ String.concat sep (y :: a)).
    now rewrite !app_assoc_s.
Qed.

Lemma concat_nonempty (sep : string) (l : list string) :
  l <> [] -> Forall (fun s => s <> "") l -> String.concat sep l <> "".
Proof.
  intros Hne Hall. destruct l as [|x l]; [contradiction |].
  inversion Hall as [|? ? Hx _]; subst.
  destruct x as [|c x]; [contradiction |].
  destruct l; cbn [String.concat append]; discriminate.
Qed.

Lemma kept_nonempty (classes : list (option string)) :
  Forall (fun s => s <> "") (kept classes).
Proof.
  unfold kept. induction classes as [|[s|] classes IH]; cbn [flat_map].
  - constructor.
  - destruct (s =? "") eqn:Hs; cbn [app]; [exact IH |].
    constructor; [now apply String.eqb_neq | exact IH].
  - exact IH.
Qed.

Lemma kept_app (xs ys : list (option string)) :
  kept (xs ++ ys) = (kept xs ++ kept ys)%list.
Proof. unfold kept. apply flat_map_app. Qed.

Lemma concat_flatten (sep : string) (a b c : list string) :
  b <> [] ->
  String.concat sep (a ++ [String.concat sep b] ++ c)
  = String.concat sep (a ++ b ++ c).
Proof.
  intros Hb.
  assert (Hbc : String.concat sep ([String.concat sep b] ++ c)
                = String.concat sep (b ++ c)).
  { destruct c as [|z c].
    - now rewrite !app_nil_r.
    - rewrite (@concat_app sep [String.concat sep b] (z :: c)) by discriminate.
      rewrite (@concat_app sep b (z :: c)) by (assumption || discriminate).
      reflexivity. }
  destruct a as [|x a]; [exact Hbc |].
  rewrite (@concat_app sep (x :: a) ([String.concat sep b] ++ c)) by discriminate.
  rewrite (@concat_app sep (x :: a) (b ++ c)).
  - now rewrite Hbc.
  - discriminate.
  - destruct b; [contradiction | discriminate].
Qed.

(** X20.  [cn] skips [undefined], [null], [false] and the empty string,
    and puts single spaces between what is left.  So a call of [cn] given
    as an argument of another is the same as its arguments given in its
    place, and [cn] gives the empty string exactly when it keeps none of
    its arguments. *)
Theorem cn_flattens_nested_calls (xs ys zs : list (option string)) :
  cn (xs ++ Some (cn ys) :: zs) = cn (xs ++ ys ++ zs)
  /\ (cn xs = "" <-> Forall (fun c => c = None \/ c = Some "") xs).
Proof.
  split.
  - unfold cn.
    change (xs ++ Some (String.concat " " (kept ys)) :: zs)%list
      with (xs ++ [Some (String.concat " " (kept ys))] ++ zs)%list.
    rewrite !kept_app.
    destruct (kept ys) as [|y l] eqn:Hys.
    + reflexivity.
    + assert (Hne : String.concat " " (y :: l) <> "").
      { apply concat_nonempty; [discriminate |].
        rewrite <- Hys. apply kept_nonempty. }
      apply String.eqb_neq in Hne.
      assert (Hk : kept [Some (String.concat " " (y :: l))]
                   = [String.concat " " (y :: l)]).
      { unfold kept. cbn [flat_map]. rewrite Hne. reflexivity. }
      rewrite Hk. apply concat_flatten. discriminate.
  - unfold cn. split.
    + intros Hempty.
      assert (Hk : kept xs = []).
      { destruct (kept xs) as [|x l] eqn:Hk; [reflexivity |].
        exfalso. revert Hempty. apply concat_nonempty; [discriminate |].
        rewrite <- Hk. apply kept_nonempty. }
      clear Hempty. unfold kept in Hk.
      induction xs as [|[s|] xs IH]; cbn [flat_map] in Hk.
      * constructor.
      * destruct (s =? "") eqn:Hs; [| discriminate Hk].
        apply String.eqb_eq in Hs. subst s. constructor; [now right | now apply IH].
      * constructor; [now left | now apply IH].
    + intros Hall.
      assert (Hk : kept xs = []).
      { unfold kept. induction Hall as [|c xs [-> | ->] _ IH]; cbn [flat_map];
          [reflexivity | exact IH | exact IH]. }
      now rewrite Hk.
Qed.

End ClassNames.

(* ================================================================= *)
(** ** The components on sample inputs *)

Lemma handleSubmit_always_answers_witness :
  exists reply,
    ChatInterface.messages
      (ChatInterface.state
         (ChatInterface.handleSubmit sample_browser true (typing " hello ") 0))
    = [user_bubble sample_browser "hello" 0; reply]
    /\ ChatInterface.sender reply = ChatInterface.ai.
Proof.
  destruct (@handleSubmit_always_answers sample_browser true (typing " hello ") 0
              ltac:(discriminate) eq_refl)
    as (reply & Hmessages & _ & _ & _ & _ & Hcases).
  exists reply. split; [exact Hmessages |].
  destruct Hcases as [(Hai & _) | (_ & shown & _ & Herr & _)];
    [exact Hai | discriminate Herr].
Defined.

Lemma rejected_request_shows_detail_witness :
  ChatInterface.error
    (ChatInterface.state
       (ChatInterface.handleSubmit rejecting_browser true (typing "hello") 0))
  = Some "Message too long".
Proof.
  refine (proj1 (proj1 (@rejected_request_shows_detail rejecting_browser true
                          (typing "hello") 0 422
                          (JDict [("detail", JStr "Message too long")])
                          _ eq_refl eq_refl)
                   "Message too long" eq_refl _));
    discriminate.
Defined.

Lemma unreachable_backend_shows_message_witness :
  ChatInterface.error
    (ChatInterface.state
       (ChatInterface.handleSubmit offline_browser true (typing "hello") 0))
  = Some "Failed to fetch".
Proof.
  refine (proj1 (@unreachable_backend_shows_message offline_browser true
                   (typing "hello") 0 "Failed to fetch" _ eq_refl
                   (or_introl eq_refl))).
  discriminate.
Defined.

Lemma complete_reply_is_shown_as_received_witness :
  exists bubble,
    ChatInterface.messages
      (ChatInterface.state
         (ChatInterface.handleSubmit sample_browser true (typing "hello") 0))
    = [user_bubble sample_browser "hello" 0; bubble]
    /\ ChatInterface.text bubble = JStr "I hear you."
    /\ ChatInterface.id bubble = JStr "r-1".
Proof.
  destruct (@complete_reply_is_shown_as_received sample_browser true
              (typing "hello") 0 200
              (JDict [("ai_response", JStr "I hear you.");
                      ("user_emotion_analysis",
                       JDict [("distribution",
                               JDict [("root", JDict [("sad", JInt 1)])])]);
                      ("response_id", JStr "r-1")])
              (JStr "I hear you.")
              (JDict [("distribution", JDict [("root", JDict [("sad", JInt 1)])])])
              ltac:(discriminate) eq_refl eq_refl eq_refl eq_refl eq_refl eq_refl)
    as (bubble & Hmessages & _ & Htext & _ & Hid & _).
  exists bubble. now repeat split.
Defined.

Lemma incomplete_reply_is_refused_witness :
  ChatInterface.error
    (ChatInterface.state
       (ChatInterface.handleSubmit partial_browser true (typing "hello") 0))
  = Some incomplete_data.
Proof.
  refine (proj1 (@incomplete_reply_is_refused partial_browser true
                   (typing "hello") 0 200
                   (JDict [("ai_response", JStr "I hear you.")])
                   _ eq_refl eq_refl _ (or_intror (or_introl eq_refl))));
    discriminate.
Defined.

(** The badges of a distribution with two emotions, by descending
    score. *)
Lemma EmotionDisplay_sample :
  ChatView.EmotionDisplay sample_engine
    (analysis_with (JDict [("fear", JFloat 0.25); ("sad", JFloat 0.75)]))
  = ChatView.Badges
      [ChatView.mkBadge "sad"
         ("px-2 py-0.5 rounded-full text-xs border "
          ++ "bg-cyan-500/10 text-cyan-500 border-cyan-500/20"
          ++ " font-normal tracking-wide opacity-90 whitespace-nowrap backdrop-blur-sm")
         "Score: 0.7500" "sad: 75.0%";
       ChatView.mkBadge "fear"
         ("px-2 py-0.5 rounded-full text-xs border "
          ++ "bg-gray-400/10 text-gray-500 border-gray-400/20"
          ++ " font-normal tracking-wide opacity-90 whitespace-nowrap backdrop-blur-sm")
         "Score: 0.2500" "fear: 25.0%"].
Proof. vm_compute. reflexivity. Qed.

Lemma EmotionDisplay_shows_every_emotion_once_witness :
  exists spans,
    ChatView.EmotionDisplay sample_engine
      (analysis_with (JDict [("fear", JFloat 0.25); ("sad", JFloat 0.75)]))
    = ChatView.Badges spans
    /\ List.length spans = 2.
Proof.
  destruct (@EmotionDisplay_shows_every_emotion_once sample_engine
              (analysis_with (JDict [("fear", JFloat 0.25); ("sad", JFloat 0.75)]))
              [("fear", JFloat 0.25); ("sad", JFloat 0.75)]
              eq_refl ltac:(discriminate)
              ltac:(repeat constructor))
    as (spans & Hshown & _ & Hlen & _).
  now exists spans.
Defined.

Lemma EmotionDisplay_throws_on_non_numeric_score_witness :
  ChatView.EmotionDisplay sample_engine
    (analysis_with (JDict [("sad", JFloat 0.75); ("fear", JStr "0.25")]))
  = ChatView.Throws.
Proof.
  exact (@EmotionDisplay_throws_on_non_numeric_score sample_engine
           (analysis_with (JDict [("sad", JFloat 0.75); ("fear", JStr "0.25")]))
           [("sad", JFloat 0.75); ("fear", JStr "0.25")] "fear" (JStr "0.25")
           eq_refl (or_intror (or_introl eq_refl)) eq_refl).
Defined.

Lemma appended_ai_message_passes_display_guard_witness :
  ChatView.shows_emotions
    (last (ChatInterface.messages
             (ChatInterface.state
                (ChatInterface.handleSubmit sample_browser true (typing "hello") 0)))
       (user_bubble sample_browser "" 0))
  = true.
Proof.
  refine (proj1 (@appended_ai_message_passes_display_guard sample_browser
                   sample_engine true (typing "hello") 0 _ _ _)).
  - right. left. reflexivity.
  - reflexivity.
Defined.
